(** * lorry-mirror-updater: the orchestration pipeline of
      [src/lorry_mirror_updater/__main__.py], embedded and verified.

    The program drives three external tools (git, bst, bst-to-lorry) through
    [subprocess.run].  The embedding keeps the source's functions one for one
    in a state-and-exception monad: the state is the chronological history of
    external effects (processes spawned, temporary directories) together with
    the log records written; the only exception is
    [subprocess.CalledProcessError], raised by [run_command] and caught by
    each adapter function exactly as in the source.  The environment (what
    every external process answers, the clock, the names of temporary
    directories, the working directory) is a parameter [Env]: every theorem
    holds for every environment, and concrete scripted environments are used
    to run the definitions.  The tools themselves are taken to be installed
    ([validate_environment] checks that before anything else runs), so that
    spawning a process always ends in an exit status.

    The front end ([validate_environment], [load_mirror_config],
    [push_branch_to_remote], [create_merge_request] and [main] from the
    parsed arguments on) is embedded in the same monad over a second
    parameter, the [Host]: the programs found in PATH, the environment
    variables, the configuration file as [json.load] reads it, and the
    GitLab server.  The requests python-gitlab sends are run in a session
    of their own, in which the server may refuse any request with a
    [GitlabError].  The front end asks the host whether git is in PATH; on
    a host without git the first git command it starts raises
    [FileNotFoundError], which the program catches nowhere, so that
    [validate_environment] and [main] end with that exception instead of a
    value. *)

From Stdlib Require Import ZArith Ascii String List.
From stdpp Require Import base decidable option list strings gmap.

(** ** Python string primitives used by the source *)

Module PyStr.

(** [str.isspace] on one character (code points below 256). *)
Definition is_space (c : ascii) : bool :=
  let n := nat_of_ascii c in
  ((9 <=? n) && (n <=? 13)) || ((28 <=? n) && (n <=? 32))
  || (n =? 133) || (n =? 160).

Fixpoint lstrip (s : string) : string :=
  match s with
  | EmptyString => EmptyString
  | String c r => if is_space c then lstrip r else s
  end.

Definition rstrip (s : string) : string :=
  String.rev (lstrip (String.rev s)).

(** [s.strip()] *)
Definition strip (s : string) : string := rstrip (lstrip s).

(** Truthiness of a [str]: non-empty. *)
Definition truthy (s : string) : bool :=
  match s with EmptyString => false | String _ _ => true end.

(** Truthiness of a [str | None]. *)
Definition truthy_opt (o : option string) : bool :=
  match o with None => false | Some s => truthy s end.

(** [sep.join(l)] *)
Definition join (sep : string) (l : list string) : string :=
  String.concat sep l.

(** [s.split(sep)] for a one-character separator: never the empty list. *)
Fixpoint split (sep : ascii) (s : string) : list string :=
  match s with
  | EmptyString => [EmptyString]
  | String c r =>
      if Ascii.eqb c sep then EmptyString :: split sep r
      else match split sep r with
           | h :: t => String c h :: t
           | [] => [String c EmptyString]
           end
  end.

(** [l[-1]] on the result of [split] (which is never empty). *)
Definition last_item (l : list string) : string := List.last l EmptyString.

(** [s.replace(old, new)] for a non-empty [old]: every non-overlapping
    occurrence, scanning from the left.  [skip] counts the characters of a
    matched occurrence that are still to be dropped. *)
Fixpoint replace_from (old new : string) (skip : nat) (s : string) : string :=
  match s with
  | EmptyString => EmptyString
  | String c r =>
      match skip with
      | S k => replace_from old new k r
      | O =>
          if String.prefix old s
          then new +:+ replace_from old new (String.length old - 1) r
          else String c (replace_from old new 0 r)
      end
  end.

Definition replace (old new s : string) : string := replace_from old new 0 s.

(** [s.endswith(suffix)] *)
Definition endswith (s suffix : string) : bool :=
  String.prefix (String.rev suffix) (String.rev s).

(** [s.removesuffix(suffix)]: what stripping a suffix means. *)
Definition removesuffix (s suffix : string) : string :=
  if endswith s suffix
  then String.substring 0 (String.length s - String.length suffix) s
  else s.

(** The last decimal digit of [n], as a character. *)
Definition digit (n : nat) : ascii := ascii_of_nat (48 + n mod 10).

(** Two decimal digits, zero padded ([%m], [%d], [%H], [%M], [%S]). *)
Definition zpad2 (n : nat) : string :=
  String (digit (n / 10)) (String (digit n) EmptyString).

(** Four decimal digits, zero padded ([%Y] of a four-digit year). *)
Definition zpad4 (n : nat) : string :=
  String (digit (n / 1000)) (String (digit (n / 100)) (zpad2 n)).

Definition is_digit (c : ascii) : bool :=
  let n := nat_of_ascii c in (48 <=? n) && (n <=? 57).

Fixpoint all_chars (p : ascii -> bool) (s : string) : bool :=
  match s with
  | EmptyString => true
  | String c r => p c && all_chars p r
  end.

End PyStr.

(** ** The external world *)

(** [datetime.datetime]: the fields [strftime] reads. *)
Record datetime := mkDatetime {
  year : nat; month : nat; day : nat;
  hour : nat; minute : nat; second : nat
}.

(** [dt.strftime("%Y%m%d%H%M%S")] *)
Definition strftime_YmdHMS (dt : datetime) : string :=
  PyStr.zpad4 (year dt) +:+ PyStr.zpad2 (month dt) +:+ PyStr.zpad2 (day dt)
  +:+ PyStr.zpad2 (hour dt) +:+ PyStr.zpad2 (minute dt)
  +:+ PyStr.zpad2 (second dt).

(** What a finished child process leaves behind. *)
Record ProcResult := mkProc {
  exit_code : Z; out : string; err : string
}.

(** One external effect of the run. *)
Inductive Event :=
| Spawn (command : list string) (cwd : option string) (res : ProcResult)
| TempDirCreated (dir : string)
| TempDirRemoved (dir : string).

(** The environment: the answer of every external process given the history
    of effects so far, the UTC clock, the fresh name handed out by
    [tempfile.TemporaryDirectory], and [Path.cwd()], which the program never
    changes. *)
Record Env := mkEnv {
  spawn : list Event -> list string -> option string -> ProcResult;
  utcnow : list Event -> datetime;
  mkdtemp : list Event -> string;
  getcwd : string
}.

(** [subprocess.CompletedProcess]; a stream that is not captured is [None]. *)
Record CompletedProcess := mkCompleted {
  cp_args : list string; returncode : Z;
  stdout : option string; stderr : option string
}.

(** [subprocess.CalledProcessError] *)
Record CalledProcessError := mkCalled {
  e_cmd : list string; e_returncode : Z;
  e_stdout : option string; e_stderr : option string
}.

(** ** Logging *)

Inductive Level := INFO | WARNING | ERROR.

(** An argument of a [logging] call, before [%s] formatting. *)
Inductive LogArg :=
| AStr (s : string)
| AList (l : list string)
| ANone.

Record LogRecord := mkLog {
  level : Level; msg : string; args : list LogArg
}.

(** ** Program state and the monad *)

Record State := mkState {
  trace : list Event;
  logs : list LogRecord
}.

Definition initial : State := mkState [] [].

Inductive Result (A : Type) :=
| Ok (a : A)
| Raised (e : CalledProcessError).
Arguments Ok {A} a.
Arguments Raised {A} e.

Definition M (A : Type) : Type := State -> Result A * State.

Definition ret {A} (a : A) : M A := fun st => (Ok a, st).

Definition bind {A B} (m : M A) (k : A -> M B) : M B :=
  fun st =>
    match m st with
    | (Ok a, st') => k a st'
    | (Raised e, st') => (Raised e, st')
    end.

Definition raise {A} (e : CalledProcessError) : M A :=
  fun st => (Raised e, st).

(** [try: m  except subprocess.CalledProcessError as e: h e] *)
Definition try_except {A} (m : M A) (h : CalledProcessError -> M A) : M A :=
  fun st =>
    match m st with
    | (Ok a, st') => (Ok a, st')
    | (Raised e, st') => h e st'
    end.

(** [try: m  finally: c], for a clean-up [c] that does not raise. *)
Definition finally {A} (m : M A) (c : State -> State) : M A :=
  fun st => let '(r, st') := m st in (r, c st').

Notation "'let*' x ':=' m 'in' k" := (bind m (fun x => k))
  (at level 10, x name, m at level 100, k at level 200, only parsing).

Definition emit (e : Event) : State -> State :=
  fun st => mkState (trace st ++ [e]) (logs st).

Definition log (l : Level) (m : string) (a : list LogArg) : M unit :=
  fun st => (Ok tt, mkState (trace st) (logs st ++ [mkLog l m a])).

(** Python's [for x in xs: if not f(x): return False], reporting whether the
    loop ran to its end. *)
Fixpoint for_each {A} (xs : list A) (f : A -> M bool) : M bool :=
  match xs with
  | [] => ret true
  | x :: rest => let* ok := f x in
      if ok then for_each rest f else ret false
  end.

(** [[x for x in xs if not p(x)]] with an effectful [p]: [p] is evaluated on
    every element, in order. *)
Fixpoint filter_not {A} (xs : list A) (p : A -> M bool) : M (list A) :=
  match xs with
  | [] => ret []
  | x :: rest =>
      let* b := p x in
      let* keep := filter_not rest p in
      ret (if b then keep else x :: keep)
  end.

(** ** The program *)

Definition nl : string := String (ascii_of_nat 10) EmptyString.

(** [str(Path(dir) / name)] for an absolute, normalised [dir] and a [name]
    without a slash: an empty or single-dot component is dropped. *)
Definition path_join (dir name : string) : string :=
  if String.eqb name "" || String.eqb name "." then dir
  else dir +:+ "/" +:+ name.

Section Program.

Variable env : Env.

(** *** Shell executor *)

(** [subprocess.run(command, check=check, stdout=..., stderr=...,
    text=True, cwd=cwd)]: the child runs, its effect is recorded, and with
    [check] a non-zero exit status raises. *)
Definition subprocess_run (command : list string)
    (check capture_output : bool) (cwd : option string)
    : M CompletedProcess :=
  fun st =>
    let r := spawn env (trace st) command cwd in
    let st' := emit (Spawn command cwd r) st in
    let o := if capture_output then Some (out r) else None in
    let e := if capture_output then Some (err r) else None in
    if check && negb (exit_code r =? 0)%Z
    then (Raised (mkCalled command (exit_code r) o e), st')
    else (Ok (mkCompleted command (exit_code r) o e), st').

(** [e.stderr.strip() if e.stderr else ""] *)
Definition stderr_text (e : CalledProcessError) : string :=
  if PyStr.truthy_opt (e_stderr e)
  then PyStr.strip (default "" (e_stderr e)) else "".

Definition run_command (command : list string) (check capture_output : bool)
    (cwd message : option string) (warn : bool) : M CompletedProcess :=
  try_except
    (subprocess_run command check capture_output cwd)
    (fun e =>
       let* _ :=
         if PyStr.truthy_opt message && warn then
           log WARNING "%s: %s" [AStr (default "" message); AStr (stderr_text e)]
         else if PyStr.truthy_opt message && negb warn then
           log ERROR "%s: %s" [AStr (default "" message); AStr (stderr_text e)]
         else
           log ERROR ("Command failed: %s" +:+ nl +:+ "Error: %s")
             [AStr (PyStr.join " " command); AStr (stderr_text e)] in
       raise e).

(** *** Element existence checker *)

Definition bst_show_command (element : string) : list string :=
  ["bst"; "--no-interactive"; "show"; "--deps"; "none"; "-f"; "%{name}";
   element].

Definition element_exists (element path : string) : M bool :=
  let command := bst_show_command element in
  try_except
    (let* _ := run_command command true false (Some path)
                 (Some ("Did not find element: " +:+ element)) true in
     ret true)
    (fun _ => ret false).

(** *** Version-control adapter *)

Definition git_command (repo_path : string) (args : list string)
    : list string :=
  ["git"; "-c"; "credential.interactive=false"; "-C"; repo_path] ++ args.

Definition run_git (args : list string) (repo_path : option string)
    (capture_output : bool) (message : option string) (warn : bool)
    : M CompletedProcess :=
  let repo_path :=
    match repo_path with None => getcwd env | Some p => p end in
  let command := git_command repo_path args in
  let* _ := log INFO "Running command: %s" [AStr (PyStr.join " " command)] in
  run_command command true capture_output None message warn.

Definition status_args (subdir : option string) : list string :=
  ["status"; "--porcelain"]
  ++ (if PyStr.truthy_opt subdir then ["--"; default "" subdir] else []).

Definition is_dirty (repo_path subdir : option string) : M bool :=
  try_except
    (let args := status_args subdir in
     let* result := run_git args repo_path true
                      (Some "Failed to check git status") false in
     ret (PyStr.truthy (PyStr.strip (default "" (stdout result)))))
    (fun _ => ret true).

Definition git_add (repo_path : option string) (paths : list string)
    : M bool :=
  try_except
    (let* _ := run_git ("add" :: paths) repo_path false
                 (Some "Failed to add files to git") false in
     ret true)
    (fun _ => ret false).

Definition default_commit_message : string := "(Automated) Update mirrors".

Definition git_commit (repo_path : option string) (message : string)
    : M bool :=
  try_except
    (let* _ := run_git ["commit"; "-m"; message] repo_path false
                 (Some "Failed to commit changes") false in
     ret true)
    (fun _ => ret false).

Definition opt_arg (o : option string) : LogArg :=
  match o with Some s => AStr s | None => ANone end.

Definition checkout_branch (branch : string) (repo_path : option string)
    : M bool :=
  try_except
    (let* _ := run_git ["checkout"; branch] repo_path false
                 (Some ("Failed to checkout branch: " +:+ branch)) false in
     let* _ := log INFO "Checked out %s in repo %s"
                 [AStr branch; opt_arg repo_path] in
     ret true)
    (fun _ => ret false).

(** [datetime.datetime.now(datetime.timezone.utc)] *)
Definition datetime_now_utc : M datetime :=
  fun st => (Ok (utcnow env (trace st)), st).

Definition branch_name_of (base_branch timestamp : string) : string :=
  "update-mirrors/" +:+ base_branch +:+ "/" +:+ timestamp.

Definition create_branch (base_branch : string) : M (option string) :=
  let* now := datetime_now_utc in
  let timestamp := strftime_YmdHMS now in
  let branch_name := branch_name_of base_branch timestamp in
  try_except
    (let* _ := run_git ["checkout"; "-b"; branch_name; base_branch] None false
                 (Some ("Failed to create branch " +:+ branch_name
                        +:+ " from " +:+ base_branch)) false in
     let* _ := log INFO "Created branch %s from %s"
                 [AStr branch_name; AStr base_branch] in
     ret (Some branch_name))
    (fun _ => ret None).

(** The name of the clone directory inside the temporary directory. *)
Definition repo_name (url : string) : string :=
  PyStr.replace ".git" "" (PyStr.last_item (PyStr.split "/" url)).

(** [with clone_repo(url) as (clone_status, clone_dest): body].  The
    temporary directory exists for the extent of the block and is removed
    however the block is left.  The [except] clause of the generator covers
    the clone only: the one block the source runs under it
    ([process_repo]) converts every failure into [False] and never raises
    (see [process_repo_body_no_raise]). *)
Definition clone_repo {A} (url : string)
    (body : bool -> option string -> M A) : M A :=
  fun st =>
    let tmpdir := mkdtemp env (trace st) in
    finally
      (let dest_path := path_join tmpdir (repo_name url) in
       let* r :=
         try_except
           (let* _ := run_git ["clone"; url; dest_path] None false
                        (Some ("Failed to clone repository: " +:+ url))
                        false in
            let* _ := log INFO "Cloned %s to %s"
                        [AStr url; AStr dest_path] in
            ret (true, Some dest_path))
           (fun _ => ret (false, None)) in
       body (fst r) (snd r))
      (emit (TempDirRemoved tmpdir))
      (emit (TempDirCreated tmpdir) st).

(** *** Mirror generator invoker *)

(** The argument list [run_bst_to_lorry] builds. *)
Definition bst_to_lorry_command (elements : list string)
    (git_dir raw_files_dir : string) (exclude_aliases : list string)
    (lorry2 : bool) : list string :=
  (["bst-to-lorry"] ++ elements
     ++ ["--git-directory"; git_dir; "--raw-files-directory"; raw_files_dir])
  ++ (if negb lorry2 then ["--refspecs"] else [])
  ++ flat_map (fun alias => ["--exclude-alias"; alias]) exclude_aliases.

Definition run_bst_to_lorry (elements : list string)
    (git_dir raw_files_dir : string) (exclude_aliases : list string)
    (cwd : string) (lorry2 : bool) : M bool :=
  let command :=
    bst_to_lorry_command elements git_dir raw_files_dir exclude_aliases
      lorry2 in
  let* _ := log INFO "Running bst-to-lorry: %s"
              [AStr (PyStr.join " " command)] in
  try_except
    (let* _ := run_command command true false (Some cwd)
                 (Some "bst-to-lorry failed") false in
     ret true)
    (fun _ => ret false).

(** *** Mirroring orchestrator *)

Definition process_branch (repo_url branch : string)
    (elements : list string) (clone_dest git_dir raw_files_dir : string)
    (exclude_aliases : list string) (lorry2 : bool) : M bool :=
  let* _ := log INFO "Processing branch: %s of repo %s with elements: %s"
              [AStr branch; AStr repo_url; AList elements] in
  let* checked_out := checkout_branch branch (Some clone_dest) in
  if negb checked_out then ret false else
  let* missing_elements :=
    filter_not elements (fun elem => element_exists elem clone_dest) in
  match missing_elements with
  | _ :: _ =>
      let* _ := log ERROR
                  "Required elements not found in branch %s of repo %s: %s"
                  [AStr branch; AStr repo_url; AList missing_elements] in
      ret false
  | [] =>
      let* _ := log INFO "All required elements found in branch %s: %s"
                  [AStr branch; AList elements] in
      let* generated :=
        run_bst_to_lorry elements git_dir raw_files_dir exclude_aliases
          clone_dest lorry2 in
      if negb generated then
        let* _ := log ERROR "bst-to-lorry failed for branch %s in repo %s"
                    [AStr branch; AStr repo_url] in
        ret false
      else ret true
  end.

(** The block of [process_repo] under [with clone_repo(...)]. *)
Definition process_repo_body (repo_url : string)
    (repo_config : list (string * list string))
    (git_dir raw_files_dir : string) (exclude_aliases : list string)
    (base_branch : string) (lorry2 : bool)
    (clone_status : bool) (clone_dest : option string) : M bool :=
  match clone_status, clone_dest with
  | true, Some clone_dest =>
      let* checked_out := checkout_branch base_branch None in
      if negb checked_out then ret false else
      for_each repo_config
        (fun item =>
           process_branch repo_url (fst item) (snd item) clone_dest git_dir
             raw_files_dir exclude_aliases lorry2)
  | _, _ => ret false
  end.

(** A [dict] is modelled by its [items()] in iteration (insertion) order. *)
Definition process_repo (repo_url : string)
    (repo_config : list (string * list string))
    (git_dir raw_files_dir : string) (exclude_aliases : list string)
    (base_branch : string) (lorry2 : bool) : M bool :=
  clone_repo repo_url
    (process_repo_body repo_url repo_config git_dir raw_files_dir
       exclude_aliases base_branch lorry2).

(** *** Commit gate *)

Definition commit_changes (git_dir raw_files_dir base_branch : string)
    : M (bool * option string) :=
  let* local_br := create_branch base_branch in
  match local_br with
  | None => ret (false, None)
  | Some name =>
      if negb (PyStr.truthy name) then ret (false, None) else
      let* added := git_add None [git_dir; raw_files_dir] in
      let* committed :=
        if added then git_commit None default_commit_message
        else ret false in
      if committed then ret (true, Some name) else ret (false, None)
  end.

(** [is_dirty(subdir=raw_files_dir) or is_dirty(subdir=git_dir)] *)
Definition tracked_dirty (git_dir raw_files_dir : string) : M bool :=
  let* raw_dirty := is_dirty None (Some raw_files_dir) in
  if raw_dirty then ret true else is_dirty None (Some git_dir).

(** The [for] loop of [process_mirroring]. *)
Definition process_repos
    (mirror_config : list (string * list (string * list string)))
    (git_dir raw_files_dir : string) (exclude_aliases : list string)
    (base_branch : string) (lorry2 : bool) : M bool :=
  for_each mirror_config
    (fun item =>
       process_repo (fst item) (snd item) git_dir raw_files_dir
         exclude_aliases base_branch lorry2).

Definition process_mirroring
    (mirror_config : list (string * list (string * list string)))
    (git_dir raw_files_dir : string) (exclude_aliases : list string)
    (base_branch : string) (lorry2 : bool) : M (bool * option string) :=
  let* all_ok :=
    process_repos mirror_config git_dir raw_files_dir exclude_aliases
      base_branch lorry2 in
  if negb all_ok then ret (false, None) else
  let* dirty := tracked_dirty git_dir raw_files_dir in
  if dirty then commit_changes git_dir raw_files_dir base_branch
  else
    let* _ := log WARNING "Nothing to commit" [] in
    ret (true, None).

End Program.

(** ** The command line *)

(** The options of [main] with their [argparse] defaults. *)
Module Cli.

Record Args := mkArgs {
  mirror_config : string;
  base_branch : string;
  git_directory : string;
  raw_files_directory : string;
  exclude_alias : list string;
  push : bool;
  create_mr : bool;
  lorry2 : bool
}.

Definition default_args : Args :=
  mkArgs "mirrors.json" "main" "gits" "files" ["fdsdk_git"; "fdsdk_mirror"]
    false false false.

End Cli.

(** ** The hosted project and the branch clean-up *)

(** Regular expressions, matched by derivatives. *)
Module Regex.

Inductive Re :=
| Void
| Eps
| Chr (p : ascii → bool)
| Cat (r1 r2 : Re)
| Alt (r1 r2 : Re)
| Star (r : Re).

Fixpoint nullable (r : Re) : bool :=
  match r with
  | Void => false
  | Eps => true
  | Chr _ => false
  | Cat r1 r2 => nullable r1 && nullable r2
  | Alt r1 r2 => nullable r1 || nullable r2
  | Star _ => true
  end.

Fixpoint deriv (c : ascii) (r : Re) : Re :=
  match r with
  | Void => Void
  | Eps => Void
  | Chr p => if p c then Eps else Void
  | Cat r1 r2 =>
      if nullable r1
      then Alt (Cat (deriv c r1) r2) (deriv c r2)
      else Cat (deriv c r1) r2
  | Alt r1 r2 => Alt (deriv c r1) (deriv c r2)
  | Star r1 => Cat (deriv c r1) (Star r1)
  end.

(** The whole string is in the language of [r]. *)
Fixpoint fullmatch (r : Re) (s : string) : bool :=
  match s with
  | EmptyString => nullable r
  | String c rest => fullmatch (deriv c r) rest
  end.

Fixpoint lit (s : string) : Re :=
  match s with
  | EmptyString => Eps
  | String c rest => Cat (Chr (Ascii.eqb c)) (lit rest)
  end.

Definition plus (r : Re) : Re := Cat r (Star r).

(** [re.match] of Python for a pattern anchored as [^r$]: [$] matches at
    the very end and also just before a final newline. *)
Definition py_match (r : Re) (s : string) : bool :=
  fullmatch r s
  || match String.rev s with
     | String c rest => Ascii.eqb c "010" && fullmatch r (String.rev rest)
     | EmptyString => false
     end.

End Regex.

Module Gitlab.

Import Regex.

(** The pattern [^update-mirrors/([^/]+)/(\d+)$] of the source, without
    its anchors. *)
Definition branch_regex_source : string :=
  "^update-mirrors/([^/]+)/(\d+)$".

Definition branch_regex : Re :=
  Cat (lit "update-mirrors/")
    (Cat (plus (Chr (λ c, negb (Ascii.eqb c "/"))))
       (Cat (Chr (Ascii.eqb "/")) (plus (Chr PyStr.is_digit)))).

Record MergeRequest := mkMR {
  source_branch : string; target_branch : string;
  title : string; state : string
}.

(** The hosted project: its branches, its merge requests, and the branches
    the server holds to be merged. *)
Record Project := mkProject {
  branches : list string;
  mergerequests : list MergeRequest;
  merged : list string
}.

Inductive ApiCall :=
| ListBranches (regex : string)
| ListMergeRequests (state : string)
| DeleteMergedBranches
| DeleteBranch (name : string).

(** [project.branches.list(regex=...)]: the server filters by the anchored
    pattern. *)
Definition branches_list (project : Project) (regex : Re) : list string :=
  List.filter (fullmatch regex) (branches project).

(** [project.mergerequests.list(state=...)] *)
Definition mergerequests_list (project : Project) (s : string)
    : list MergeRequest :=
  List.filter (λ mr, String.eqb (state mr) s) (mergerequests project).

(** [project.delete_merged_branches()] *)
Definition delete_merged_branches (project : Project) : Project :=
  mkProject
    (List.filter (λ b, negb (bool_decide (b ∈ merged project)))
       (branches project))
    (mergerequests project) (merged project).

(** [project.branches.delete(name)] *)
Definition branches_delete (project : Project) (name : string) : Project :=
  mkProject
    (List.filter (λ b, negb (String.eqb b name)) (branches project))
    (mergerequests project) (merged project).

(** [cleanup_branches(project)] with the default pattern: the project
    afterwards and the calls made, in order.  The loop runs over a Python
    [set], here in the order [elements] gives. *)
Definition cleanup_branches (project : Project) : Project * list ApiCall :=
  let branches := branches_list project branch_regex in
  let open_mrs := mergerequests_list project "opened" in
  let branch_names : gset string := list_to_set branches in
  let open_mr_branches : gset string :=
    list_to_set
      (map source_branch
         (List.filter (λ mr, py_match branch_regex (source_branch mr))
            open_mrs)) in
  let branches_without_open_mrs := branch_names ∖ open_mr_branches in
  let project1 := delete_merged_branches project in
  let to_delete := elements branches_without_open_mrs in
  (foldl branches_delete project1 to_delete,
   [ListBranches branch_regex_source; ListMergeRequests "opened";
    DeleteMergedBranches]
   ++ map DeleteBranch to_delete).

End Gitlab.

(** ** Reading the history of effects *)

(** The repository path and the git arguments of a command built by
    [run_git]. *)
Definition git_args (command : list string) : option (string * list string) :=
  match command with
  | tool :: rest =>
      if String.eqb tool "git" then
        match rest with
        | c :: i :: d :: p :: args =>
            if String.eqb c "-c"
               && String.eqb i "credential.interactive=false"
               && String.eqb d "-C"
            then Some (p, args) else None
        | _ => None
        end
      else None
  | [] => None
  end.

(** The commands the program can spawn, by shape. *)
Inductive CmdKind :=
| KClone | KCheckout | KCreateBranch | KAdd | KCommit | KStatus
| KShow | KGenerate | KOther.

Global Instance CmdKind_eq_dec : EqDecision CmdKind.
Proof. solve_decision. Defined.

Definition git_kind (args : list string) : CmdKind :=
  match args with
  | sub :: rest =>
      if String.eqb sub "clone" then KClone
      else if String.eqb sub "checkout" then
        match rest with
        | [_] => KCheckout
        | [flag; _; _] => if String.eqb flag "-b" then KCreateBranch else KOther
        | _ => KOther
        end
      else if String.eqb sub "add" then KAdd
      else if String.eqb sub "commit" then KCommit
      else if String.eqb sub "status" then KStatus
      else KOther
  | [] => KOther
  end.

Definition kind_of (command : list string) : CmdKind :=
  match git_args command with
  | Some (_, args) => git_kind args
  | None =>
      match command with
      | tool :: _ =>
          if String.eqb tool "bst" then KShow
          else if String.eqb tool "bst-to-lorry" then KGenerate
          else KOther
      | [] => KOther
      end
  end.

Definition event_kind (e : Event) : option CmdKind :=
  match e with
  | Spawn command _ _ => Some (kind_of command)
  | _ => None
  end.

Definition succeeded (e : Event) : bool :=
  match e with
  | Spawn _ _ r => (exit_code r =? 0)%Z
  | _ => false
  end.

(** The commands of kind [k] that were spawned. *)
Definition spawned (k : CmdKind) (tr : list Event) : list Event :=
  filter (fun e => event_kind e = Some k) tr.

(** Commands that change the repository they run in: creating a branch,
    staging, committing. *)
Definition mutating (e : Event) : Prop :=
  event_kind e = Some KCreateBranch ∨ event_kind e = Some KAdd
  ∨ event_kind e = Some KCommit.

(** *** What the history does to a repository

    The view of one working tree (at path [target]) that the successful git
    commands of the history produce, following git's documented behaviour:
    [checkout b] moves HEAD to [b]; [checkout -b n base] creates [n] from
    [base] and moves HEAD to it; [add p...] stages the paths; [commit -m m]
    records the staged paths as a commit on HEAD and empties the index.  A
    command that exits non-zero changes nothing. *)

Record Commit := mkCommit {
  on_branch : option string; staged_paths : list string;
  commit_message : string
}.

Record Repo := mkRepo {
  head : option string;
  new_branches : list (string * string);
  index : list string;
  commits : list Commit
}.

Definition pristine : Repo := mkRepo None [] [] [].

Definition git_effect (args : list string) (repo : Repo) : Repo :=
  match git_kind args, args with
  | KCheckout, [_; b] =>
      mkRepo (Some b) (new_branches repo) (index repo) (commits repo)
  | KCreateBranch, [_; _; name; base] =>
      mkRepo (Some name) (new_branches repo ++ [(name, base)]) (index repo)
        (commits repo)
  | KAdd, _ :: paths =>
      mkRepo (head repo) (new_branches repo) (index repo ++ paths)
        (commits repo)
  | KCommit, [_; _; m] =>
      mkRepo (head repo) (new_branches repo) []
        (commits repo ++ [mkCommit (head repo) (index repo) m])
  | _, _ => repo
  end.

Definition observe (target : string) (repo : Repo) (e : Event) : Repo :=
  match e with
  | Spawn command _ r =>
      match git_args command with
      | Some (p, args) =>
          if (exit_code r =? 0)%Z && String.eqb p target
          then git_effect args repo else repo
      | None => repo
      end
  | _ => repo
  end.

Definition repo_view (target : string) (tr : list Event) : Repo :=
  fold_left (observe target) tr pristine.

(** * Vocabulary of the statements *)

(** [ext st d l]: the state [st] after the events [d] and the log records
    [l]. *)
Definition ext (st : State) (d : list Event) (l : list LogRecord) : State :=
  mkState (trace st ++ d) (logs st ++ l).

(** A spawned command that exited 0; what is not a command passes. *)
Definition passed (e : Event) : Prop :=
  match e with
  | Spawn _ _ res => exit_code res = 0%Z
  | _ => True
  end.

(** [spec P Q m]: from every state [m] terminates, adds only events
    satisfying [P] to the history, and its result together with the events
    it added satisfies [Q]. *)
Definition spec {A} (P : Event → Prop) (Q : Result A → list Event → Prop)
    (m : M A) : Prop :=
  ∀ st, ∃ r d l, m st = (r, ext st d l) ∧ Forall P d ∧ Q r d.

(** A function that returns a boolean and never raises, and that returns
    [True] when every command it ran exited 0. *)
Definition verdict (r : Result bool) (d : list Event) : Prop :=
  ∃ b, r = Ok b ∧ (Forall passed d → b = true).

(** Events whose command, when there is one, has a kind in [ks]. *)
Definition of_kinds (ks : list CmdKind) (e : Event) : Prop :=
  match e with
  | Spawn command _ _ => kind_of command ∈ ks
  | _ => True
  end.

(** Among the events, every command of a kind in [ks] exited 0. *)
Definition all_passed (ks : list CmdKind) (d : list Event) : bool :=
  forallb
    (λ e, match e with
          | Spawn command _ res =>
              if bool_decide (kind_of command ∈ ks)
              then (exit_code res =? 0)%Z else true
          | _ => true
          end) d.

(** The commands of the repository level never change a repository. *)
Definition repo_level : list CmdKind := [KClone; KCheckout; KShow; KGenerate].

Section Vocabulary.

Variable env : Env.

(** The event a command produces at history [h], and whether it exits 0. *)
Definition run_event (h : list Event) (command : list string)
    (cwd : option string) : Event :=
  Spawn command cwd (spawn env h command cwd).

Definition exit_ok (h : list Event) (command : list string)
    (cwd : option string) : bool :=
  (exit_code (spawn env h command cwd) =? 0)%Z.

(** The name [create_branch] chooses at history [h]. *)
Definition new_branch_name (base_branch : string) (h : list Event)
    : string :=
  branch_name_of base_branch (strftime_YmdHMS (utcnow env h)).

(** What [is_dirty] answers at history [h]: a failed query counts as
    dirty, otherwise the porcelain output decides. *)
Definition dirty_report (h : list Event) (repo_path subdir : option string)
    : bool :=
  let command :=
    git_command (default (getcwd env) repo_path) (status_args subdir) in
  if exit_ok h command None
  then PyStr.truthy (PyStr.strip (out (spawn env h command None)))
  else true.

Definition create_command (base_branch : string) (h : list Event)
    : list string :=
  git_command (getcwd env)
    ["checkout"; "-b"; new_branch_name base_branch h; base_branch].

Definition add_command (git_dir raw_files_dir : string) : list string :=
  git_command (getcwd env) ["add"; git_dir; raw_files_dir].

Definition commit_command : list string :=
  git_command (getcwd env) ["commit"; "-m"; default_commit_message].

Definition status_command (subdir : string) : list string :=
  git_command (getcwd env) (status_args (Some subdir)).

(** The three commands of the gate at history [h], each answered at the
    history its predecessors leave. *)
Definition gate_create (base_branch : string) (h : list Event) : Event :=
  run_event h (create_command base_branch h) None.

Definition gate_add (git_dir raw_files_dir base_branch : string)
    (h : list Event) : Event :=
  run_event (h ++ [gate_create base_branch h])
    (add_command git_dir raw_files_dir) None.

Definition gate_commit (git_dir raw_files_dir base_branch : string)
    (h : list Event) : Event :=
  run_event
    (h ++ [gate_create base_branch h;
           gate_add git_dir raw_files_dir base_branch h])
    commit_command None.

End Vocabulary.

(** The events of the commit gate at history [h]: it stops at the first
    command that fails. *)
Definition gate_events (env : Env) (git_dir raw_files_dir base_branch : string)
    (h : list Event) : list Event :=
  let e1 := gate_create env base_branch h in
  let e2 := gate_add env git_dir raw_files_dir base_branch h in
  let e3 := gate_commit env git_dir raw_files_dir base_branch h in
  if succeeded e1
  then if succeeded e2 then [e1; e2; e3] else [e1; e2]
  else [e1].

(** Whether the three commands of the gate all succeed at [h]. *)
Definition gate_passes (env : Env) (git_dir raw_files_dir base_branch : string)
    (h : list Event) : bool :=
  succeeded (gate_create env base_branch h)
  && succeeded (gate_add env git_dir raw_files_dir base_branch h)
  && succeeded (gate_commit env git_dir raw_files_dir base_branch h).

(** The existence checks of a list of elements in a checkout, started at
    history [h]: one [bst show] per element, in order, each answered at the
    history the previous ones leave. *)
Fixpoint show_events (env : Env) (h : list Event) (dest : string)
    (elements : list string) : list Event :=
  match elements with
  | [] => []
  | element :: rest =>
      let ev := run_event env h (bst_show_command element) (Some dest) in
      ev :: show_events env (h ++ [ev]) dest rest
  end.

(** The elements whose check failed, in the words of the specification: the
    subset of the required elements that fail the existence check. *)
Definition failing_elements (elements : list string) (checks : list Event)
    : list string :=
  map fst (List.filter (λ p, negb (succeeded (snd p)))
             (combine elements checks)).

(** ** Scripted environments, to run the program *)

Module Script.

Definition clock : datetime := mkDatetime 2024 1 2 3 4 5.

(** Every command of a kind listed in [failing] exits 1; every other
    command exits 0; [git status] prints [porcelain].  Temporary
    directories are numbered by the length of the history. *)
Definition world (failing : list CmdKind) (porcelain : string) : Env :=
  mkEnv
    (fun _ command _ =>
       if bool_decide (kind_of command ∈ failing)
       then mkProc 1 "" "fatal: scripted failure"
       else mkProc 0
              (if bool_decide (kind_of command = KStatus) then porcelain
               else "")
              "")
    (fun _ => clock)
    (fun h => "/tmp/tmp" +:+ PyStr.zpad4 (length h))
    "/work/mirroring-config".

Definition config1 : list (string * list (string * list string)) :=
  [("https://example/repo.git", [("main", ["elemA"])])].

End Script.

(** [sub in s] *)
Fixpoint str_contains (sub s : string) : bool :=
  if String.prefix sub s then true
  else match s with
       | EmptyString => false
       | String _ r => str_contains sub r
       end.

(** No [/] in the string. *)
Definition no_slash (s : string) : bool :=
  PyStr.all_chars (λ c, negb (Ascii.eqb c "/")) s.

(** *** The shape of the history *)

(** A command of one of the three tools, started the way the program starts
    it: git through [run_git] (credential prompts off, the repository given
    with [-C], no working directory), the element check and the generator
    inside a checkout. *)
Definition tool_call (e : Event) : bool :=
  match e with
  | Spawn command None _ => bool_decide (is_Some (git_args command))
  | Spawn command (Some _) _ =>
      bool_decide
        (take 7 command
         = ["bst"; "--no-interactive"; "show"; "--deps"; "none"; "-f";
            "%{name}"]
         ∧ length command = 8)
      || bool_decide (command !! 0 = Some "bst-to-lorry")
  | _ => false
  end.

(** A tool call of a kind the mirroring run knows. *)
Definition known_call (e : Event) : bool :=
  tool_call e && negb (bool_decide (event_kind e = Some KOther)).

(** What the mirroring run may add to the history. *)
Definition mirroring_event (e : Event) : bool :=
  match e with
  | Spawn _ _ _ => known_call e
  | TempDirCreated _ | TempDirRemoved _ => true
  end.

Fixpoint remove_one (d : string) (l : list string) : list string :=
  match l with
  | [] => []
  | x :: rest => if String.eqb x d then rest else x :: remove_one d rest
  end.

Definition tempdir_step (live : list string) (e : Event) : list string :=
  match e with
  | TempDirCreated d => d :: live
  | TempDirRemoved d => remove_one d live
  | Spawn _ _ _ => live
  end.

(** The temporary directories that exist after a history: created and not
    removed since, the latest first. *)
Definition live_tempdirs (tr : list Event) : list string :=
  fold_left tempdir_step tr [].

(** The generator, when it is what a command starts, is given these
    directories, these excluded aliases and this format. *)
Definition generates_into (git_dir raw_files_dir : string)
    (exclude_aliases : list string) (lorry2 : bool) (e : Event) : Prop :=
  match e with
  | Spawn command _ _ =>
      kind_of command = KGenerate →
      ∃ elements,
        command
        = bst_to_lorry_command elements git_dir raw_files_dir exclude_aliases
            lorry2
  | _ => True
  end.

(** A [git push] started through [run_git]. *)
Definition is_push (e : Event) : bool :=
  match e with
  | Spawn command _ _ =>
      match git_args command with
      | Some (_, sub :: _) => String.eqb sub "push"
      | _ => false
      end
  | _ => false
  end.

(** ** The front end: environment checks, configuration, push, merge
       request and [main] *)

(** [pathlib]: [str(Path(a) / b)] on a POSIX system. *)
Module Pathlib.

(** [posixpath.join(a, b)] *)
Definition join (a b : string) : string :=
  if String.prefix "/" b then b
  else if String.eqb a "" || PyStr.endswith a "/" then a +:+ b
  else a +:+ "/" +:+ b.

(** The root of a path: two leading slashes are kept, one or three and more
    are one. *)
Definition root (p : string) : string :=
  if String.prefix "//" p && negb (String.prefix "///" p) then "//"
  else if String.prefix "/" p then "/"
  else "".

(** The components: empty ones and single dots are dropped. *)
Definition parts (p : string) : list string :=
  List.filter (λ x, negb (String.eqb x "") && negb (String.eqb x "."))
    (PyStr.split "/" p).

(** [str(PurePosixPath(p))] *)
Definition str (p : string) : string :=
  let s := root p +:+ PyStr.join "/" (parts p) in
  if String.eqb s "" then "." else s.

(** [str(Path(a) / b)] *)
Definition div (a b : string) : string := str (join a b).

End Pathlib.

(** A mirror configuration: a [dict] of [dict]s of lists, each [dict] by its
    items in insertion order. *)
Definition MirrorConfig : Type := list (string * list (string * list string)).

(** What [open(file)] and [json.load] make of a file name. *)
Inductive ConfigFile :=
| NoSuchFile
| InvalidJson (reason : string)
| Parsed (config : MirrorConfig).

(** The two exceptions [load_mirror_config] lets through. *)
Inductive LoadError :=
| FileNotFoundError
| JSONDecodeError (reason : string).

(** The hosted project as python-gitlab reaches it: requests are answered
    from the project or refused with a [GitlabError]. *)
Module Remote.

Import Regex Gitlab.

Inductive Request :=
| CreateMergeRequest (mr : MergeRequest)
| Call (c : ApiCall).

(** The server behind [gitlab.Gitlab(url, private_token=token)] and
    [gl.projects.get(project_id, lazy=True)]: the project, the requests it
    refuses (given the requests before) with the reason, and the page
    address it gives a merge request. *)
Record Server := mkServer {
  project : Project;
  refuses : list Request → Request → option string;
  web_url : MergeRequest → string
}.

(** A session with the server: the project as it is now, the requests sent
    and the log records written. *)
Record Session := mkSession {
  remote : Project;
  requests : list Request;
  records : list LogRecord
}.

Inductive Answer (A : Type) :=
| Answered (a : A)
| GitlabError (reason : string).
Arguments Answered {A} a.
Arguments GitlabError {A} reason.

Definition G (A : Type) : Type := Session → Answer A * Session.

Definition gret {A} (a : A) : G A := fun s => (Answered a, s).

Definition gbind {A B} (m : G A) (k : A → G B) : G B :=
  fun s =>
    match m s with
    | (Answered a, s') => k a s'
    | (GitlabError reason, s') => (GitlabError reason, s')
    end.

Definition glog (l : Level) (m : string) (a : list LogArg) : G unit :=
  fun s =>
    (Answered tt,
     mkSession (remote s) (requests s) (records s ++ [mkLog l m a])).

Section Api.

Variable server : Server.

(** One request: refused, or answered from the project and applied to
    it. *)
Definition send {A} (q : Request) (answer : Project → A)
    (effect : Project → Project) : G A :=
  fun s =>
    match refuses server (requests s) q with
    | Some reason =>
        (GitlabError reason,
         mkSession (remote s) (requests s ++ [q]) (records s))
    | None =>
        (Answered (answer (remote s)),
         mkSession (effect (remote s)) (requests s ++ [q]) (records s))
    end.

(** [project.mergerequests.create({...})]: the new merge request is open;
    the answer read is its [web_url]. *)
Definition mergerequests_create (source target mr_title : string)
    : G string :=
  let mr := mkMR source target mr_title "opened" in
  send (CreateMergeRequest mr) (λ _, web_url server mr)
    (λ p, mkProject (branches p) (mergerequests p ++ [mr]) (merged p)).

Definition branches_list (regex_source : string) (regex : Re)
    : G (list string) :=
  send (Call (ListBranches regex_source))
    (λ p, Gitlab.branches_list p regex) id.

Definition mergerequests_list (s : string) : G (list MergeRequest) :=
  send (Call (ListMergeRequests s))
    (λ p, Gitlab.mergerequests_list p s) id.

Definition delete_merged_branches : G unit :=
  send (Call DeleteMergedBranches) (λ _, tt) Gitlab.delete_merged_branches.

Definition branches_delete (name : string) : G unit :=
  send (Call (DeleteBranch name)) (λ _, tt)
    (λ p, Gitlab.branches_delete p name).

(** The loop of [cleanup_branches]. *)
Fixpoint delete_each (names : list string) : G unit :=
  match names with
  | [] => gret tt
  | branch :: rest =>
      gbind (glog INFO "Deleting branch: %s" [AStr branch]) (λ _,
      gbind (branches_delete branch) (λ _,
      delete_each rest))
  end.

(** [cleanup_branches(project)] with the default pattern, request by
    request: nothing in it handles a refusal. *)
Definition cleanup_branches : G unit :=
  gbind (branches_list branch_regex_source branch_regex) (λ branches,
  gbind (mergerequests_list "opened") (λ open_mrs,
  let branch_names : gset string := list_to_set branches in
  let open_mr_branches : gset string :=
    list_to_set
      (map source_branch
         (List.filter (λ mr, py_match branch_regex (source_branch mr))
            open_mrs)) in
  let branches_without_open_mrs := branch_names ∖ open_mr_branches in
  gbind delete_merged_branches (λ _,
  delete_each (elements branches_without_open_mrs)))).

(** The [try] block of [create_merge_request]. *)
Definition merge_request_block (source_branch base_branch mr_title : string)
    (clear_br : bool) : G bool :=
  gbind (mergerequests_create source_branch base_branch mr_title) (λ url,
  gbind (glog INFO "Merge request created: %s" [AStr url]) (λ _,
  gbind (if clear_br then cleanup_branches else gret tt) (λ _,
  gret true))).

End Api.

End Remote.

(** Whether the server refuses one of the requests [todo], sent in this
    order after the requests [sent]. *)
Fixpoint any_refused (server : Remote.Server)
    (sent todo : list Remote.Request) : bool :=
  match todo with
  | [] => false
  | q :: rest =>
      bool_decide (is_Some (Remote.refuses server sent q))
      || any_refused server (sent ++ [q]) rest
  end.

(** What the program asks of the host besides processes: [shutil.which],
    [os.environ.get], the configuration file, whether python-gitlab could
    be imported, and the GitLab server reached with an address, a token and
    a project id. *)
Record Host := mkHost {
  which : string → option string;
  environ : string → option string;
  read_json : string → ConfigFile;
  GITLAB_IMPORTED : bool;
  gitlab : string → string → string → Remote.Server
}.

(** An exception the program has no handler for: [FileNotFoundError] out of
    [subprocess.run], when the program to start is not in PATH. *)
Inductive Uncaught := ProgramNotFound (program : string).

(** [a or b] on [str | None]. *)
Definition py_or (a b : option string) : option string :=
  if PyStr.truthy_opt a then a else b.

Section Frontend.

Variable env : Env.
Variable host : Host.

Definition is_cmd_present (cmd : string) : bool :=
  bool_decide (which host cmd ≠ None).

Definition is_git_dir (path : option string) : M bool :=
  try_except
    (let* _ := run_git env ["rev-parse"] path false
                 (Some "Not a git repository") false in
     ret true)
    (fun _ => ret false).

Definition get_toplevel (path : option string) : M (option string) :=
  try_except
    (let* result := run_git env ["rev-parse"; "--show-toplevel"] path true
                      (Some "Failed to determine git toplevel") false in
     let toplevel := PyStr.strip (default "" (stdout result)) in
     let* _ := log INFO "Found git toplevel: %s" [AStr toplevel] in
     ret (Some toplevel))
    (fun _ => ret None).

(** The loop of [validate_environment] over the validations. *)
Fixpoint first_invalid (validations : list (bool * string)) : M bool :=
  match validations with
  | [] => ret true
  | (valid, msg) :: rest =>
      if negb valid then
        let* _ := log ERROR msg [] in
        ret false
      else first_invalid rest
  end.

(** The list of validations is built first, each entry evaluated in order,
    and read afterwards.  On a host without git the fourth entry cannot be
    evaluated: [is_git_dir] calls [run_git], which announces its command,
    and [subprocess.run] raises [FileNotFoundError] before any process
    exists; neither [run_command] nor [is_git_dir] catches it, and it leaves
    [validate_environment]. *)
Definition validate_environment : M (Uncaught + bool) :=
  let git_present := is_cmd_present "git" in
  let bst_present := is_cmd_present "bst" in
  let bst_to_lorry_present := is_cmd_present "bst-to-lorry" in
  if negb git_present then
    let* _ := log INFO "Running command: %s"
                [AStr (PyStr.join " "
                         (git_command (getcwd env) ["rev-parse"]))] in
    ret (inl (ProgramNotFound "git"))
  else
  let* git_dir := is_git_dir None in
  let* dirty := is_dirty env None None in
  let* valid :=
    first_invalid
      [(git_present, "Unable to find git in PATH");
       (bst_present, "Unable to find bst-to-lorry in PATH");
       (bst_to_lorry_present, "Unable to find auto_updater in PATH");
       (git_dir, "Current directory is not a git repository");
       (negb dirty, "Current repository checkout is dirty")] in
  ret (inr valid).

(** [load_mirror_config]: the two exceptions it logs and raises again are
    returned to the caller, which handles both. *)
Definition load_mirror_config (file : string)
    : M (LoadError + MirrorConfig) :=
  match read_json host file with
  | Parsed config =>
      let* _ := log INFO "Loaded mirror configuration from %s"
                  [AStr file] in
      ret (inr config)
  | NoSuchFile =>
      let* _ := log ERROR "Mirror configuration file not found: %s"
                  [AStr file] in
      ret (inl FileNotFoundError)
  | InvalidJson reason =>
      let* _ := log ERROR "Invalid JSON in mirror configuration file: %s"
                  [AStr reason] in
      ret (inl (JSONDecodeError reason))
  end.

(** The token, the project id and the server address as
    [create_merge_request] reads them. *)
Definition gitlab_token : option string :=
  py_or (environ host "GITLAB_API_KEY") (environ host "FREEDESKTOP_API_TOKEN").

(** The session [create_merge_request] holds with the server once the
    token, the project id and the address are there. *)
Definition merge_request_session (source_branch base_branch mr_title : string)
    (clear_br : bool) : Remote.Answer bool * Remote.Session :=
  let server :=
    gitlab host (default "" (environ host "CI_SERVER_URL"))
      (default "" gitlab_token) (default "" (environ host "CI_PROJECT_ID")) in
  Remote.merge_request_block server source_branch base_branch mr_title
    clear_br (Remote.mkSession (Remote.project server) [] []).

Definition default_mr_title : string := "(Automated) Update mirrors".

Definition create_merge_request (source_branch base_branch mr_title : string)
    (clear_br : bool) : M bool :=
  let token := gitlab_token in
  if negb (PyStr.truthy_opt token) then
    let* _ := log ERROR "GITLAB_API_KEY is not defined" [] in
    ret false
  else
  let project_id := environ host "CI_PROJECT_ID" in
  let gitlab_url := environ host "CI_SERVER_URL" in
  if negb (PyStr.truthy_opt project_id && PyStr.truthy_opt gitlab_url) then
    let* _ := log ERROR
                ("CI_PROJECT_ID or CI_SERVER_URL is not defined. "
                 +:+ "Likely running outside of GitLab pipeline") [] in
    ret false
  else
  fun st =>
    let '(answer, session) :=
      merge_request_session source_branch base_branch mr_title clear_br in
    let st' := mkState (trace st) (logs st ++ Remote.records session) in
    match answer with
    | Remote.Answered created => (Ok created, st')
    | Remote.GitlabError reason =>
        (let* _ := log ERROR "Failed to create merge request: %s"
                     [AStr reason] in
         ret false) st'
    end.

Definition push_branch_to_remote (branch remote : string) : M bool :=
  let* checked_out := checkout_branch env branch None in
  if negb checked_out then ret false else
  try_except
    (let* _ := run_git env ["push"; "--set-upstream"; "-f"; remote; branch]
                 None false
                 (Some ("Failed to push branch " +:+ branch +:+ " to "
                        +:+ remote)) false in
     let* _ := log INFO "Pushed %s to %s" [AStr branch; AStr remote] in
     ret true)
    (fun _ => ret false).

(** [main] from the parsed arguments on; the value is the exit status, or
    the exception that left [validate_environment], which [main] does not
    catch either. *)
Definition main (args : Cli.Args) : M (Uncaught + Z) :=
  if Cli.create_mr args && negb (Cli.push args) then
    let* _ := log ERROR "--create-mr requires --push" [] in
    ret (inr 1%Z)
  else
  if Cli.create_mr args && negb (GITLAB_IMPORTED host) then
    let* _ := log ERROR "--create-mr used but python-gitlab not imported"
                [] in
    ret (inr 1%Z)
  else
  let* validated := validate_environment in
  match validated with
  | inl e => ret (inl e)
  | inr valid =>
  if negb valid then ret (inr 1%Z) else
  let* loaded := load_mirror_config (Cli.mirror_config args) in
  match loaded with
  | inl _ => ret (inr 1%Z)
  | inr mirror_config =>
      let* git_toplevel := get_toplevel None in
      if negb (PyStr.truthy_opt git_toplevel) then
        let* _ := log ERROR
                    "Failed to determine the top-level git directory" [] in
        ret (inr 1%Z)
      else
      let default_git_dir :=
        Pathlib.div (default "" git_toplevel) "gits" in
      let default_raw_files_dir :=
        Pathlib.div (default "" git_toplevel) "files" in
      let args :=
        Cli.mkArgs (Cli.mirror_config args) (Cli.base_branch args)
          default_git_dir default_raw_files_dir (Cli.exclude_alias args)
          (Cli.push args) (Cli.create_mr args) (Cli.lorry2 args) in
      let* result :=
        process_mirroring env mirror_config (Cli.git_directory args)
          (Cli.raw_files_directory args) (Cli.exclude_alias args)
          (Cli.base_branch args) (Cli.lorry2 args) in
      let status := fst result in
      let branch := snd result in
      if negb status && negb (bool_decide (is_Some branch))
      then ret (inr 1%Z)
      else
      if status && PyStr.truthy_opt branch && Cli.push args then
        let* push_ret :=
          push_branch_to_remote (default "" branch) "origin" in
        if negb push_ret then ret (inr 1%Z) else
        if GITLAB_IMPORTED host && Cli.create_mr args && push_ret then
          let* created :=
            create_merge_request (default "" branch) (Cli.base_branch args)
              default_mr_title true in
          if negb created then ret (inr 1%Z) else ret (inr 0%Z)
        else ret (inr 0%Z)
      else ret (inr 0%Z)
  end
  end.

End Frontend.

(** A scripted host: the tools found in PATH, the environment variables,
    the content of the configuration file, whether python-gitlab is there,
    and one server whatever the address, which refuses the requests at the
    positions listed. *)
Module ScriptHost.

Definition lookup (table : list (string * string)) (k : string)
    : option string :=
  match List.find (λ p, String.eqb (fst p) k) table with
  | Some p => Some (snd p)
  | None => None
  end.

Definition server (refused : list nat) : Remote.Server :=
  Remote.mkServer
    (Gitlab.mkProject
       ["main"; "update-mirrors/main/20230101000000";
        "update-mirrors/main/20240102030405"] [] [])
    (λ sent _,
       if bool_decide (length sent ∈ refused) then Some "403 Forbidden"
       else None)
    (λ _, "https://gitlab.example/group/mirrors/-/merge_requests/1").

Definition host (tools : list string) (vars : list (string * string))
    (file : ConfigFile) (imported : bool) (refused : list nat) : Host :=
  mkHost
    (λ cmd, if bool_decide (cmd ∈ tools) then Some ("/usr/bin/" +:+ cmd)
            else None)
    (lookup vars) (λ _, file) imported (λ _ _ _, server refused).

Definition tools : list string := ["git"; "bst"; "bst-to-lorry"].

(** A checkout that is clean when [main] starts and in which the run
    changes files under the directories it watches: every command exits 0,
    [git rev-parse --show-toplevel] prints the working directory, and
    [git status] prints [porcelain] only when asked about a
    subdirectory. *)
Definition world (porcelain : string) : Env :=
  mkEnv
    (fun _ command _ =>
       mkProc 0
         (if bool_decide (kind_of command = KStatus)
          then (if bool_decide ("--" ∈ command) then porcelain else "")
          else if bool_decide ("--show-toplevel" ∈ command)
               then "/work/mirroring-config" +:+ nl
               else "")
         "")
    (fun _ => Script.clock)
    (fun h => "/tmp/tmp" +:+ PyStr.zpad4 (length h))
    "/work/mirroring-config".

Definition ci_vars : list (string * string) :=
  [("GITLAB_API_KEY", "secret"); ("CI_PROJECT_ID", "42");
   ("CI_SERVER_URL", "https://gitlab.example")].

End ScriptHost.

(** * Verification *)

(** ** A small program logic over the history *)

Lemma ext_nil st : ext st [] [] = st.
Proof. destruct st. unfold ext. simpl. by rewrite !app_nil_r. Qed.

Lemma ext_ext st d1 l1 d2 l2 :
  ext (ext st d1 l1) d2 l2 = ext st (d1 ++ d2) (l1 ++ l2).
Proof. unfold ext. simpl. by rewrite !app_assoc. Qed.

Lemma emit_ext st e : emit e st = ext st [e] [].
Proof. unfold emit, ext. by rewrite app_nil_r. Qed.

Lemma spec_ret {A} P (Q : Result A → list Event → Prop) a :
  Q (Ok a) [] → spec P Q (ret a).
Proof. intros HQ st. exists (Ok a), [], []. by rewrite ext_nil. Qed.

Lemma spec_bind {A B} P (Q1 : Result A → list Event → Prop)
    (Q : Result B → list Event → Prop) m k :
  spec P Q1 m →
  (∀ a d1, Q1 (Ok a) d1 → spec P (λ r d2, Q r (d1 ++ d2)) (k a)) →
  (∀ e d1, Q1 (Raised e) d1 → Q (Raised e) d1) →
  spec P Q (bind m k).
Proof.
  intros Hm Hk He st. destruct (Hm st) as (r & d & l & E & Hd & HQ).
  unfold bind. rewrite E. destruct r as [a|e].
  - destruct (Hk a d HQ (ext st d l)) as (r' & d' & l' & E' & Hd' & HQ').
    exists r', (d ++ d'), (l ++ l'). rewrite E', ext_ext.
    split_and!; [done| by apply Forall_app |done].
  - exists (Raised e), d, l. auto.
Qed.

Lemma spec_try {A} P (Q1 Q : Result A → list Event → Prop) m h :
  spec P Q1 m →
  (∀ a d, Q1 (Ok a) d → Q (Ok a) d) →
  (∀ e d1, Q1 (Raised e) d1 → spec P (λ r d2, Q r (d1 ++ d2)) (h e)) →
  spec P Q (try_except m h).
Proof.
  intros Hm Hok Hh st. destruct (Hm st) as (r & d & l & E & Hd & HQ).
  unfold try_except. rewrite E. destruct r as [a|e].
  - exists (Ok a), d, l. auto.
  - destruct (Hh e d HQ (ext st d l)) as (r' & d' & l' & E' & Hd' & HQ').
    exists r', (d ++ d'), (l ++ l'). rewrite E', ext_ext.
    split_and!; [done| by apply Forall_app |done].
Qed.

Lemma spec_weaken {A} P (Q Q' : Result A → list Event → Prop) m :
  spec P Q m → (∀ r d, Q r d → Q' r d) → spec P Q' m.
Proof.
  intros Hm HQ st. destruct (Hm st) as (r & d & l & E & Hd & Hr).
  exists r, d, l. auto.
Qed.

(** Logging adds no event. *)
Lemma spec_after_log {A} P (Q : Result A → list Event → Prop) lv m a k :
  spec P Q k → spec P Q (let* _ := log lv m a in k).
Proof.
  intros Hk st. unfold bind, log.
  destruct (Hk (mkState (trace st) (logs st ++ [mkLog lv m a])))
    as (r & d & l & E & Hd & HQ).
  exists r, d, ([mkLog lv m a] ++ l). rewrite E.
  split_and!; [|done..]. unfold ext. cbn [trace logs].
  by rewrite <- app_assoc.
Qed.

Lemma verdict_true d : verdict (Ok true) d.
Proof. by exists true. Qed.

(** More events only make the premise of a verdict stronger. *)
Lemma verdict_frame r d1 d2 : verdict r d2 → verdict r (d1 ++ d2).
Proof.
  intros (b & -> & Hb). exists b. split; [done|].
  rewrite Forall_app. intros [_ H]. auto.
Qed.

Lemma verdict_false d1 d2 :
  (Forall passed d1 → false = true) → verdict (Ok false) (d1 ++ d2).
Proof.
  intros H. exists false. split; [done|].
  rewrite Forall_app. intros [H1 _]. auto.
Qed.

Lemma spec_for_each {A} P (xs : list A) f :
  (∀ x, x ∈ xs → spec P verdict (f x)) →
  spec P verdict (for_each xs f).
Proof.
  induction xs as [|x xs IH]; intros Hf; simpl.
  - apply spec_ret, verdict_true.
  - eapply spec_bind; [apply Hf; left| |].
    + intros b d1 (b' & [= <-] & Hb). destruct b.
      * eapply spec_weaken.
        -- apply IH. intros y Hy. apply Hf. by right.
        -- intros r d2. apply verdict_frame.
      * apply spec_ret. by apply verdict_false.
    + by intros e d1 (b & ? & _).
Qed.

(** [filter_not] never raises when its test does not, and finds nothing
    when every check it ran passed. *)
Lemma spec_filter_not {A} P (xs : list A) p :
  (∀ x, x ∈ xs → spec P verdict (p x)) →
  spec P (λ r d, ∃ l, r = Ok l ∧ (Forall passed d → l = []))
    (filter_not xs p).
Proof.
  induction xs as [|x xs IH]; intros Hp; simpl.
  - apply spec_ret. by exists [].
  - eapply spec_bind; [apply Hp; left| |].
    + intros b d1 (b' & [= <-] & Hb).
      eapply spec_bind; [apply IH; intros y Hy; apply Hp; by right| |].
      * intros keep d2 (l & [= <-] & Hl). apply spec_ret.
        eexists; split; [done|]. rewrite app_nil_r, Forall_app.
        intros [H1 H2]. by rewrite Hb, Hl.
      * by intros e d2 (l & ? & _).
    + by intros e d1 (b & ? & _).
Qed.

(** ** Classes of commands *)

Lemma kind_checkout p b : kind_of (git_command p ["checkout"; b]) = KCheckout.
Proof. reflexivity. Qed.

Lemma kind_create_branch p n b :
  kind_of (git_command p ["checkout"; "-b"; n; b]) = KCreateBranch.
Proof. reflexivity. Qed.

Lemma kind_clone p url dest :
  kind_of (git_command p ["clone"; url; dest]) = KClone.
Proof. reflexivity. Qed.

Lemma kind_add p paths : kind_of (git_command p ("add" :: paths)) = KAdd.
Proof. reflexivity. Qed.

Lemma kind_commit p m : kind_of (git_command p ["commit"; "-m"; m]) = KCommit.
Proof. reflexivity. Qed.

Lemma kind_status p subdir :
  kind_of (git_command p (status_args subdir)) = KStatus.
Proof. reflexivity. Qed.

Lemma kind_show element : kind_of (bst_show_command element) = KShow.
Proof. reflexivity. Qed.

Lemma kind_generate elements git_dir raw_files_dir exclude_aliases lorry2 :
  kind_of (bst_to_lorry_command elements git_dir raw_files_dir
             exclude_aliases lorry2) = KGenerate.
Proof. reflexivity. Qed.

Lemma repo_level_not_mutating e : of_kinds repo_level e → ¬ mutating e.
Proof.
  destruct e as [c cwd r| |]; unfold mutating; simpl;
    [|intros _ [H|[H|H]]; discriminate..].
  unfold repo_level. rewrite !elem_of_cons, elem_of_nil.
  intros Hk [H|[H|H]]; inversion H as [H']; rewrite H' in Hk;
    intuition discriminate.
Qed.

(** ** The shell executor and the adapters, one command each *)

Section Adapters.

Variable env : Env.
Variable ks : list CmdKind.

Local Abbreviation P := (of_kinds ks).

(** A command that may raise: it returns when it exits 0. *)
Local Abbreviation returns :=
  (λ (A : Type) (r : Result A) (d : list Event),
     Forall passed d → ∃ a, r = Ok a).

Lemma spec_run_command command capture cwd message warn :
  kind_of command ∈ ks →
  spec P (returns _)
    (run_command env command true capture cwd message warn).
Proof.
  intros Hk st.
  set (r := spawn env (trace st) command cwd).
  unfold run_command, try_except, subprocess_run. fold r. simpl.
  destruct (exit_code r =? 0)%Z eqn:E; simpl.
  - eexists _, [Spawn command cwd r], []. rewrite emit_ext.
    split_and!; [done|by constructor|eauto].
  - set (e := mkCalled command (exit_code r) _ _).
    assert (∃ rec, ∀ st',
      bind
        (if PyStr.truthy_opt message && warn then
           log WARNING "%s: %s"
             [AStr (default "" message); AStr (stderr_text e)]
         else if PyStr.truthy_opt message && negb warn then
           log ERROR "%s: %s"
             [AStr (default "" message); AStr (stderr_text e)]
         else
           log ERROR ("Command failed: %s" +:+ nl +:+ "Error: %s")
             [AStr (PyStr.join " " command); AStr (stderr_text e)])
        (λ _, raise (A:=CompletedProcess) e) st'
      = (Raised e, ext st' [] [rec])) as [rec Hrec].
    { destruct (PyStr.truthy_opt message && warn);
        [|destruct (PyStr.truthy_opt message && negb warn)];
        eexists; intros st'; unfold bind, log, raise, ext; simpl;
        by rewrite app_nil_r. }
    rewrite Hrec, emit_ext, ext_ext.
    eexists _, _, _. split_and!; [done|by constructor|].
    cbn [app]. intros Hpass. apply Forall_cons_1 in Hpass as [Hpass _].
    simpl in Hpass. rewrite Hpass in E. done.
Qed.

Lemma spec_run_git args repo_path capture message warn :
  kind_of (git_command (default (getcwd env) repo_path) args) ∈ ks →
  spec P (returns _) (run_git env args repo_path capture message warn).
Proof.
  intros Hk. unfold run_git.
  replace (match repo_path with Some p => p | None => getcwd env end)
    with (default (getcwd env) repo_path) by by destruct repo_path.
  apply spec_after_log. by apply spec_run_command.
Qed.

(** The common shape of the adapters: a command that may raise, then
    something that neither raises nor spawns, turned into a boolean. *)
Lemma spec_guarded {A} (m : M A) (after : M bool) :
  spec P (returns _) m →
  spec P (λ r d, r = Ok true ∧ d = []) after →
  spec P verdict
    (try_except (let* _ := m in after) (λ _, ret false)).
Proof.
  intros Hm Hafter.
  eapply spec_try with
    (Q1 := λ r d, match r with
                  | Ok b => b = true
                  | Raised _ => ¬ Forall passed d
                  end).
  - eapply spec_bind; [apply Hm| |].
    + intros a d1 _. eapply spec_weaken; [apply Hafter|].
      by intros r d2 [-> ->].
    + intros e d1 He Hpass. by destruct (He Hpass).
  - intros b d ->. apply verdict_true.
  - intros e d1 He. apply spec_ret. by apply verdict_false.
Qed.

Lemma spec_just_true : spec P (λ r d, r = Ok true ∧ d = []) (ret true).
Proof. by apply spec_ret. Qed.

Lemma spec_log_true lv m a :
  spec P (λ r d, r = Ok true ∧ d = []) (let* _ := log lv m a in ret true).
Proof. apply spec_after_log, spec_just_true. Qed.

Lemma spec_element_exists element path :
  KShow ∈ ks → spec P verdict (element_exists env element path).
Proof.
  intros Hk. unfold element_exists.
  apply spec_guarded; [|apply spec_just_true].
  by apply spec_run_command; rewrite kind_show.
Qed.

Lemma spec_git_add repo_path paths :
  KAdd ∈ ks → spec P verdict (git_add env repo_path paths).
Proof.
  intros Hk. unfold git_add.
  apply spec_guarded; [|apply spec_just_true].
  by apply spec_run_git; rewrite kind_add.
Qed.

Lemma spec_git_commit repo_path message :
  KCommit ∈ ks → spec P verdict (git_commit env repo_path message).
Proof.
  intros Hk. unfold git_commit.
  apply spec_guarded; [|apply spec_just_true].
  by apply spec_run_git; rewrite kind_commit.
Qed.

Lemma spec_checkout_branch branch repo_path :
  KCheckout ∈ ks → spec P verdict (checkout_branch env branch repo_path).
Proof.
  intros Hk. unfold checkout_branch.
  apply spec_guarded; [|apply spec_log_true].
  by apply spec_run_git; rewrite kind_checkout.
Qed.

Lemma spec_run_bst_to_lorry elements git_dir raw_files_dir exclude_aliases
    cwd lorry2 :
  KGenerate ∈ ks →
  spec P verdict
    (run_bst_to_lorry env elements git_dir raw_files_dir exclude_aliases
       cwd lorry2).
Proof.
  intros Hk. unfold run_bst_to_lorry. apply spec_after_log.
  apply spec_guarded; [|apply spec_just_true].
  by apply spec_run_command; rewrite kind_generate.
Qed.

(** *** The orchestrator never raises, never mutates, and succeeds when
    the commands it runs do *)

Hypothesis repo_kinds : repo_level ⊆ ks.

Lemma spec_process_branch repo_url branch elements clone_dest git_dir
    raw_files_dir exclude_aliases lorry2 :
  spec P verdict
    (process_branch env repo_url branch elements clone_dest git_dir
       raw_files_dir exclude_aliases lorry2).
Proof.
  assert (KCheckout ∈ ks ∧ KShow ∈ ks ∧ KGenerate ∈ ks) as (H1 & H2 & H3).
  { split_and!; apply repo_kinds; unfold repo_level;
      rewrite !elem_of_cons; tauto. }
  unfold process_branch. apply spec_after_log.
  eapply spec_bind; [by apply spec_checkout_branch| |].
  2: { by intros e d1 (b & ? & _). }
  intros b d1 (b' & [= <-] & Hb). destruct b; cbn [negb].
  2: { apply spec_ret. by apply verdict_false. }
  eapply spec_weaken; [|intros r d; apply verdict_frame].
  eapply spec_bind.
  { apply (spec_filter_not P). intros x _. by apply spec_element_exists. }
  2: { by intros e d2 (l & ? & _). }
  intros missing d2 (l & [= <-] & Hl). destruct missing as [|m ms].
  - eapply spec_weaken; [|intros r d; apply verdict_frame].
    apply spec_after_log.
    eapply spec_bind; [by apply spec_run_bst_to_lorry| |].
    2: { by intros e d3 (g & ? & _). }
    intros g d3 (g' & [= <-] & Hg'). destruct g; cbn [negb].
    + apply spec_ret, verdict_true.
    + apply spec_after_log, spec_ret. by apply verdict_false.
  - apply spec_after_log, spec_ret. apply verdict_false.
    intros Hpass. by specialize (Hl Hpass).
Qed.

Lemma spec_clone_repo {A} (Q : Result A → list Event → Prop) url body :
  (∀ status dest d1,
     (Forall passed d1 → status = true ∧ ∃ d, dest = Some d) →
     spec P (λ r d2, ∀ tmpdir,
               Q r (TempDirCreated tmpdir :: (d1 ++ d2)
                    ++ [TempDirRemoved tmpdir]))
       (body status dest)) →
  spec P Q (clone_repo env url body).
Proof.
  intros Hbody st.
  assert (KClone ∈ ks) as Hk.
  { apply repo_kinds; unfold repo_level; rewrite !elem_of_cons; tauto. }
  set (tmpdir := mkdtemp env (trace st)).
  set (dest_path := path_join tmpdir (repo_name url)).
  assert (spec P
    (λ r d, ∀ tmpdir, Q r (TempDirCreated tmpdir :: d
                           ++ [TempDirRemoved tmpdir]))
    (let* r :=
       try_except
         (let* _ := run_git env ["clone"; url; dest_path] None false
                      (Some ("Failed to clone repository: " +:+ url))
                      false in
          let* _ := log INFO "Cloned %s to %s"
                      [AStr url; AStr dest_path] in
          ret (true, Some dest_path))
         (λ _, ret (false, None)) in
     body (fst r) (snd r))) as Hinner.
  { eapply spec_bind with
      (Q1 := λ r d, ∃ status dest, r = Ok (status, dest)
               ∧ (Forall passed d → status = true ∧ ∃ d', dest = Some d')).
    - eapply spec_try with
        (Q1 := λ r d, match r with
                      | Ok sd => sd = (true, Some dest_path)
                      | Raised _ => ¬ Forall passed d
                      end).
      + eapply spec_bind;
          [by apply spec_run_git; rewrite kind_clone| |].
        * intros a d1 _. apply spec_after_log. by apply spec_ret.
        * intros e d1 He Hpass. by destruct (He Hpass).
      + intros sd d ->. exists true, (Some dest_path). eauto.
      + intros e d1 He. apply spec_ret. exists false, None.
        split; [done|]. rewrite app_nil_r. intros Hpass. by destruct He.
    - intros [status dest] d1 (s' & d' & [= <- <-] & Hsd). cbn [fst snd].
      by apply Hbody.
    - by intros e d1 (s' & d' & ? & _). }
  destruct (Hinner (emit (TempDirCreated tmpdir) st))
    as (r & d & l & E & Hd & HQ).
  unfold clone_repo, finally. fold tmpdir. fold dest_path. rewrite E.
  exists r, (TempDirCreated tmpdir :: d ++ [TempDirRemoved tmpdir]), l.
  split_and!; [|repeat first [apply Forall_cons_2 | apply Forall_app_2 ];
                 by simpl|by apply HQ].
  rewrite !emit_ext, !ext_ext. by rewrite app_nil_r.
Qed.

Lemma spec_process_repo_body repo_url repo_config git_dir raw_files_dir
    exclude_aliases base_branch lorry2 status dest :
  spec P
    (λ r d, ∃ b, r = Ok b
       ∧ ((status = true ∧ ∃ d', dest = Some d') → Forall passed d →
          b = true))
    (process_repo_body env repo_url repo_config git_dir raw_files_dir
       exclude_aliases base_branch lorry2 status dest).
Proof.
  unfold process_repo_body.
  assert (KCheckout ∈ ks) as Hk.
  { apply repo_kinds; unfold repo_level; rewrite !elem_of_cons; tauto. }
  destruct status, dest as [clone_dest|];
    try (apply spec_ret; exists false; split; [done|];
         intros (? & ? & ?) _; done).
  eapply spec_weaken with (Q := verdict).
  2: { intros r d (b & -> & Hb). exists b. auto. }
  eapply spec_bind; [by apply spec_checkout_branch| |].
  2: { by intros e d1 (b & ? & _). }
  intros b d1 (b' & [= <-] & Hb). destruct b; cbn [negb].
  2: { apply spec_ret. by apply verdict_false. }
  eapply spec_weaken; [|intros r d; apply verdict_frame].
  apply spec_for_each. intros item _. apply spec_process_branch.
Qed.

Lemma spec_process_repo repo_url repo_config git_dir raw_files_dir
    exclude_aliases base_branch lorry2 :
  spec P verdict
    (process_repo env repo_url repo_config git_dir raw_files_dir
       exclude_aliases base_branch lorry2).
Proof.
  unfold process_repo. apply spec_clone_repo. intros status dest d1 Hsd.
  eapply spec_weaken; [apply spec_process_repo_body|].
  intros r d2 (b & -> & Hb) tmpdir. exists b. split; [done|].
  rewrite Forall_cons, !Forall_app. intros (_ & [H1 H2] & _). auto.
Qed.

Lemma spec_process_repos mirror_config git_dir raw_files_dir
    exclude_aliases base_branch lorry2 :
  spec P verdict
    (process_repos env mirror_config git_dir raw_files_dir
       exclude_aliases base_branch lorry2).
Proof.
  unfold process_repos. apply spec_for_each. intros item _.
  apply spec_process_repo.
Qed.

End Adapters.

(** The repository loop, for every environment: it returns a boolean, adds
    only clone, checkout, element-check and generator commands (and the
    temporary directories) to the history, and returns [True] when every
    command it ran exited 0. *)
Lemma process_repos_total env mirror_config git_dir raw_files_dir
    exclude_aliases base_branch lorry2 st :
  ∃ ok d l,
    process_repos env mirror_config git_dir raw_files_dir exclude_aliases
      base_branch lorry2 st = (Ok ok, ext st d l)
    ∧ Forall (of_kinds repo_level) d
    ∧ (Forall passed d → ok = true).
Proof.
  destruct (spec_process_repos env repo_level (reflexivity _) mirror_config
              git_dir raw_files_dir exclude_aliases base_branch lorry2 st)
    as (r & d & l & E & Hd & (ok & -> & Hok)).
  by exists ok, d, l.
Qed.

Lemma process_repo_total env repo_url repo_config git_dir raw_files_dir
    exclude_aliases base_branch lorry2 st :
  ∃ ok d l,
    process_repo env repo_url repo_config git_dir raw_files_dir
      exclude_aliases base_branch lorry2 st = (Ok ok, ext st d l)
    ∧ Forall (of_kinds repo_level) d
    ∧ (Forall passed d → ok = true).
Proof.
  destruct (spec_process_repo env repo_level (reflexivity _) repo_url
              repo_config git_dir raw_files_dir exclude_aliases base_branch
              lorry2 st)
    as (r & d & l & E & Hd & (ok & -> & Hok)).
  by exists ok, d, l.
Qed.

(** The block under [with clone_repo(...)] never raises, so the [except]
    clause of the context manager only ever handles the clone. *)
Lemma process_repo_body_no_raise env repo_url repo_config git_dir
    raw_files_dir exclude_aliases base_branch lorry2 status dest st :
  ∃ ok st',
    process_repo_body env repo_url repo_config git_dir raw_files_dir
      exclude_aliases base_branch lorry2 status dest st = (Ok ok, st').
Proof.
  destruct (spec_process_repo_body env repo_level (reflexivity _) repo_url
              repo_config git_dir raw_files_dir exclude_aliases base_branch
              lorry2 status dest st)
    as (r & d & l & E & Hd & (ok & -> & Hok)).
  eauto.
Qed.

(** ** Exactly what each adapter does *)

Lemma succeeded_run_event (env : Env) (h : list Event)
    (command : list string) (cwd : option string) :
  succeeded (run_event env h command cwd) = exit_ok env h command cwd.
Proof. reflexivity. Qed.

Section Equations.

Variable env : Env.

Lemma run_command_eq command (capture : bool) cwd message warn st :
  let r := spawn env (trace st) command cwd in
  let o := if capture then Some (out r) else None in
  let e := if capture then Some (err r) else None in
  ∃ l,
    run_command env command true capture cwd message warn st
    = (if exit_ok env (trace st) command cwd
       then Ok (mkCompleted command (exit_code r) o e)
       else Raised (mkCalled command (exit_code r) o e),
       ext st [run_event env (trace st) command cwd] l)
    ∧ (exit_ok env (trace st) command cwd = true → l = []).
Proof.
  intros r o e.
  unfold run_command, try_except, subprocess_run, exit_ok, run_event.
  fold r. simpl. fold o. fold e.
  destruct (exit_code r =? 0)%Z eqn:E; simpl.
  - exists []. by rewrite emit_ext.
  - destruct (PyStr.truthy_opt message && warn);
      [|destruct (PyStr.truthy_opt message && negb warn)];
      eexists; (split; [unfold bind, log, raise, ext, emit; simpl;
                        reflexivity|done]).
Qed.

Lemma run_git_eq args repo_path (capture : bool) message warn st :
  let command := git_command (default (getcwd env) repo_path) args in
  let r := spawn env (trace st) command None in
  let o := if capture then Some (out r) else None in
  let e := if capture then Some (err r) else None in
  ∃ l,
    run_git env args repo_path capture message warn st
    = (if exit_ok env (trace st) command None
       then Ok (mkCompleted command (exit_code r) o e)
       else Raised (mkCalled command (exit_code r) o e),
       ext st [run_event env (trace st) command None] l).
Proof.
  intros command r o e. unfold run_git.
  replace (match repo_path with Some p => p | None => getcwd env end)
    with (default (getcwd env) repo_path) by by destruct repo_path.
  fold command. unfold bind at 1, log at 1.
  match goal with
  | |- context [run_command _ _ _ _ _ _ _ ?s] => set (st1 := s)
  end.
  destruct (run_command_eq command capture None message warn st1)
    as (l & E & _).
  change (trace st1) with (trace st) in E. rewrite E.
  eexists. f_equal. unfold ext. subst st1. cbn [trace logs].
  by rewrite <- app_assoc.
Qed.

(** An adapter of the shape [try: run_git(...); (log); return True
    except: return False]. *)
Lemma guarded_git_eq args repo_path message (after : M bool) st :
  (∀ st', ∃ l', after st' = (Ok true, ext st' [] l')) →
  let command := git_command (default (getcwd env) repo_path) args in
  ∃ l,
    try_except
      (let* _ := run_git env args repo_path false message false in after)
      (λ _, ret false) st
    = (Ok (exit_ok env (trace st) command None),
       ext st [run_event env (trace st) command None] l).
Proof.
  intros Hafter command.
  destruct (run_git_eq args repo_path false message false st) as (l & E).
  fold command in E. unfold try_except, bind. rewrite E.
  destruct (exit_ok env (trace st) command None).
  - destruct (Hafter (ext st [run_event env (trace st) command None] l))
      as (l' & ->).
    rewrite ext_ext, app_nil_r. eauto.
  - unfold ret. eauto.
Qed.

Lemma after_ret st' : ∃ l', ret true st' = (Ok true, ext st' [] l').
Proof. exists []. by rewrite ext_nil. Qed.

Lemma after_log lv m a st' :
  ∃ l', (let* _ := log lv m a in ret true) st' = (Ok true, ext st' [] l').
Proof.
  exists [mkLog lv m a]. unfold bind, log, ret, ext. simpl.
  by rewrite app_nil_r.
Qed.

Lemma checkout_branch_eq branch repo_path st :
  let command :=
    git_command (default (getcwd env) repo_path) ["checkout"; branch] in
  ∃ l,
    checkout_branch env branch repo_path st
    = (Ok (exit_ok env (trace st) command None),
       ext st [run_event env (trace st) command None] l).
Proof.
  apply guarded_git_eq. intros st'. apply after_log.
Qed.

Lemma git_add_eq repo_path paths st :
  let command :=
    git_command (default (getcwd env) repo_path) ("add" :: paths) in
  ∃ l,
    git_add env repo_path paths st
    = (Ok (exit_ok env (trace st) command None),
       ext st [run_event env (trace st) command None] l).
Proof.
  apply guarded_git_eq. intros st'. apply after_ret.
Qed.

Lemma git_commit_eq repo_path message st :
  let command :=
    git_command (default (getcwd env) repo_path)
      ["commit"; "-m"; message] in
  ∃ l,
    git_commit env repo_path message st
    = (Ok (exit_ok env (trace st) command None),
       ext st [run_event env (trace st) command None] l).
Proof.
  apply guarded_git_eq. intros st'. apply after_ret.
Qed.

Lemma create_branch_eq base_branch st :
  let name := new_branch_name env base_branch (trace st) in
  let command :=
    git_command (getcwd env) ["checkout"; "-b"; name; base_branch] in
  ∃ l,
    create_branch env base_branch st
    = (Ok (if exit_ok env (trace st) command None
           then Some name else None),
       ext st [run_event env (trace st) command None] l).
Proof.
  intros name command.
  destruct (run_git_eq ["checkout"; "-b"; name; base_branch] None false
              (Some ("Failed to create branch " +:+ name +:+ " from "
                     +:+ base_branch)) false st) as (l & E).
  change (default (getcwd env) None) with (getcwd env) in E.
  fold command in E.
  unfold create_branch, bind at 1, datetime_now_utc.
  fold (new_branch_name env base_branch (trace st)). fold name.
  unfold try_except, bind at 1. rewrite E.
  destruct (exit_ok env (trace st) command None).
  - eexists (l ++ [_]). unfold bind, log, ret, ext. cbn [trace logs].
    by rewrite app_assoc.
  - unfold ret. eauto.
Qed.

Lemma is_dirty_eq repo_path subdir st :
  let command :=
    git_command (default (getcwd env) repo_path) (status_args subdir) in
  ∃ l,
    is_dirty env repo_path subdir st
    = (Ok (dirty_report env (trace st) repo_path subdir),
       ext st [run_event env (trace st) command None] l).
Proof.
  intros command.
  destruct (run_git_eq (status_args subdir) repo_path true
              (Some "Failed to check git status") false st) as (l & E).
  fold command in E.
  unfold is_dirty, try_except, bind. rewrite E.
  unfold dirty_report. fold command.
  destruct (exit_ok env (trace st) command None); unfold ret; eauto.
Qed.

Lemma element_exists_eq element path st :
  let command := bst_show_command element in
  ∃ l,
    element_exists env element path st
    = (Ok (exit_ok env (trace st) command (Some path)),
       ext st [run_event env (trace st) command (Some path)] l)
    ∧ (exit_ok env (trace st) command (Some path) = false →
       ∃ rec, l = [rec] ∧ level rec = WARNING).
Proof.
  intros command.
  unfold element_exists, try_except, bind. fold command.
  unfold run_command, try_except, subprocess_run, exit_ok, run_event.
  simpl.
  destruct (exit_code (spawn env (trace st) command (Some path)) =? 0)%Z;
    simpl.
  - exists []. split; [|done]. unfold ret. by rewrite emit_ext.
  - eexists. split; [unfold ret, ext; reflexivity|].
    intros _. eexists. split; reflexivity.
Qed.

Lemma run_bst_to_lorry_eq elements git_dir raw_files_dir exclude_aliases
    cwd lorry2 st :
  let command :=
    bst_to_lorry_command elements git_dir raw_files_dir exclude_aliases
      lorry2 in
  ∃ l,
    run_bst_to_lorry env elements git_dir raw_files_dir exclude_aliases
      cwd lorry2 st
    = (Ok (exit_ok env (trace st) command (Some cwd)),
       ext st [run_event env (trace st) command (Some cwd)] l).
Proof.
  intros command. unfold run_bst_to_lorry. fold command.
  unfold bind at 1, log at 1.
  match goal with |- context [try_except _ _ ?s] => set (st1 := s) end.
  destruct (run_command_eq command false (Some cwd)
              (Some "bst-to-lorry failed") false st1) as (l & E & _).
  unfold try_except, bind. rewrite E. subst st1. simpl.
  destruct (exit_ok env (trace st) command (Some cwd));
    unfold ret, ext; simpl; eexists; f_equal; f_equal;
    by rewrite <- app_assoc.
Qed.

End Equations.

(** ** The commit gate and the dirtiness check, command by command *)

Section Gate.

Variable env : Env.

Lemma new_branch_name_truthy base_branch h :
  PyStr.truthy (new_branch_name env base_branch h) = true.
Proof. reflexivity. Qed.

Lemma commit_changes_eq git_dir raw_files_dir base_branch st :
  let h := trace st in
  let e1 := gate_create env base_branch h in
  let e2 := gate_add env git_dir raw_files_dir base_branch h in
  let e3 := gate_commit env git_dir raw_files_dir base_branch h in
  ∃ l,
    commit_changes env git_dir raw_files_dir base_branch st
    = if negb (succeeded e1) then (Ok (false, None), ext st [e1] l)
      else if negb (succeeded e2) then (Ok (false, None), ext st [e1; e2] l)
      else (Ok (if succeeded e3
                then (true, Some (new_branch_name env base_branch h))
                else (false, None)),
            ext st [e1; e2; e3] l).
Proof.
  intros h e1 e2 e3.
  destruct (create_branch_eq env base_branch st) as (l1 & E1).
  fold h in E1. fold (create_command env base_branch h) in E1.
  fold (gate_create env base_branch h) in E1. fold e1 in E1.
  unfold commit_changes, bind at 1. rewrite E1.
  change (succeeded e1)
    with (exit_ok env h (create_command env base_branch h) None).
  destruct (exit_ok env h (create_command env base_branch h) None);
    cbn [negb].
  2: { unfold ret. eauto. }
  rewrite new_branch_name_truthy. cbn [negb].
  set (st1 := ext st [e1] l1).
  destruct (git_add_eq env None [git_dir; raw_files_dir] st1) as (l2 & E2).
  change (trace st1) with (h ++ [e1]) in E2.
  change (default (getcwd env) None) with (getcwd env) in E2.
  fold (add_command env git_dir raw_files_dir) in E2.
  change (run_event env (h ++ [e1]) (add_command env git_dir raw_files_dir)
            None) with e2 in E2.
  unfold bind at 1. rewrite E2.
  change (succeeded e2)
    with (exit_ok env (h ++ [e1]) (add_command env git_dir raw_files_dir) None).
  destruct (exit_ok env (h ++ [e1]) (add_command env git_dir raw_files_dir)
              None); cbn [negb].
  2: { unfold bind, ret. subst st1. rewrite ext_ext. eauto. }
  set (st2 := ext st1 [e2] l2).
  destruct (git_commit_eq env None default_commit_message st2)
    as (l3 & E3).
  change (trace st2) with ((h ++ [e1]) ++ [e2]) in E3.
  rewrite <- app_assoc in E3. cbn [app] in E3.
  change (default (getcwd env) None) with (getcwd env) in E3.
  change (git_command (getcwd env) ["commit"; "-m"; default_commit_message])
    with (commit_command env) in E3.
  change (run_event env (h ++ [e1; e2]) (commit_command env) None) with e3 in E3.
  cbv beta iota. unfold bind at 1. rewrite E3.
  change (succeeded e3)
    with (exit_ok env (h ++ [e1; e2]) (commit_command env) None).
  subst st2 st1. rewrite !ext_ext. cbn [app].
  destruct (exit_ok env (h ++ [e1; e2]) (commit_command env) None);
    unfold ret; eauto.
Qed.

Lemma tracked_dirty_eq git_dir raw_files_dir st :
  let h := trace st in
  let s1 := run_event env h (status_command env raw_files_dir) None in
  let s2 := run_event env (h ++ [s1]) (status_command env git_dir) None in
  ∃ l,
    tracked_dirty env git_dir raw_files_dir st
    = if dirty_report env h None (Some raw_files_dir)
      then (Ok true, ext st [s1] l)
      else (Ok (dirty_report env (h ++ [s1]) None (Some git_dir)),
            ext st [s1; s2] l).
Proof.
  intros h s1 s2.
  destruct (is_dirty_eq env None (Some raw_files_dir) st) as (l1 & E1).
  unfold tracked_dirty, bind. rewrite E1. fold h.
  destruct (dirty_report env h None (Some raw_files_dir)).
  - unfold ret. eauto.
  - match goal with
    | |- context [is_dirty _ _ _ ?s] =>
        destruct (is_dirty_eq env None (Some git_dir) s) as (l2 & E2)
    end.
    rewrite E2, ext_ext. eauto.
Qed.

End Gate.

(** ** The repository view along the history *)

Lemma repo_view_app target h d :
  repo_view target (h ++ d) = fold_left (observe target) d (repo_view target h).
Proof. unfold repo_view. apply fold_left_app. Qed.

Lemma git_args_git_command p args :
  git_args (git_command p args) = Some (p, args).
Proof. reflexivity. Qed.

Lemma observe_git env target repo h args :
  observe target repo (run_event env h (git_command target args) None)
  = if exit_ok env h (git_command target args) None
    then git_effect args repo else repo.
Proof.
  unfold observe, run_event, exit_ok. rewrite git_args_git_command.
  rewrite String.eqb_refl. by rewrite andb_true_r.
Qed.

(** What is not a branch creation, a staging or a commit leaves the
    branches, the index and the commits alone (it may move HEAD). *)
Lemma observe_quiet target repo e :
  ¬ mutating e →
  let repo' := observe target repo e in
  new_branches repo' = new_branches repo
  ∧ index repo' = index repo
  ∧ commits repo' = commits repo.
Proof.
  intros Hq. destruct e as [command cwd r| |]; simpl; [|done..].
  unfold mutating, event_kind, kind_of in Hq.
  destruct (git_args command) as [[p args]|]; [|done].
  destruct ((exit_code r =? 0)%Z && String.eqb p target); [|done].
  unfold git_effect.
  destruct (git_kind args) eqn:K; try done;
    try (exfalso; apply Hq; tauto).
  by destruct args as [|? [|? [|? ?]]].
Qed.

Lemma fold_observe_quiet target d : ∀ repo,
  Forall (λ e, ¬ mutating e) d →
  let repo' := fold_left (observe target) d repo in
  new_branches repo' = new_branches repo
  ∧ index repo' = index repo
  ∧ commits repo' = commits repo.
Proof.
  induction d as [|e d IH]; intros repo Hd; [done|].
  inversion Hd as [|? ? He Hd']; subst. simpl.
  destruct (IH (observe target repo e) Hd') as (-> & -> & ->).
  by apply observe_quiet.
Qed.

Lemma status_not_mutating env h p subdir cwd :
  ¬ mutating (run_event env h (git_command p (status_args subdir)) cwd).
Proof.
  unfold mutating, run_event, event_kind. rewrite kind_status.
  intros [H|[H|H]]; discriminate.
Qed.

Lemma commit_changes_run env git_dir raw_files_dir base_branch st :
  ∃ l,
    commit_changes env git_dir raw_files_dir base_branch st
    = (Ok (if gate_passes env git_dir raw_files_dir base_branch (trace st)
           then (true, Some (new_branch_name env base_branch (trace st)))
           else (false, None)),
       ext st (gate_events env git_dir raw_files_dir base_branch (trace st))
         l).
Proof.
  destruct (commit_changes_eq env git_dir raw_files_dir base_branch st)
    as (l & E).
  exists l. rewrite E. unfold gate_passes, gate_events. cbv zeta.
  destruct (succeeded (gate_create env base_branch (trace st)));
    [|done].
  by destruct (succeeded
                 (gate_add env git_dir raw_files_dir base_branch (trace st))).
Qed.

(** The repository the tool runs in, after the gate. *)
Lemma gate_view env git_dir raw_files_dir base_branch h :
  let name := new_branch_name env base_branch h in
  let e1 := gate_create env base_branch h in
  let e2 := gate_add env git_dir raw_files_dir base_branch h in
  let e3 := gate_commit env git_dir raw_files_dir base_branch h in
  let before := repo_view (getcwd env) h in
  repo_view (getcwd env)
    (h ++ gate_events env git_dir raw_files_dir base_branch h)
  = if succeeded e1 then
      mkRepo (Some name)
        (new_branches before ++ [(name, base_branch)])
        (if succeeded e2
         then if succeeded e3 then []
              else index before ++ [git_dir; raw_files_dir]
         else index before)
        (if succeeded e2 && succeeded e3
         then commits before
              ++ [mkCommit (Some name)
                    (index before ++ [git_dir; raw_files_dir])
                    default_commit_message]
         else commits before)
    else before.
Proof.
  intros name e1 e2 e3 before.
  assert (observe (getcwd env) before e1
          = if succeeded e1
            then mkRepo (Some name)
                   (new_branches before ++ [(name, base_branch)])
                   (index before) (commits before)
            else before) as O1.
  { unfold e1, gate_create, create_command. rewrite observe_git.
    rewrite succeeded_run_event. reflexivity. }
  assert (∀ repo, observe (getcwd env) repo e2
          = if succeeded e2
            then mkRepo (head repo) (new_branches repo)
                   (index repo ++ [git_dir; raw_files_dir]) (commits repo)
            else repo) as O2.
  { intros repo. unfold e2, gate_add, add_command. rewrite observe_git.
    rewrite succeeded_run_event. reflexivity. }
  assert (∀ repo, observe (getcwd env) repo e3
          = if succeeded e3
            then mkRepo (head repo) (new_branches repo) []
                   (commits repo
                    ++ [mkCommit (head repo) (index repo)
                          default_commit_message])
            else repo) as O3.
  { intros repo. unfold e3, gate_commit, commit_command.
    rewrite observe_git. rewrite succeeded_run_event. reflexivity. }
  rewrite repo_view_app. fold before. unfold gate_events. cbv zeta.
  fold e1 e2 e3.
  destruct (succeeded e1) eqn:S1; cbn [fold_left andb]; [|by rewrite O1].
  destruct (succeeded e2) eqn:S2; cbn [fold_left andb];
    [|by rewrite O1, O2].
  rewrite O1, O2, O3. by destruct (succeeded e3).
Qed.

(** ** C4: the commit gate *)

(** C4, as amended.  [commit_changes] runs, in this order, the creation of
    the branch from the base branch, the staging of exactly the two tracked
    directories and the commit, and stops at the first that fails.  It
    returns success with the new branch name exactly when all three succeed,
    and the new branch then carries one commit of what was staged.  In every
    other case it returns [(False, None)] and makes no commit, but undoes
    nothing: a branch that was created stays, and stays checked out, and what
    was staged stays staged. *)
Theorem commit_changes_stops_without_rollback env git_dir raw_files_dir
    base_branch st :
  let h := trace st in
  let name := new_branch_name env base_branch h in
  let e1 := gate_create env base_branch h in
  let e2 := gate_add env git_dir raw_files_dir base_branch h in
  let e3 := gate_commit env git_dir raw_files_dir base_branch h in
  let before := repo_view (getcwd env) h in
  ∃ st',
    commit_changes env git_dir raw_files_dir base_branch st
    = (Ok (if succeeded e1 && succeeded e2 && succeeded e3
           then (true, Some name) else (false, None)), st')
    ∧ trace st'
      = h ++ (if succeeded e1
              then if succeeded e2 then [e1; e2; e3] else [e1; e2]
              else [e1])
    ∧ repo_view (getcwd env) (trace st')
      = if succeeded e1 then
          mkRepo (Some name)
            (new_branches before ++ [(name, base_branch)])
            (if succeeded e2
             then if succeeded e3 then []
                  else index before ++ [git_dir; raw_files_dir]
             else index before)
            (if succeeded e2 && succeeded e3
             then commits before
                  ++ [mkCommit (Some name)
                        (index before ++ [git_dir; raw_files_dir])
                        default_commit_message]
             else commits before)
        else before.
Proof.
  intros h name e1 e2 e3 before.
  destruct (commit_changes_run env git_dir raw_files_dir base_branch st)
    as (l & E).
  eexists. split_and!; [exact E|reflexivity|].
  cbn [trace ext]. apply gate_view.
Qed.

(** C4 as stated fails: with a [git add] that exits non-zero,
    [commit_changes] reports failure while the branch it created is there
    and checked out. *)
Lemma commit_changes_failure_leaves_branch :
  let env := Script.world [KAdd] " M files/x.lorry" in
  let st' := snd (commit_changes env "gits" "files" "main" initial) in
  fst (commit_changes env "gits" "files" "main" initial) = Ok (false, None)
  ∧ repo_view (getcwd env) (trace initial) = pristine
  ∧ repo_view (getcwd env) (trace st')
    = mkRepo (Some "update-mirrors/main/20240102030405")
        [("update-mirrors/main/20240102030405", "main")] [] [].
Proof. vm_compute. done. Qed.

(** ** C2 and C3: the run level *)

Lemma for_each_app_true {A} (pre post : list A) f st st1 :
  for_each pre f st = (Ok true, st1) →
  for_each (pre ++ post) f st = for_each post f st1.
Proof.
  revert st. induction pre as [|y pre IH]; intros st Hpre; simpl in *.
  - unfold ret in Hpre. by injection Hpre as <-.
  - unfold bind in *. destruct (f y st) as [[[|]|e] st0]; try done.
    by apply IH.
Qed.

(** The loop stops at the first element that fails: the state it returns is
    the state that element left. *)
Lemma for_each_abort {A} (pre post : list A) x f st st1 st2 :
  for_each pre f st = (Ok true, st1) →
  f x st1 = (Ok false, st2) →
  for_each (pre ++ x :: post) f st = (Ok false, st2).
Proof.
  intros Hpre Hx. rewrite (for_each_app_true _ _ _ _ _ Hpre). simpl.
  unfold bind. by rewrite Hx.
Qed.

Lemma not_mutating_repo_level d :
  Forall (of_kinds repo_level) d → Forall (λ e, ¬ mutating e) d.
Proof.
  intros Hd. eapply Forall_impl; [exact Hd|].
  apply repo_level_not_mutating.
Qed.

Lemma not_mutating_status d :
  Forall (of_kinds [KStatus]) d → Forall (λ e, ¬ mutating e) d.
Proof.
  intros Hd. eapply Forall_impl; [exact Hd|]. clear Hd.
  intros [c cwd r| |]; unfold mutating, of_kinds, event_kind;
    [|intros _ [H|[H|H]]; discriminate..].
  rewrite elem_of_cons, elem_of_nil.
  intros [->|[]] [H|[H|H]]; discriminate.
Qed.

(** C2.  Once the loop over the repositories has succeeded,
    [process_mirroring] asks [is_dirty] about the raw-files directory and,
    if that one is clean, about the git directory.  When neither is dirty it
    returns [(True, None)] and the whole run has spawned no branch creation,
    no staging and no commit; it hands over to [commit_changes] only when
    one of the two is dirty. *)
Theorem dirty_check_gates_commit env mirror_config git_dir raw_files_dir
    exclude_aliases base_branch lorry2 st st1 :
  process_repos env mirror_config git_dir raw_files_dir exclude_aliases
    base_branch lorry2 st = (Ok true, st1) →
  let s1 := run_event env (trace st1) (status_command env raw_files_dir) None in
  ∃ dirty st2 d,
    tracked_dirty env git_dir raw_files_dir st1 = (Ok dirty, st2)
    ∧ dirty = dirty_report env (trace st1) None (Some raw_files_dir)
              || dirty_report env (trace st1 ++ [s1]) None (Some git_dir)
    ∧ trace st2 = trace st ++ d
    ∧ Forall (λ e, ¬ mutating e) d
    ∧ process_mirroring env mirror_config git_dir raw_files_dir
        exclude_aliases base_branch lorry2 st
      = if dirty
        then commit_changes env git_dir raw_files_dir base_branch st2
        else (Ok (true, None),
              ext st2 [] [mkLog WARNING "Nothing to commit" []]).
Proof.
  intros Hloop s1.
  destruct (process_repos_total env mirror_config git_dir raw_files_dir
              exclude_aliases base_branch lorry2 st)
    as (ok & d0 & l0 & E0 & Hd0 & _).
  rewrite E0 in Hloop. injection Hloop as -> <-.
  destruct (tracked_dirty_eq env git_dir raw_files_dir (ext st d0 l0))
    as (l1 & E1).
  fold s1 in E1.
  assert (∀ dirty st2,
    tracked_dirty env git_dir raw_files_dir (ext st d0 l0) = (Ok dirty, st2) →
    process_mirroring env mirror_config git_dir raw_files_dir
        exclude_aliases base_branch lorry2 st
    = if dirty
      then commit_changes env git_dir raw_files_dir base_branch st2
      else (Ok (true, None),
            ext st2 [] [mkLog WARNING "Nothing to commit" []])) as Hrun.
  { intros dirty st2 Hd. unfold process_mirroring, bind at 1.
    rewrite E0. cbn [negb]. unfold bind at 1. rewrite Hd.
    destruct dirty; [done|].
    unfold bind, log, ret, ext. cbn [trace logs]. by rewrite app_nil_r. }
  pose proof (not_mutating_repo_level _ Hd0) as Hq.
  destruct (dirty_report env (trace (ext st d0 l0)) None (Some raw_files_dir))
    eqn:D1.
  - eexists true, _, (d0 ++ [s1]). split_and!; [exact E1|done| | |].
    + cbn [trace ext]. by rewrite app_assoc.
    + apply Forall_app. split; [done|]. constructor; [|done].
      apply status_not_mutating.
    + by apply (Hrun true).
  - eexists _, _, (d0 ++ [s1; _]). split_and!; [exact E1|done| | |].
    + cbn [trace ext]. by rewrite app_assoc.
    + apply Forall_app. split; [done|].
      repeat constructor; apply status_not_mutating.
    + by apply Hrun.
Qed.

Lemma dirty_check_gates_commit_witness :
  let env := Script.world [] "" in
  let st1 :=
    snd (process_repos env Script.config1 "gits" "files" [] "main" false
           initial) in
  process_repos env Script.config1 "gits" "files" [] "main" false initial
  = (Ok true, st1)
  ∧ ∃ dirty st2 d,
      tracked_dirty env "gits" "files" st1 = (Ok dirty, st2)
      ∧ dirty = dirty_report env (trace st1) None (Some "files")
                || dirty_report env
                     (trace st1
                      ++ [run_event env (trace st1)
                            (status_command env "files") None])
                     None (Some "gits")
      ∧ trace st2 = trace initial ++ d
      ∧ Forall (λ e, ¬ mutating e) d
      ∧ process_mirroring env Script.config1 "gits" "files" [] "main" false
          initial
        = if dirty
          then commit_changes env "gits" "files" "main" st2
          else (Ok (true, None),
                ext st2 [] [mkLog WARNING "Nothing to commit" []]).
Proof.
  intros env st1. split; [vm_compute; reflexivity|].
  apply (dirty_check_gates_commit env Script.config1 "gits" "files" []
           "main" false initial st1).
  vm_compute. reflexivity.
Defined.

(** C3.  If the repositories before some position are processed
    successfully and the repository at that position fails,
    [process_mirroring] returns [(False, None)] in the very state the
    failing repository left: nothing is run for the repositories after it,
    and the run has spawned no branch creation, no staging and no commit. *)
Theorem failing_repo_aborts_run env pre repo_url repo_config post git_dir
    raw_files_dir exclude_aliases base_branch lorry2 st st1 st2 :
  process_repos env pre git_dir raw_files_dir exclude_aliases base_branch
    lorry2 st = (Ok true, st1) →
  process_repo env repo_url repo_config git_dir raw_files_dir
    exclude_aliases base_branch lorry2 st1 = (Ok false, st2) →
  process_mirroring env (pre ++ (repo_url, repo_config) :: post) git_dir
    raw_files_dir exclude_aliases base_branch lorry2 st
  = (Ok (false, None), st2)
  ∧ ∃ d, trace st2 = trace st ++ d ∧ Forall (λ e, ¬ mutating e) d.
Proof.
  intros Hpre Hrepo. split.
  - unfold process_mirroring, bind, process_repos.
    rewrite (for_each_abort pre post (repo_url, repo_config) _ st st1 st2);
      [done|exact Hpre|exact Hrepo].
  - destruct (process_repos_total env pre git_dir raw_files_dir
                exclude_aliases base_branch lorry2 st)
      as (ok & d0 & l0 & E0 & Hd0 & _).
    rewrite E0 in Hpre. injection Hpre as -> <-.
    destruct (process_repo_total env repo_url repo_config git_dir
                raw_files_dir exclude_aliases base_branch lorry2
                (ext st d0 l0))
      as (ok & d1 & l1 & E1 & Hd1 & _).
    rewrite E1 in Hrepo. injection Hrepo as -> <-.
    exists (d0 ++ d1). rewrite ext_ext. split; [done|].
    apply not_mutating_repo_level, Forall_app. done.
Qed.

(** The example of C3: a clone that fails makes the repository fail. *)
Lemma failed_clone_fails_repo env repo_url repo_config git_dir raw_files_dir
    exclude_aliases base_branch lorry2 st :
  let tmpdir := mkdtemp env (trace st) in
  let h := trace st ++ [TempDirCreated tmpdir] in
  let clone :=
    git_command (getcwd env)
      ["clone"; repo_url; path_join tmpdir (repo_name repo_url)] in
  exit_ok env h clone None = false →
  ∃ l,
    process_repo env repo_url repo_config git_dir raw_files_dir
      exclude_aliases base_branch lorry2 st
    = (Ok false,
       ext st [TempDirCreated tmpdir; run_event env h clone None;
               TempDirRemoved tmpdir] l).
Proof.
  intros tmpdir h clone Hfail.
  unfold process_repo, clone_repo, finally. fold tmpdir.
  set (st0 := emit (TempDirCreated tmpdir) st).
  destruct (run_git_eq env
              ["clone"; repo_url; path_join tmpdir (repo_name repo_url)] None
              false (Some ("Failed to clone repository: " +:+ repo_url))
              false st0) as (l & E).
  change (trace st0) with h in E.
  change (default (getcwd env) None) with (getcwd env) in E.
  fold clone in E. rewrite Hfail in E.
  unfold bind at 1, try_except, bind at 1. rewrite E.
  unfold ret, process_repo_body. cbn [fst snd].
  eexists. f_equal. subst st0. rewrite !emit_ext, !ext_ext.
  cbn [app]. by rewrite app_nil_r.
Qed.

Lemma failing_repo_aborts_run_witness :
  let env := Script.world [KShow] "" in
  let pre := [("https://example/first.git", [("main", [])])] in
  let post := [("https://example/last.git", [("main", ["elemB"])])] in
  let st1 := snd (process_repos env pre "gits" "files" [] "main" false
                    initial) in
  let st2 :=
    snd (process_repo env "https://example/repo.git" [("main", ["elemA"])]
           "gits" "files" [] "main" false st1) in
  process_repos env pre "gits" "files" [] "main" false initial
  = (Ok true, st1)
  ∧ process_repo env "https://example/repo.git" [("main", ["elemA"])]
      "gits" "files" [] "main" false st1 = (Ok false, st2)
  ∧ process_mirroring env
      (pre ++ ("https://example/repo.git", [("main", ["elemA"])]) :: post)
      "gits" "files" [] "main" false initial
    = (Ok (false, None), st2)
  ∧ ∃ d, trace st2 = trace initial ++ d ∧ Forall (λ e, ¬ mutating e) d.
Proof.
  intros env pre post st1 st2.
  split; [vm_compute; reflexivity|]. split; [vm_compute; reflexivity|].
  apply (failing_repo_aborts_run env pre "https://example/repo.git"
           [("main", ["elemA"])] post "gits" "files" [] "main" false
           initial st1 st2);
    vm_compute; reflexivity.
Defined.

(** ** The timestamp *)

Lemma digit_is_digit n : PyStr.is_digit (PyStr.digit n) = true.
Proof.
  unfold PyStr.digit.
  assert (n mod 10 < 10) as Hlt by (apply Nat.mod_upper_bound; lia).
  destruct (n mod 10) as [|m]; [reflexivity|].
  do 9 (destruct m as [|m]; [reflexivity|]). lia.
Qed.

Lemma all_chars_app p a b :
  PyStr.all_chars p (a +:+ b) = PyStr.all_chars p a && PyStr.all_chars p b.
Proof.
  induction a as [|c a IH]; [done|].
  change (String c a +:+ b) with (String c (a +:+ b)).
  cbn [PyStr.all_chars]. by rewrite IH, andb_assoc.
Qed.

(** [strftime("%Y%m%d%H%M%S")] yields fourteen decimal digits. *)
Lemma strftime_YmdHMS_digits dt :
  String.length (strftime_YmdHMS dt) = 14
  ∧ PyStr.all_chars PyStr.is_digit (strftime_YmdHMS dt) = true.
Proof.
  split; [reflexivity|].
  unfold strftime_YmdHMS, PyStr.zpad4, PyStr.zpad2.
  rewrite !all_chars_app. cbn [PyStr.all_chars].
  by rewrite !digit_is_digit.
Qed.

(** ** Counting commands in the history *)

Lemma spawned_app k d1 d2 : spawned k (d1 ++ d2) = spawned k d1 ++ spawned k d2.
Proof. unfold spawned. apply filter_app. Qed.

Lemma spawned_none ks k d :
  Forall (of_kinds ks) d → k ∉ ks → spawned k d = [].
Proof.
  intros Hd Hk. induction Hd as [|e d He _ IH]; [done|].
  unfold spawned in *. rewrite filter_cons_False; [done|].
  destruct e; simpl in *; [|done..]. intros [= <-]. done.
Qed.

Lemma status_of_kinds env h p subdir cwd :
  of_kinds [KStatus] (run_event env h (git_command p (status_args subdir)) cwd).
Proof. simpl. rewrite kind_status. by left. Qed.

Lemma all_passed_app ks d1 d2 :
  all_passed ks (d1 ++ d2) = all_passed ks d1 && all_passed ks d2.
Proof. unfold all_passed. apply forallb_app. Qed.

(** The commands of the repository level are clones, checkouts, element
    checks and generator runs: when all of these exited 0, every command
    did. *)
Lemma repo_level_all_passed d :
  Forall (of_kinds repo_level) d →
  all_passed [KCheckout; KShow; KGenerate] d = true →
  all_passed [KClone; KCreateBranch; KAdd; KCommit] d = true →
  Forall passed d.
Proof.
  intros Hd H1 H2. unfold all_passed in *.
  rewrite forallb_forall in H1, H2. apply Forall_forall. intros e He.
  pose proof (proj1 (Forall_forall _ _) Hd e He) as Hk.
  apply list_elem_of_In in He.
  specialize (H1 e He). specialize (H2 e He).
  destruct e as [c cwd res| |]; [|done..]. cbn [of_kinds passed] in *.
  unfold repo_level in Hk. rewrite !elem_of_cons, elem_of_nil in Hk.
  destruct Hk as [Hk|[Hk|[Hk|[Hk|[]]]]]; rewrite Hk in H1, H2;
    first [ by apply Z.eqb_eq in H1 | by apply Z.eqb_eq in H2 ].
Qed.

(** When the commands the gate ran exited 0, it ran all three and
    passes. *)
Lemma gate_passes_when_passed env git_dir raw_files_dir base_branch h :
  all_passed [KClone; KCreateBranch; KAdd; KCommit]
    (gate_events env git_dir raw_files_dir base_branch h) = true →
  gate_passes env git_dir raw_files_dir base_branch h = true
  ∧ gate_events env git_dir raw_files_dir base_branch h
    = [gate_create env base_branch h;
       gate_add env git_dir raw_files_dir base_branch h;
       gate_commit env git_dir raw_files_dir base_branch h].
Proof.
  unfold gate_passes, gate_events. cbv zeta.
  set (e1 := gate_create env base_branch h).
  set (e2 := gate_add env git_dir raw_files_dir base_branch h).
  set (e3 := gate_commit env git_dir raw_files_dir base_branch h).
  assert (∀ rest, all_passed [KClone; KCreateBranch; KAdd; KCommit]
                    (e1 :: rest)
                  = succeeded e1
                    && all_passed [KClone; KCreateBranch; KAdd; KCommit] rest)
    as A1 by reflexivity.
  assert (∀ rest, all_passed [KClone; KCreateBranch; KAdd; KCommit]
                    (e2 :: rest)
                  = succeeded e2
                    && all_passed [KClone; KCreateBranch; KAdd; KCommit] rest)
    as A2 by reflexivity.
  assert (∀ rest, all_passed [KClone; KCreateBranch; KAdd; KCommit]
                    (e3 :: rest)
                  = succeeded e3
                    && all_passed [KClone; KCreateBranch; KAdd; KCommit] rest)
    as A3 by reflexivity.
  destruct (succeeded e1) eqn:S1.
  2: { rewrite A1. discriminate. }
  destruct (succeeded e2) eqn:S2.
  2: { rewrite A1, A2. discriminate. }
  rewrite A1, A2, A3. cbn [andb].
  destruct (succeeded e3); [done|discriminate].
Qed.

(** ** C1: a successful run over changed directories *)

(** C1, as amended.  When every clone, every checkout, every element check
    and every generator invocation of the run succeeds, the tracked
    directories are reported dirty after the repositories have been
    processed, and the branch creation, the staging and the commit succeed
    as well, the run returns the name [update-mirrors/<base>/<timestamp>],
    whose timestamp is the UTC clock printed as fourteen digits; it has
    created exactly one branch, that one, from the base branch, and made
    exactly one commit, on that branch. *)
Theorem successful_dirty_run_commits_once env mirror_config git_dir
    raw_files_dir exclude_aliases base_branch lorry2 st :
  let run :=
    process_mirroring env mirror_config git_dir raw_files_dir
      exclude_aliases base_branch lorry2 st in
  let d := drop (length (trace st)) (trace (snd run)) in
  let st1 :=
    snd (process_repos env mirror_config git_dir raw_files_dir
           exclude_aliases base_branch lorry2 st) in
  let st2 := snd (tracked_dirty env git_dir raw_files_dir st1) in
  all_passed [KCheckout; KShow; KGenerate] d = true →
  all_passed [KClone; KCreateBranch; KAdd; KCommit] d = true →
  fst (tracked_dirty env git_dir raw_files_dir st1) = Ok true →
  let timestamp := strftime_YmdHMS (utcnow env (trace st2)) in
  let name := "update-mirrors/" +:+ base_branch +:+ "/" +:+ timestamp in
  let create :=
    run_event env (trace st2)
      (git_command (getcwd env) ["checkout"; "-b"; name; base_branch])
      None in
  ∃ commit,
    fst run = Ok (true, Some name)
    ∧ String.length timestamp = 14
    ∧ PyStr.all_chars PyStr.is_digit timestamp = true
    ∧ trace (snd run) = trace st ++ d
    ∧ spawned KCreateBranch d = [create] ∧ succeeded create = true
    ∧ spawned KCommit d = [commit] ∧ succeeded commit = true
    ∧ let before := repo_view (getcwd env) (trace st) in
      let after := repo_view (getcwd env) (trace (snd run)) in
      head after = Some name
      ∧ new_branches after = new_branches before ++ [(name, base_branch)]
      ∧ commits after
        = commits before
          ++ [mkCommit (Some name)
                (index before ++ [git_dir; raw_files_dir])
                default_commit_message].
Proof.
  intros run d st1 st2 H1 H2 Hdirty timestamp name create.
  destruct (process_repos_total env mirror_config git_dir raw_files_dir
              exclude_aliases base_branch lorry2 st)
    as (ok & d0 & l0 & E0 & Hd0 & Hok).
  assert (st1 = ext st d0 l0) as Hst1 by (unfold st1; by rewrite E0).
  clearbody st1.
  assert (ok = true) as ->.
  { destruct ok; [done|]. apply Hok.
    assert (d = d0) as Hd.
    { unfold d, run, process_mirroring, bind. rewrite E0.
      cbn [negb ret snd trace ext]. by rewrite drop_app_length. }
    rewrite Hd in H1, H2. by apply repo_level_all_passed. }
  clear Hok.
  destruct (tracked_dirty_eq env git_dir raw_files_dir st1) as (l1 & E1).
  assert (∃ ds, tracked_dirty env git_dir raw_files_dir st1
                = (Ok true, ext st1 ds l1)
              ∧ Forall (of_kinds [KStatus]) ds) as (ds & E1' & Hds).
  { destruct (dirty_report env (trace st1) None (Some raw_files_dir)).
    - eexists. split; [exact E1|].
      apply Forall_cons_2; [apply status_of_kinds|done].
    - rewrite E1 in Hdirty. cbn [fst] in Hdirty. injection Hdirty as Hd.
      rewrite Hd in E1. eexists. split; [exact E1|].
      repeat (apply Forall_cons_2; [apply status_of_kinds|]). done. }
  clear E1 Hdirty.
  assert (st2 = ext st1 ds l1) as Hst2 by (unfold st2; by rewrite E1').
  clearbody st2.
  destruct (commit_changes_run env git_dir raw_files_dir base_branch st2)
    as (l2 & E2).
  assert (trace st2 = trace st ++ d0 ++ ds) as Htr2.
  { rewrite Hst2, Hst1. cbn [trace ext]. by rewrite app_assoc. }
  assert (run
          = (Ok (if gate_passes env git_dir raw_files_dir base_branch
                      (trace st2)
                 then (true, Some (new_branch_name env base_branch
                                     (trace st2)))
                 else (false, None)),
             ext st2 (gate_events env git_dir raw_files_dir base_branch
                        (trace st2)) l2)) as Hrun.
  { unfold run, process_mirroring, bind at 1. rewrite E0, <- Hst1.
    cbn [negb]. unfold bind at 1. rewrite E1', <- Hst2. exact E2. }
  clearbody run.
  assert (d = d0 ++ ds
              ++ gate_events env git_dir raw_files_dir base_branch
                   (trace st2)) as Hd.
  { unfold d. rewrite Hrun. cbn [snd trace ext]. rewrite Htr2.
    rewrite <- !app_assoc. by rewrite drop_app_length. }
  clearbody d. subst d.
  rewrite !all_passed_app in H2.
  apply andb_true_iff in H2 as [_ H2]. apply andb_true_iff in H2 as [_ H2].
  destruct (gate_passes_when_passed env git_dir raw_files_dir base_branch
              (trace st2) H2) as [Hpass Hevents].
  rewrite Hpass, Hevents in Hrun. rewrite Hevents. clear H1 H2.
  pose proof (gate_view env git_dir raw_files_dir base_branch (trace st2))
    as Hview.
  cbv zeta in Hview. rewrite Hevents in Hview.
  unfold gate_passes in Hpass.
  apply andb_true_iff in Hpass as [Hpass S3].
  apply andb_true_iff in Hpass as [S1 S2].
  rewrite S1, S2, S3 in Hview. cbn [andb] in Hview.
  change (new_branch_name env base_branch (trace st2)) with name in *.
  change (gate_create env base_branch (trace st2)) with create in *.
  set (add := gate_add env git_dir raw_files_dir base_branch (trace st2))
    in *.
  set (commit := gate_commit env git_dir raw_files_dir base_branch
                   (trace st2)) in *.
  assert (let before := repo_view (getcwd env) (trace st) in
          let after :=
            repo_view (getcwd env) (trace st2 ++ [create; add; commit]) in
          head after = Some name
          ∧ new_branches after = new_branches before ++ [(name, base_branch)]
          ∧ commits after
            = commits before
              ++ [mkCommit (Some name)
                    (index before ++ [git_dir; raw_files_dir])
                    default_commit_message]) as Hafter.
  { cbv zeta. rewrite Hview.
    assert (Forall (λ e, ¬ mutating e) (d0 ++ ds)) as Hq.
    { apply Forall_app. split; [by apply not_mutating_repo_level|].
      by apply not_mutating_status. }
    rewrite Htr2, repo_view_app.
    destruct (fold_observe_quiet (getcwd env) (d0 ++ ds)
                (repo_view (getcwd env) (trace st)) Hq) as (-> & -> & ->).
    cbn [head new_branches commits]. split_and!; reflexivity. }
  exists commit. rewrite Hrun. cbn [fst snd].
  destruct (strftime_YmdHMS_digits (utcnow env (trace st2))) as [Hlen Hdig].
  split_and!.
  - reflexivity.
  - exact Hlen.
  - exact Hdig.
  - cbn [trace ext]. rewrite Htr2. by rewrite <- !app_assoc.
  - rewrite !spawned_app.
    rewrite (spawned_none repo_level _ d0 Hd0),
      (spawned_none [KStatus] _ ds Hds); [reflexivity|..];
      unfold repo_level; rewrite ?not_elem_of_cons; split_and!;
      first [discriminate|apply not_elem_of_nil].
  - exact S1.
  - rewrite !spawned_app.
    rewrite (spawned_none repo_level _ d0 Hd0),
      (spawned_none [KStatus] _ ds Hds); [reflexivity|..];
      unfold repo_level; rewrite ?not_elem_of_cons; split_and!;
      first [discriminate|apply not_elem_of_nil].
  - exact S3.
  - apply Hafter.
  - apply Hafter.
  - apply Hafter.
Qed.

Lemma successful_dirty_run_commits_once_witness :
  let env := Script.world [] " M files/x.lorry" in
  let run :=
    process_mirroring env Script.config1 "gits" "files" [] "main" false
      initial in
  let d := drop (length (trace initial)) (trace (snd run)) in
  let st1 :=
    snd (process_repos env Script.config1 "gits" "files" [] "main" false
           initial) in
  let st2 := snd (tracked_dirty env "gits" "files" st1) in
  let timestamp := strftime_YmdHMS (utcnow env (trace st2)) in
  let name := "update-mirrors/" +:+ "main" +:+ "/" +:+ timestamp in
  let create :=
    run_event env (trace st2)
      (git_command (getcwd env) ["checkout"; "-b"; name; "main"]) None in
  all_passed [KCheckout; KShow; KGenerate] d = true
  ∧ all_passed [KClone; KCreateBranch; KAdd; KCommit] d = true
  ∧ fst (tracked_dirty env "gits" "files" st1) = Ok true
  ∧ ∃ commit,
      fst run = Ok (true, Some name)
      ∧ String.length timestamp = 14
      ∧ PyStr.all_chars PyStr.is_digit timestamp = true
      ∧ trace (snd run) = trace initial ++ d
      ∧ spawned KCreateBranch d = [create] ∧ succeeded create = true
      ∧ spawned KCommit d = [commit] ∧ succeeded commit = true
      ∧ let before := repo_view (getcwd env) (trace initial) in
        let after := repo_view (getcwd env) (trace (snd run)) in
        head after = Some name
        ∧ new_branches after = new_branches before ++ [(name, "main")]
        ∧ commits after
          = commits before
            ++ [mkCommit (Some name) (index before ++ ["gits"; "files"])
                  default_commit_message].
Proof.
  intros env run d st1 st2 timestamp name create.
  split_and!; [vm_compute; reflexivity..|].
  apply (successful_dirty_run_commits_once env Script.config1 "gits" "files"
           [] "main" false initial);
    vm_compute; reflexivity.
Defined.

(** C1 as stated fails: every checkout, every element check and the
    generator succeed and the raw-files directory is dirty, but the commit
    is refused; the run has created a branch and made no commit. *)
Lemma commit_refused_no_commit :
  let env := Script.world [KCommit] " M files/x.lorry" in
  let st1 :=
    snd (process_repos env Script.config1 "gits" "files" [] "main" false
           initial) in
  let run :=
    process_mirroring env Script.config1 "gits" "files" [] "main" false
      initial in
  all_passed [KCheckout; KShow; KGenerate] (trace (snd run)) = true
  ∧ fst (tracked_dirty env "gits" "files" st1) = Ok true
  ∧ fst run = Ok (false, None)
  ∧ new_branches (repo_view (getcwd env) (trace (snd run)))
    = [("update-mirrors/main/20240102030405", "main")]
  ∧ commits (repo_view (getcwd env) (trace (snd run))) = [].
Proof. vm_compute. done. Qed.

(** ** C10: the empty configuration *)

Lemma observe_status env h subdir repo :
  observe (getcwd env) repo (run_event env h (status_command env subdir) None)
  = repo.
Proof.
  unfold status_command. rewrite observe_git.
  by destruct (exit_ok env h _ None).
Qed.

(** C10, as amended.  For the empty configuration [process_mirroring]
    spawns nothing but the dirtiness check (the status of the raw-files
    directory and, when that is clean, of the git directory) and, when one
    of them is reported dirty, the commands of the commit gate.  With
    neither dirty it returns [(True, None)].  With one dirty it returns what
    the gate returns: the new branch name, with the branch created and the
    changes committed, when the gate's commands succeed, and
    [(False, None)] with no commit when one of them fails. *)
Theorem empty_config_runs_only_the_gate env git_dir raw_files_dir
    exclude_aliases base_branch lorry2 st :
  let h := trace st in
  let s1 := run_event env h (status_command env raw_files_dir) None in
  let s2 := run_event env (h ++ [s1]) (status_command env git_dir) None in
  let d1 := dirty_report env h None (Some raw_files_dir) in
  let d2 := dirty_report env (h ++ [s1]) None (Some git_dir) in
  let h2 := h ++ (if d1 then [s1] else [s1; s2]) in
  let passes := gate_passes env git_dir raw_files_dir base_branch h2 in
  let name := new_branch_name env base_branch h2 in
  ∃ st',
    process_mirroring env [] git_dir raw_files_dir exclude_aliases
      base_branch lorry2 st
    = (Ok (if d1 || d2
           then if passes then (true, Some name) else (false, None)
           else (true, None)), st')
    ∧ trace st'
      = h2 ++ (if d1 || d2
               then gate_events env git_dir raw_files_dir base_branch h2
               else [])
    ∧ let before := repo_view (getcwd env) h in
      let after := repo_view (getcwd env) (trace st') in
      if d1 || d2 then
        if passes then
          new_branches after = new_branches before ++ [(name, base_branch)]
          ∧ commits after
            = commits before
              ++ [mkCommit (Some name)
                    (index before ++ [git_dir; raw_files_dir])
                    default_commit_message]
        else commits after = commits before
      else after = before.
Proof.
  intros h s1 s2 d1 d2 h2 passes name.
  destruct (tracked_dirty_eq env git_dir raw_files_dir st) as (l1 & E1).
  fold h s1 s2 d1 d2 in E1.
  change (run_event env h (status_command env raw_files_dir) None)
    with s1 in E1.
  change (run_event env (h ++ [s1]) (status_command env git_dir) None)
    with s2 in E1.
  assert (repo_view (getcwd env) h2 = repo_view (getcwd env) h) as Hv.
  { unfold h2. rewrite repo_view_app.
    destruct d1; cbn [fold_left]; unfold s1, s2;
      by rewrite !observe_status. }
  assert (tracked_dirty env git_dir raw_files_dir st
          = (Ok (d1 || d2), ext st (if d1 then [s1] else [s1; s2]) l1)) as E1'.
  { rewrite E1. by destruct d1. }
  clear E1.
  set (st2 := ext st (if d1 then [s1] else [s1; s2]) l1) in *.
  assert (trace st2 = h2) as Htr2 by done.
  unfold process_mirroring, bind at 1, process_repos. cbn [for_each].
  unfold ret at 1. cbn [negb]. unfold bind at 1. rewrite E1'.
  destruct (d1 || d2).
  - destruct (commit_changes_run env git_dir raw_files_dir base_branch st2)
      as (l2 & E2).
    rewrite Htr2 in E2. fold passes name in E2. rewrite E2.
    eexists. split_and!; [reflexivity|by cbn [trace ext]; rewrite Htr2|].
    cbv zeta. cbn [trace ext]. rewrite Htr2.
    pose proof (gate_view env git_dir raw_files_dir base_branch h2) as Hg.
    cbv zeta in Hg. rewrite Hg, Hv. fold name.
    unfold passes, gate_passes.
    destruct (succeeded (gate_create env base_branch h2));
      cbn [andb new_branches commits]; [|done].
    destruct (succeeded
                (gate_add env git_dir raw_files_dir base_branch h2));
      cbn [andb]; [|done].
    by destruct (succeeded
                   (gate_commit env git_dir raw_files_dir base_branch h2)).
  - unfold bind, log, ret. eexists. split_and!; [reflexivity| |].
    + cbn [trace]. by rewrite app_nil_r.
    + cbv zeta. cbn [trace]. by rewrite Htr2.
Qed.

(** C10 as stated fails: with the empty configuration, a dirty raw-files
    directory and a commit that is refused, a branch is created and nothing
    is committed. *)
Lemma empty_config_commit_refused :
  let env := Script.world [KCommit] " M files/x.lorry" in
  let run := process_mirroring env [] "gits" "files" [] "main" false initial in
  fst (is_dirty env None (Some "files") initial) = Ok true
  ∧ fst run = Ok (false, None)
  ∧ new_branches (repo_view (getcwd env) (trace (snd run)))
    = [("update-mirrors/main/20240102030405", "main")]
  ∧ commits (repo_view (getcwd env) (trace (snd run))) = [].
Proof. vm_compute. done. Qed.

(** ** C5: where the base branch is checked out *)

(** C5, as amended.  Once the clone has succeeded, [process_repo] checks
    out the run's base branch in the current working directory, that is in
    the repository the tool runs in and not in the clone, before it iterates
    the branch-to-elements mapping; if that checkout fails the repository
    fails and no branch is processed. *)
Theorem base_branch_checked_out_in_cwd env repo_url repo_config git_dir
    raw_files_dir exclude_aliases base_branch lorry2 st :
  let tmpdir := mkdtemp env (trace st) in
  let clone_dest := path_join tmpdir (repo_name repo_url) in
  let h0 := trace st ++ [TempDirCreated tmpdir] in
  let clone :=
    run_event env h0
      (git_command (getcwd env) ["clone"; repo_url; clone_dest]) None in
  let checkout :=
    run_event env (h0 ++ [clone])
      (git_command (getcwd env) ["checkout"; base_branch]) None in
  succeeded clone = true →
  ∃ ok d st_b l,
    trace st_b = h0 ++ [clone; checkout]
    ∧ (if succeeded checkout
       then ∃ l',
         for_each repo_config
           (λ item, process_branch env repo_url (fst item) (snd item)
                      clone_dest git_dir raw_files_dir exclude_aliases
                      lorry2) st_b
         = (Ok ok, ext st_b d l')
       else ok = false ∧ d = [])
    ∧ process_repo env repo_url repo_config git_dir raw_files_dir
        exclude_aliases base_branch lorry2 st
      = (Ok ok,
         ext st
           ([TempDirCreated tmpdir; clone; checkout] ++ d
            ++ [TempDirRemoved tmpdir]) l).
Proof.
  intros tmpdir clone_dest h0 clone checkout Hclone.
  unfold process_repo, clone_repo, finally. fold tmpdir. fold clone_dest.
  set (st0 := emit (TempDirCreated tmpdir) st).
  destruct (run_git_eq env ["clone"; repo_url; clone_dest] None false
              (Some ("Failed to clone repository: " +:+ repo_url))
              false st0) as (l1 & E1).
  change (trace st0) with h0 in E1.
  change (default (getcwd env) None) with (getcwd env) in E1.
  fold clone in E1.
  change (succeeded clone)
    with (exit_ok env h0
            (git_command (getcwd env) ["clone"; repo_url; clone_dest]) None)
    in Hclone.
  rewrite Hclone in E1.
  unfold bind at 1, try_except, bind at 1. rewrite E1.
  unfold bind at 1, log at 1, ret at 1. cbn [fst snd].
  unfold process_repo_body.
  match goal with
  | |- context [bind (checkout_branch _ _ _) _ ?s] => set (st1 := s)
  end.
  assert (trace st1 = h0 ++ [clone]) as Htr1 by done.
  destruct (checkout_branch_eq env base_branch None st1) as (l2 & E2).
  rewrite Htr1 in E2.
  change (default (getcwd env) None) with (getcwd env) in E2.
  fold checkout in E2.
  change (exit_ok env (h0 ++ [clone])
            (git_command (getcwd env) ["checkout"; base_branch]) None)
    with (succeeded checkout) in E2.
  unfold bind at 1. rewrite E2.
  set (st_b := ext st1 [checkout] l2).
  assert (trace st_b = h0 ++ [clone; checkout]) as Htrb.
  { unfold st_b. cbn [trace ext]. rewrite Htr1. by rewrite <- app_assoc. }
  assert (∃ lb, st_b = ext st [TempDirCreated tmpdir; clone; checkout] lb)
    as [lb Hb].
  { exists (l1 ++ [mkLog INFO "Cloned %s to %s"
                     [AStr repo_url; AStr clone_dest]] ++ l2).
    unfold st_b, st1, st0, ext, emit. cbn [trace logs].
    f_equal; rewrite <- !app_assoc; reflexivity. }
  clearbody st_b. subst st_b.
  destruct (succeeded checkout); cbn [negb].
  - destruct (spec_for_each (of_kinds repo_level) repo_config
                (λ item, process_branch env repo_url (fst item) (snd item)
                           clone_dest git_dir raw_files_dir exclude_aliases
                           lorry2))
      with (st := ext st [TempDirCreated tmpdir; clone; checkout] lb)
      as (r & d & l3 & E3 & _ & (ok & -> & _)).
    { intros item _. by apply spec_process_branch. }
    rewrite E3. exists ok, d. eexists. exists (lb ++ l3).
    split; [exact Htrb|split; [eauto|]].
    rewrite emit_ext, !ext_ext. by rewrite app_nil_r.
  - unfold ret. exists false, []. eexists. exists lb.
    split; [exact Htrb|split; [done|]].
    by rewrite emit_ext, !ext_ext, app_nil_r.
Qed.

Lemma base_branch_checked_out_in_cwd_witness :
  let env := Script.world [] "" in
  let tmpdir := mkdtemp env (trace initial) in
  let clone_dest := path_join tmpdir (repo_name "https://example/repo.git") in
  let h0 := trace initial ++ [TempDirCreated tmpdir] in
  let clone :=
    run_event env h0
      (git_command (getcwd env)
         ["clone"; "https://example/repo.git"; clone_dest]) None in
  let checkout :=
    run_event env (h0 ++ [clone])
      (git_command (getcwd env) ["checkout"; "main"]) None in
  succeeded clone = true
  ∧ ∃ ok d st_b l,
      trace st_b = h0 ++ [clone; checkout]
      ∧ (if succeeded checkout
         then ∃ l',
           for_each [("release", ["elemA"])]
             (λ item, process_branch env "https://example/repo.git"
                        (fst item) (snd item) clone_dest "gits" "files" []
                        false) st_b
           = (Ok ok, ext st_b d l')
         else ok = false ∧ d = [])
      ∧ process_repo env "https://example/repo.git"
          [("release", ["elemA"])] "gits" "files" [] "main" false initial
        = (Ok ok,
           ext initial
             ([TempDirCreated tmpdir; clone; checkout] ++ d
              ++ [TempDirRemoved tmpdir]) l).
Proof.
  intros env tmpdir clone_dest h0 clone checkout.
  split; [reflexivity|].
  apply (base_branch_checked_out_in_cwd env "https://example/repo.git"
           [("release", ["elemA"])] "gits" "files" [] "main" false initial).
  reflexivity.
Defined.

(** C5 as stated fails: the only checkout of the base branch [main] runs
    with [-C /work/mirroring-config], the directory the tool was started in;
    in the clone only the configured branch [release] is checked out. *)
Lemma base_branch_not_checked_out_in_clone :
  let env := Script.world [] "" in
  let run :=
    process_repo env "https://example/repo.git" [("release", ["elemA"])]
      "gits" "files" [] "main" false initial in
  map (λ e, match e with Spawn c _ _ => c | _ => [] end)
    (spawned KCheckout (trace (snd run)))
  = [git_command "/work/mirroring-config" ["checkout"; "main"];
     git_command "/tmp/tmp0000/repo" ["checkout"; "release"]]
  ∧ getcwd env = "/work/mirroring-config"
  ∧ path_join (mkdtemp env []) (repo_name "https://example/repo.git")
    = "/tmp/tmp0000/repo".
Proof. vm_compute. done. Qed.

(** ** C6: the branch level *)

Lemma show_events_commands env dest elements : ∀ h,
  map (λ e, match e with
            | Spawn c cwd _ => Some (c, cwd)
            | _ => None
            end) (show_events env h dest elements)
  = map (λ element, Some (bst_show_command element, Some dest)) elements.
Proof.
  induction elements as [|x rest IH]; intros h; [done|].
  simpl. f_equal. apply IH.
Qed.

Lemma show_events_of_kind env dest elements : ∀ h,
  Forall (of_kinds [KShow]) (show_events env h dest elements).
Proof.
  induction elements as [|x rest IH]; intros h; [done|].
  cbn [show_events]. apply Forall_cons_2; [|apply IH].
  unfold run_event, of_kinds. rewrite kind_show. by left.
Qed.

Lemma filter_not_element_exists env dest elements : ∀ st,
  let checks := show_events env (trace st) dest elements in
  ∃ l,
    filter_not elements (λ elem, element_exists env elem dest) st
    = (Ok (failing_elements elements checks), ext st checks l).
Proof.
  induction elements as [|x rest IH]; intros st checks.
  - exists []. unfold checks. simpl. unfold ret. by rewrite ext_nil.
  - destruct (element_exists_eq env x dest st) as (l0 & E0 & _).
    set (ev := run_event env (trace st) (bst_show_command x) (Some dest))
      in *.
    destruct (IH (ext st [ev] l0)) as (l1 & E1).
    cbn [filter_not]. unfold bind at 1. rewrite E0.
    unfold bind at 1. rewrite E1. unfold ret.
    exists (l0 ++ l1). rewrite ext_ext. f_equal.
    unfold checks. cbn [show_events]. fold ev.
    unfold failing_elements. cbn [combine List.filter snd].
    change (exit_ok env (trace st) (bst_show_command x) (Some dest))
      with (succeeded ev).
    by destruct (succeeded ev).
Qed.

Lemma spawned_show_events env dest elements : ∀ h,
  spawned KShow (show_events env h dest elements)
  = show_events env h dest elements.
Proof.
  induction elements as [|x rest IH]; intros h; [done|].
  cbn [show_events]. unfold spawned in *. rewrite filter_cons_True.
  - f_equal. apply IH.
  - unfold run_event. cbn [event_kind]. by rewrite kind_show.
Qed.

(** C6, as amended.  [process_branch] first checks the branch out in the
    clone.  When that fails it returns [False], and it has checked no
    element and not run the generator, whatever the element list.  When it
    succeeds, [process_branch] checks every required element, in order, and
    collects those whose check fails.  If there are any it logs them all and
    returns [False] without running the generator; if there are none it runs
    the generator exactly once, over the whole element list, and returns
    whether it succeeded. *)
Theorem process_branch_all_or_nothing env repo_url branch elements clone_dest
    git_dir raw_files_dir exclude_aliases lorry2 st :
  let checkout :=
    run_event env (trace st) (git_command clone_dest ["checkout"; branch])
      None in
  let h1 := trace st ++ [checkout] in
  let checks := show_events env h1 clone_dest elements in
  let missing := failing_elements elements checks in
  let generate :=
    run_event env (h1 ++ checks)
      (bst_to_lorry_command elements git_dir raw_files_dir exclude_aliases
         lorry2) (Some clone_dest) in
  let checked := if succeeded checkout then checks else [] in
  let generated :=
    if succeeded checkout
    then match missing with [] => [generate] | _ => [] end
    else [] in
  ∃ st',
    process_branch env repo_url branch elements clone_dest git_dir
      raw_files_dir exclude_aliases lorry2 st
    = (Ok (if succeeded checkout
           then match missing with [] => succeeded generate | _ => false end
           else false), st')
    ∧ trace st' = h1 ++ checked ++ generated
    ∧ map (λ e, match e with
                | Spawn c cwd _ => Some (c, cwd)
                | _ => None
                end) checks
      = map (λ element, Some (bst_show_command element, Some clone_dest))
          elements
    ∧ spawned KShow (trace st') = spawned KShow (trace st) ++ checked
    ∧ spawned KGenerate (trace st')
      = spawned KGenerate (trace st) ++ generated
    ∧ (succeeded checkout = true → missing ≠ [] →
       last (logs st')
       = Some (mkLog ERROR
                 "Required elements not found in branch %s of repo %s: %s"
                 [AStr branch; AStr repo_url; AList missing])).
Proof.
  intros checkout h1 checks missing generate checked generated.
  subst checked generated.
  unfold process_branch, bind at 1, log at 1.
  match goal with
  | |- context [bind (checkout_branch _ _ _) _ ?s] => set (st0 := s)
  end.
  destruct (checkout_branch_eq env branch (Some clone_dest) st0) as (l1 & E1).
  change (trace st0) with (trace st) in E1.
  change (default (getcwd env) (Some clone_dest)) with clone_dest in E1.
  fold checkout in E1.
  change (exit_ok env (trace st) (git_command clone_dest ["checkout"; branch])
            None) with (succeeded checkout) in E1.
  unfold bind at 1. rewrite E1.
  set (st1 := ext st0 [checkout] l1).
  assert (trace st1 = h1) as Htr1 by done.
  assert (spawned KShow h1 = spawned KShow (trace st)) as Hshow1.
  { unfold h1. rewrite spawned_app.
    rewrite (spawned_none [KCheckout] KShow [checkout]);
      [by rewrite app_nil_r| |].
    - apply Forall_cons_2; [|done]. unfold checkout, run_event, of_kinds.
      rewrite kind_checkout. by left.
    - rewrite not_elem_of_cons. split; [discriminate|apply not_elem_of_nil]. }
  assert (spawned KGenerate h1 = spawned KGenerate (trace st)) as Hgen1.
  { unfold h1. rewrite spawned_app.
    rewrite (spawned_none [KCheckout] KGenerate [checkout]);
      [by rewrite app_nil_r| |].
    - apply Forall_cons_2; [|done]. unfold checkout, run_event, of_kinds.
      rewrite kind_checkout. by left.
    - rewrite not_elem_of_cons. split; [discriminate|apply not_elem_of_nil]. }
  destruct (succeeded checkout) eqn:Hco; cbn [negb].
  2: { unfold ret. exists st1. rewrite Htr1, !app_nil_r.
       split_and!; [reflexivity|reflexivity| |exact Hshow1|exact Hgen1|done].
       apply show_events_commands. }
  destruct (filter_not_element_exists env clone_dest elements st1)
    as (l2 & E2).
  cbv zeta in E2. rewrite Htr1 in E2. fold checks missing in E2.
  unfold bind at 1. rewrite E2.
  set (st2 := ext st1 checks l2).
  assert (trace st2 = h1 ++ checks) as Htr2 by done.
  assert (spawned KGenerate (h1 ++ checks) = spawned KGenerate (trace st))
    as Hgen.
  { rewrite spawned_app, Hgen1.
    rewrite (spawned_none [KShow] KGenerate checks);
      [|apply show_events_of_kind
       |rewrite not_elem_of_cons; split;
          [discriminate|apply not_elem_of_nil]].
    by rewrite !app_nil_r. }
  assert (spawned KShow (h1 ++ checks) = spawned KShow (trace st) ++ checks)
    as Hshow.
  { rewrite spawned_app, Hshow1. f_equal. apply spawned_show_events. }
  destruct missing as [|m ms] eqn:Hm.
  - unfold bind at 1, log at 1.
    match goal with
    | |- context [bind (run_bst_to_lorry _ _ _ _ _ _ _) _ ?s] =>
        set (st3 := s)
    end.
    destruct (run_bst_to_lorry_eq env elements git_dir raw_files_dir
                exclude_aliases clone_dest lorry2 st3) as (l3 & E3).
    change (trace st3) with (h1 ++ checks) in E3.
    fold generate in E3.
    change (exit_ok env (h1 ++ checks)
              (bst_to_lorry_command elements git_dir raw_files_dir
                 exclude_aliases lorry2) (Some clone_dest))
      with (succeeded generate) in E3.
    unfold bind at 1. rewrite E3.
    assert (trace (ext st3 [generate] l3) = h1 ++ checks ++ [generate])
      as Htr3.
    { cbn [trace ext]. change (trace st3) with (h1 ++ checks).
      by rewrite <- app_assoc. }
    assert (spawned KGenerate (h1 ++ checks ++ [generate])
            = spawned KGenerate (trace st) ++ [generate]) as Hgen'.
    { rewrite app_assoc, spawned_app, Hgen. reflexivity. }
    assert (spawned KShow (h1 ++ checks ++ [generate])
            = spawned KShow (trace st) ++ checks) as Hshow'.
    { rewrite app_assoc, spawned_app, Hshow.
      rewrite (spawned_none [KGenerate] KShow [generate]);
        [by rewrite app_nil_r| |].
      - apply Forall_cons_2; [|done]. unfold generate, run_event, of_kinds.
        rewrite kind_generate. by left.
      - rewrite not_elem_of_cons. split; [discriminate|apply not_elem_of_nil]. }
    destruct (succeeded generate); cbn [negb].
    + unfold ret. eexists. split_and!; [reflexivity|exact Htr3| | | |done].
      * apply show_events_commands.
      * by rewrite Htr3.
      * by rewrite Htr3.
    + unfold bind, log, ret. eexists.
      split_and!; [reflexivity|exact Htr3| | | |done].
      * apply show_events_commands.
      * cbn [trace]. by rewrite Htr3.
      * cbn [trace]. by rewrite Htr3.
  - unfold bind, log, ret. eexists.
    split_and!; [reflexivity| | | | |].
    + cbn [trace]. by rewrite Htr2, app_nil_r.
    + apply show_events_commands.
    + cbn [trace]. by rewrite Htr2.
    + cbn [trace]. by rewrite Htr2, Hgen, app_nil_r.
    + intros _ _. cbn [logs]. apply last_snoc.
Qed.

Lemma process_branch_all_or_nothing_witness :
  let env := Script.world [KShow] "" in
  let st := initial in
  let checkout :=
    run_event env (trace st)
      (git_command "/tmp/tmp0000/repo" ["checkout"; "main"]) None in
  let h1 := trace st ++ [checkout] in
  let checks := show_events env h1 "/tmp/tmp0000/repo" ["elemA"; "elemB"] in
  let missing := failing_elements ["elemA"; "elemB"] checks in
  let generate :=
    run_event env (h1 ++ checks)
      (bst_to_lorry_command ["elemA"; "elemB"] "gits" "files" [] false)
      (Some "/tmp/tmp0000/repo") in
  let checked := if succeeded checkout then checks else [] in
  let generated :=
    if succeeded checkout
    then match missing with [] => [generate] | _ => [] end
    else [] in
  succeeded checkout = true
  ∧ missing = ["elemA"; "elemB"]
  ∧ ∃ st',
      process_branch env "https://example/repo.git" "main" ["elemA"; "elemB"]
        "/tmp/tmp0000/repo" "gits" "files" [] false st
      = (Ok (if succeeded checkout
             then match missing with
                  | [] => succeeded generate
                  | _ => false
                  end
             else false), st')
      ∧ trace st' = h1 ++ checked ++ generated
      ∧ map (λ e, match e with
                  | Spawn c cwd _ => Some (c, cwd)
                  | _ => None
                  end) checks
        = map (λ element,
                 Some (bst_show_command element, Some "/tmp/tmp0000/repo"))
            ["elemA"; "elemB"]
      ∧ spawned KShow (trace st') = spawned KShow (trace st) ++ checked
      ∧ spawned KGenerate (trace st')
        = spawned KGenerate (trace st) ++ generated
      ∧ (succeeded checkout = true → missing ≠ [] →
         last (logs st')
         = Some (mkLog ERROR
                   "Required elements not found in branch %s of repo %s: %s"
                   [AStr "main"; AStr "https://example/repo.git";
                    AList missing])).
Proof.
  intros env st checkout h1 checks missing generate checked generated.
  split; [reflexivity|]. split; [vm_compute; reflexivity|].
  apply (process_branch_all_or_nothing env "https://example/repo.git" "main"
           ["elemA"; "elemB"] "/tmp/tmp0000/repo" "gits" "files" [] false
           st).
Defined.

(** C6 as stated fails: when the checkout of the branch fails,
    [process_branch] checks no element at all, and with an empty element
    list (nothing can be missing) it still does not run the generator. *)
Lemma failed_checkout_skips_checks_and_generator :
  let env := Script.world [KCheckout] "" in
  let run elements :=
    process_branch env "https://example/repo.git" "main" elements
      "/tmp/tmp0000/repo" "gits" "files" [] false initial in
  fst (run []) = Ok false
  ∧ spawned KGenerate (trace (snd (run []))) = []
  ∧ fst (run ["elemA"]) = Ok false
  ∧ spawned KShow (trace (snd (run ["elemA"]))) = []
  ∧ spawned KGenerate (trace (snd (run ["elemA"]))) = [].
Proof. vm_compute. done. Qed.

(** ** C7: the generator's argument list *)

Lemma refspecs_not_among_aliases (exclude_aliases : list string) :
  "--refspecs" ∉ exclude_aliases →
  "--refspecs" ∉ flat_map (λ alias, ["--exclude-alias"; alias]) exclude_aliases.
Proof.
  induction exclude_aliases as [|a rest IH]; [done|].
  rewrite not_elem_of_cons. intros [Ha Hrest]. cbn [flat_map app].
  rewrite !not_elem_of_cons. split_and!; [discriminate|done|by apply IH].
Qed.

Lemma length_alias_flags (exclude_aliases : list string) :
  length (flat_map (λ alias, ["--exclude-alias"; alias]) exclude_aliases)
  = 2 * length exclude_aliases.
Proof.
  induction exclude_aliases as [|a rest IH]; [done|].
  cbn [flat_map app length]. rewrite IH. lia.
Qed.

(** C7, as amended.  The argument list names the elements, the two output
    directories and one [--exclude-alias] flag per excluded alias, and it
    carries the format flag [--refspecs] exactly when the lorry2 format is
    not selected, which is the default ([lorry2 = False], no [--lorry2]
    option); when the lorry2 format is selected no format flag is added. *)
Theorem format_flag_unless_lorry2 (elements : list string)
    (git_dir raw_files_dir : string) (exclude_aliases : list string)
    (lorry2 : bool) :
  let command :=
    bst_to_lorry_command elements git_dir raw_files_dir exclude_aliases
      lorry2 in
  command
  = ["bst-to-lorry"] ++ elements
    ++ ["--git-directory"; git_dir; "--raw-files-directory"; raw_files_dir]
    ++ (if lorry2 then [] else ["--refspecs"])
    ++ flat_map (λ alias, ["--exclude-alias"; alias]) exclude_aliases
  ∧ length command
    = 5 + length elements + (if lorry2 then 0 else 1)
      + 2 * length exclude_aliases
  ∧ (if lorry2
     then "--refspecs" ∉ elements → git_dir ≠ "--refspecs" →
          raw_files_dir ≠ "--refspecs" → "--refspecs" ∉ exclude_aliases →
          "--refspecs" ∉ command
     else command !! (5 + length elements) = Some "--refspecs")
  ∧ Cli.lorry2 Cli.default_args = false.
Proof.
  intros command.
  assert (command
          = ["bst-to-lorry"] ++ elements
            ++ ["--git-directory"; git_dir; "--raw-files-directory";
                raw_files_dir]
            ++ (if lorry2 then [] else ["--refspecs"])
            ++ flat_map (λ alias, ["--exclude-alias"; alias]) exclude_aliases)
    as Hshape.
  { unfold command, bst_to_lorry_command. destruct lorry2; cbn [negb];
      by rewrite <- !app_assoc. }
  pose proof (length_alias_flags exclude_aliases) as Hlen.
  split_and!; [exact Hshape| | |reflexivity].
  - rewrite Hshape, !length_app, Hlen. destruct lorry2; cbn [length]; lia.
  - rewrite Hshape. destruct lorry2.
    + intros He Hg Hr Ha. cbn [app].
      rewrite not_elem_of_cons, not_elem_of_app, !not_elem_of_cons.
      split_and!; try done; try discriminate; try congruence.
      by apply refspecs_not_among_aliases.
    + rewrite <- Hshape. unfold command, bst_to_lorry_command.
      apply list_lookup_middle. rewrite !length_app. cbn [length]. lia.
Qed.

(** C7 as stated fails: with every option at its default, the format in
    effect is the default one and the argument list carries the format
    flag. *)
Lemma default_format_carries_flag :
  let a := Cli.default_args in
  bst_to_lorry_command ["elemA"] (Cli.git_directory a)
    (Cli.raw_files_directory a) (Cli.exclude_alias a) (Cli.lorry2 a)
  = ["bst-to-lorry"; "elemA"; "--git-directory"; "gits";
     "--raw-files-directory"; "files"; "--refspecs";
     "--exclude-alias"; "fdsdk_git"; "--exclude-alias"; "fdsdk_mirror"]
  ∧ "--refspecs"
    ∈ bst_to_lorry_command ["elemA"] (Cli.git_directory a)
        (Cli.raw_files_directory a) (Cli.exclude_alias a) (Cli.lorry2 a).
Proof. split; [reflexivity|]. cbn. set_solver. Qed.

(** ** C8: the clone *)

(** What [clone_repo] hands to its block: [(True, dest)] when the clone
    succeeds and [(False, None)] when it fails, never an exception; the
    temporary directory is created before and removed after the block. *)
Lemma clone_repo_yields {A} env url (body : bool → option string → M A) st :
  let tmpdir := mkdtemp env (trace st) in
  let dest := path_join tmpdir (repo_name url) in
  let clone :=
    run_event env (trace st ++ [TempDirCreated tmpdir])
      (git_command (getcwd env) ["clone"; url; dest]) None in
  ∃ l,
    clone_repo env url body st
    = let '(r, st') :=
        body (succeeded clone) (if succeeded clone then Some dest else None)
          (ext st [TempDirCreated tmpdir; clone] l) in
      (r, emit (TempDirRemoved tmpdir) st').
Proof.
  intros tmpdir dest clone.
  unfold clone_repo, finally. fold tmpdir. fold dest.
  set (st0 := emit (TempDirCreated tmpdir) st).
  destruct (run_git_eq env ["clone"; url; dest] None false
              (Some ("Failed to clone repository: " +:+ url)) false st0)
    as (l1 & E1).
  change (trace st0) with (trace st ++ [TempDirCreated tmpdir]) in E1.
  change (default (getcwd env) None) with (getcwd env) in E1.
  fold clone in E1.
  change (exit_ok env (trace st ++ [TempDirCreated tmpdir])
            (git_command (getcwd env) ["clone"; url; dest]) None)
    with (succeeded clone) in E1.
  unfold bind at 1, try_except, bind at 1. rewrite E1.
  destruct (succeeded clone).
  - exists (l1 ++ [mkLog INFO "Cloned %s to %s" [AStr url; AStr dest]]).
    unfold bind at 1, log at 1, ret at 1. cbn [fst snd].
    subst st0. rewrite emit_ext.
    match goal with
    | |- (let '(_, _) := body _ _ ?s1 in _) = (let '(_, _) := body _ _ ?s2 in _)
      => replace s1 with s2; [done|]
    end.
    unfold ext. cbn [trace logs]. f_equal; by rewrite <- ?app_assoc.
  - exists l1. unfold ret. cbn [fst snd]. subst st0.
    by rewrite emit_ext, ext_ext.
Qed.

(** C8 at the failing input.  The final path segment of the URL is
    [octo.github.io.git]; stripping the [.git] suffix gives
    [octo.github.io], but [str.replace] removes the occurrence inside the
    name as well, and the repository is cloned into [.../octohub.io]. *)
Theorem repo_name_removes_inner_dot_git :
  let url := "https://github.com/octo/octo.github.io.git" in
  let env := Script.world [] "" in
  PyStr.last_item (PyStr.split "/" url) = "octo.github.io.git"
  ∧ PyStr.removesuffix "octo.github.io.git" ".git" = "octo.github.io"
  ∧ repo_name url = "octohub.io"
  ∧ spawned KClone
      (trace (snd (process_repo env url [] "gits" "files" [] "main" false
                     initial)))
    = [Spawn (git_command "/work/mirroring-config"
                ["clone"; url; "/tmp/tmp0000/octohub.io"])
         None (mkProc 0 "" "")].
Proof. vm_compute. done. Qed.

(** Where no [.git] occurs inside the name, the name is what the
    specification says. *)
Example repo_name_plain :
  repo_name "https://example/repo.git" = "repo"
  ∧ repo_name "https://example/group/repo" = "repo"
  ∧ repo_name "git@example:group/repo.git" = "repo".
Proof. vm_compute. done. Qed.

(** ** C9: cleaning up automation branches *)

Section Cleanup.

Import Regex Gitlab.

Lemma fullmatch_py_match r s : fullmatch r s = true → py_match r s = true.
Proof. unfold py_match. by intros ->. Qed.

Example branch_regex_examples :
  fullmatch branch_regex "update-mirrors/main/20240102030405" = true
  ∧ fullmatch branch_regex "update-mirrors/main/" = false
  ∧ fullmatch branch_regex "update-mirrors//2024" = false
  ∧ fullmatch branch_regex "update-mirrors/release/24.08/2024" = false
  ∧ fullmatch branch_regex "xupdate-mirrors/main/2024" = false
  ∧ fullmatch branch_regex "update-mirrors/main/2024x" = false
  ∧ py_match branch_regex ("update-mirrors/main/2024" +:+ nl) = true
  ∧ py_match branch_regex ("update-mirrors/main/2024" +:+ nl +:+ nl) = false.
Proof. vm_compute. done. Qed.

Lemma delete_call_iff (project : Project) (b : string) :
  DeleteBranch b ∈ (cleanup_branches project).2
  ↔ b ∈ branches project ∧ fullmatch branch_regex b = true
    ∧ ¬ ∃ mr, mr ∈ mergerequests project ∧ state mr = "opened"
              ∧ py_match branch_regex (source_branch mr) = true
              ∧ source_branch mr = b.
Proof.
  unfold cleanup_branches. cbn [snd].
  rewrite elem_of_app, !elem_of_cons, elem_of_nil, list_elem_of_fmap.
  split.
  - intros [[?|[?|[?|[]]]]|(b' & [= <-] & Hb)]; try discriminate.
    apply elem_of_elements, elem_of_difference in Hb as [Hin Hout].
    apply elem_of_list_to_set, list_elem_of_In, filter_In in Hin
      as [Hin Hm].
    split_and!; [by apply list_elem_of_In|done|].
    intros (mr & Hmr & Hst & Hpy & Hsrc). apply Hout.
    apply elem_of_list_to_set, list_elem_of_In, in_map_iff.
    exists mr. split; [done|]. apply filter_In. split; [|done].
    apply filter_In. split; [by apply list_elem_of_In|].
    by apply String.eqb_eq.
  - intros (Hin & Hm & Hno). right. exists b. split; [done|].
    apply elem_of_elements, elem_of_difference. split.
    + apply elem_of_list_to_set, list_elem_of_In, filter_In.
      split; [by apply list_elem_of_In|done].
    + intros Hopen.
      apply elem_of_list_to_set, list_elem_of_In, in_map_iff in Hopen
        as (mr & Hsrc & Hmr).
      apply filter_In in Hmr as [Hmr Hpy].
      apply filter_In in Hmr as [Hmr Hst].
      apply Hno. exists mr.
      split_and!; [by apply list_elem_of_In|by apply String.eqb_eq
                  |done|done].
Qed.


End Cleanup.

(** ** Strings *)

Lemma app_String c a b : String c a +:+ b = String c (a +:+ b).
Proof. reflexivity. Qed.

Lemma str_app_nil_r (s : string) : s +:+ "" = s.
Proof. induction s as [|c s IH]; [done|]. by rewrite app_String, IH. Qed.

Lemma str_app_assoc (a b c : string) : (a +:+ b) +:+ c = a +:+ (b +:+ c).
Proof. induction a as [|x a IH]; [done|]. by rewrite !app_String, IH. Qed.

Lemma truthy_rev_app a b :
  PyStr.truthy (String.rev_app a b) = PyStr.truthy a || PyStr.truthy b.
Proof.
  revert b. induction a as [|c a IH]; intros b; [done|].
  cbn [String.rev_app]. rewrite IH. cbn [PyStr.truthy]. by rewrite orb_true_r.
Qed.

Lemma all_chars_rev_app p a b :
  PyStr.all_chars p (String.rev_app a b)
  = PyStr.all_chars p a && PyStr.all_chars p b.
Proof.
  revert b. induction a as [|c a IH]; intros b; [done|].
  cbn [String.rev_app]. rewrite IH. cbn [PyStr.all_chars].
  destruct (p c), (PyStr.all_chars p a); done.
Qed.

Lemma truthy_lstrip s :
  PyStr.truthy (PyStr.lstrip s) = negb (PyStr.all_chars PyStr.is_space s).
Proof.
  induction s as [|c s IH]; [done|]. cbn [PyStr.lstrip PyStr.all_chars].
  by destruct (PyStr.is_space c).
Qed.

Lemma all_space_lstrip s :
  PyStr.all_chars PyStr.is_space (PyStr.lstrip s)
  = PyStr.all_chars PyStr.is_space s.
Proof.
  induction s as [|c s IH]; [done|]. cbn [PyStr.lstrip PyStr.all_chars].
  destruct (PyStr.is_space c) eqn:E; [done|].
  cbn [PyStr.all_chars]. by rewrite E.
Qed.

(** [s.strip()] is empty exactly when [s] is made of white space. *)
Lemma truthy_strip s :
  PyStr.truthy (PyStr.strip s) = negb (PyStr.all_chars PyStr.is_space s).
Proof.
  unfold PyStr.strip, PyStr.rstrip, String.rev.
  rewrite truthy_rev_app, orb_false_r, truthy_lstrip.
  by rewrite all_chars_rev_app, andb_true_r, all_space_lstrip.
Qed.

(** *** [split] *)

Lemma split_nonempty sep s : PyStr.split sep s ≠ [].
Proof.
  destruct s as [|c s]; [done|]. cbn [PyStr.split].
  destruct (Ascii.eqb c sep); [done|]. by destruct (PyStr.split sep s).
Qed.

Lemma split_pieces sep s :
  Forall (λ x, PyStr.all_chars (λ c, negb (Ascii.eqb c sep)) x = true)
    (PyStr.split sep s).
Proof.
  induction s as [|c s IH]; [by repeat constructor|].
  cbn [PyStr.split]. destruct (Ascii.eqb c sep) eqn:E.
  - by constructor.
  - destruct (PyStr.split sep s) as [|h t]; [by repeat constructor; cbn; rewrite E|].
    inversion IH as [|? ? Hh Ht]; subst. constructor; [|done].
    cbn [PyStr.all_chars]. by rewrite E, Hh.
Qed.

Lemma last_item_in l : l ≠ [] → PyStr.last_item l ∈ l.
Proof.
  unfold PyStr.last_item. induction l as [|x l IH]; [done|]. intros _.
  destruct l as [|y l]; [by left|]. right. by apply IH.
Qed.

Lemma split_app sep a b :
  PyStr.split sep (a +:+ String sep b) = PyStr.split sep a ++ PyStr.split sep b.
Proof.
  induction a as [|c a IH].
  { change ("" +:+ String sep b) with (String sep b). cbn [PyStr.split].
    by rewrite Ascii.eqb_refl. }
  rewrite app_String. cbn [PyStr.split]. rewrite IH.
  pose proof (split_nonempty sep a) as Hne.
  destruct (Ascii.eqb c sep); [done|].
  by destruct (PyStr.split sep a).
Qed.

Lemma split_whole sep b :
  PyStr.all_chars (λ c, negb (Ascii.eqb c sep)) b = true →
  PyStr.split sep b = [b].
Proof.
  induction b as [|c b IH]; [done|]. cbn [PyStr.all_chars]. intros Hb.
  apply andb_true_iff in Hb as [Hc Hb]. cbn [PyStr.split].
  apply negb_true_iff in Hc. by rewrite Hc, (IH Hb).
Qed.

Lemma last_item_app l x : PyStr.last_item (l ++ [x]) = x.
Proof. unfold PyStr.last_item. apply last_last. Qed.

(** *** [replace] *)

Lemma prefix_cons a s1 b s2 :
  String.prefix (String a s1) (String b s2)
  = Ascii.eqb a b && String.prefix s1 s2.
Proof.
  cbn [String.prefix]. destruct (ascii_dec a b) as [->|N].
  - by rewrite Ascii.eqb_refl.
  - by apply Ascii.eqb_neq in N as ->.
Qed.

Lemma prefix_nil s : String.prefix "" s = true.
Proof. by destruct s. Qed.

Lemma all_chars_replace_from p old k s :
  PyStr.all_chars p s = true →
  PyStr.all_chars p (PyStr.replace_from old "" k s) = true.
Proof.
  revert k. induction s as [|c s IH]; intros k; [done|].
  cbn [PyStr.all_chars PyStr.replace_from]. intros Hs.
  apply andb_true_iff in Hs as [Hc Hs].
  destruct k as [|k]; [|by apply IH].
  destruct (String.prefix old (String c s)).
  - change ("" +:+ ?x) with x. by apply IH.
  - cbn [PyStr.all_chars]. by rewrite Hc, IH.
Qed.

Lemma str_contains_tail sub c s :
  str_contains sub (String c s) = false → str_contains sub s = false.
Proof. cbn [str_contains]. by destruct (String.prefix sub (String c s)). Qed.

Lemma str_contains_head sub s :
  str_contains sub s = false → String.prefix sub s = false.
Proof. destruct s; cbn [str_contains]; by destruct (String.prefix sub _). Qed.

(** Without an occurrence there is nothing to replace. *)
Lemma replace_absent old new s :
  str_contains old s = false → PyStr.replace old new s = s.
Proof.
  unfold PyStr.replace. induction s as [|c s IH]; [done|]. intros Hs.
  cbn [PyStr.replace_from]. rewrite (str_contains_head _ _ Hs).
  by rewrite (IH (str_contains_tail _ _ _ Hs)).
Qed.

Lemma replace_from_skip old new k s :
  PyStr.replace_from old new (String.length s + k) s = ""
  ∧ PyStr.replace_from old new (String.length s) s = "".
Proof.
  revert k. induction s as [|c s IH]; intros k; [done|].
  cbn [String.length Nat.add PyStr.replace_from]. split; [apply IH|].
  apply (IH 0).
Qed.

(** A [.git] suffix after a name without [.git] is the one occurrence. *)
Lemma replace_dot_git_suffix name :
  str_contains ".git" name = false →
  PyStr.replace ".git" "" (name +:+ ".git") = name.
Proof.
  unfold PyStr.replace. induction name as [|c s IH]; [done|]. intros Hs.
  rewrite app_String. cbn [PyStr.replace_from].
  assert (String.prefix ".git" (String c (s +:+ ".git")) = false) as ->.
  { pose proof (str_contains_head _ _ Hs) as Hp.
    destruct s as [|c1 [|c2 [|c3 s]]];
      rewrite ?app_String; change ("" +:+ ".git") with ".git";
      rewrite ?prefix_cons, ?prefix_nil in Hp |- *;
      repeat match goal with
             | |- context [Ascii.eqb ?a ?v] =>
                 is_var v; destruct (Ascii.eqb a v)
             end; cbn [andb] in Hp |- *; first [done|reflexivity]. }
  by rewrite (IH (str_contains_tail _ _ _ Hs)).
Qed.

Lemma no_slash_app a b : no_slash (a +:+ b) = no_slash a && no_slash b.
Proof.
  unfold no_slash. induction a as [|c a IH]; [done|].
  rewrite app_String. cbn [PyStr.all_chars]. by rewrite IH, andb_assoc.
Qed.

Lemma repo_name_segment prefix segment :
  no_slash segment = true →
  repo_name (prefix +:+ "/" +:+ segment) = PyStr.replace ".git" "" segment.
Proof.
  intros Hs. unfold repo_name.
  change ("/" +:+ segment) with (String "/" segment).
  by rewrite split_app, (split_whole _ _ Hs), last_item_app.
Qed.

(** X1.  The clone directory is named after the last path segment of the
    URL: for a URL [<prefix>/<name>.git] or [<prefix>/<name>] whose
    [<name>] holds neither a slash nor [.git], it is [<name>]. *)
Theorem repo_name_of_plain_url prefix name :
  no_slash name = true →
  str_contains ".git" name = false →
  repo_name (prefix +:+ "/" +:+ name +:+ ".git") = name
  ∧ repo_name (prefix +:+ "/" +:+ name) = name.
Proof.
  intros Hs Hg. split.
  - rewrite repo_name_segment; [by apply replace_dot_git_suffix|].
    by rewrite no_slash_app, Hs.
  - rewrite repo_name_segment; [by apply replace_absent|done].
Qed.

Lemma repo_name_of_plain_url_witness :
  no_slash "freedesktop-sdk" = true
  ∧ str_contains ".git" "freedesktop-sdk" = false
  ∧ repo_name ("https://gitlab.com/freedesktop-sdk" +:+ "/"
               +:+ "freedesktop-sdk" +:+ ".git") = "freedesktop-sdk"
  ∧ repo_name ("https://gitlab.com/freedesktop-sdk" +:+ "/"
               +:+ "freedesktop-sdk") = "freedesktop-sdk".
Proof.
  split; [reflexivity|]. split; [reflexivity|].
  apply (repo_name_of_plain_url "https://gitlab.com/freedesktop-sdk"
           "freedesktop-sdk"); reflexivity.
Defined.

Lemma no_slash_repo_name url : no_slash (repo_name url) = true.
Proof.
  unfold repo_name, PyStr.replace, no_slash.
  apply all_chars_replace_from.
  pose proof (split_pieces "/" url) as Hp.
  pose proof (last_item_in _ (split_nonempty "/" url)) as Hin.
  by apply (proj1 (Forall_forall _ _) Hp).
Qed.

(** X2.  Whatever the URL, the name of the clone directory holds no slash,
    so the destination of the clone is the temporary directory itself (for
    an empty name or a single dot, as with a URL that ends in a slash) or
    the temporary directory with that one component appended. *)
Theorem clone_destination_under_tempdir (tmpdir url : string) :
  let name := repo_name url in
  let dest := path_join tmpdir name in
  no_slash name = true
  ∧ (if String.eqb name "" || String.eqb name "." then dest = tmpdir
     else dest = tmpdir +:+ "/" +:+ name).
Proof.
  intros name dest. split; [apply no_slash_repo_name|].
  unfold dest, path_join. by destruct (String.eqb name "" || String.eqb name ".").
Qed.

(** ** The clean-up pattern *)

Section Pattern.

Import Regex Gitlab.

Lemma fullmatch_Void s : fullmatch Void s = false.
Proof. induction s; [done|]. cbn [fullmatch deriv]. done. Qed.

Lemma fullmatch_Alt r1 r2 s :
  fullmatch (Alt r1 r2) s = fullmatch r1 s || fullmatch r2 s.
Proof.
  revert r1 r2. induction s as [|c s IH]; intros r1 r2; [done|].
  cbn [fullmatch deriv]. apply IH.
Qed.

Lemma fullmatch_Eps s : fullmatch Eps s = bool_decide (s = "").
Proof. destruct s; [done|]. cbn [fullmatch deriv]. by rewrite fullmatch_Void. Qed.

(** Matching a concatenation is matching the two parts of some split. *)
Lemma fullmatch_Cat r1 r2 s :
  fullmatch (Cat r1 r2) s = true
  ↔ ∃ s1 s2, s = s1 +:+ s2 ∧ fullmatch r1 s1 = true ∧ fullmatch r2 s2 = true.
Proof.
  revert r1 r2. induction s as [|c s IH]; intros r1 r2.
  - cbn [fullmatch nullable]. rewrite andb_true_iff. split.
    + intros [H1 H2]. by exists "", "".
    + intros (s1 & s2 & E & H1 & H2). destruct s1; [|done].
      change ("" +:+ s2) with s2 in E. by subst.
  - cbn [fullmatch deriv]. split.
    + intros H.
      assert (fullmatch (Cat (deriv c r1) r2) s = true
              ∨ (nullable r1 = true ∧ fullmatch (deriv c r2) s = true))
        as [H1|[Hn H2]].
      { destruct (nullable r1); [|by left].
        rewrite fullmatch_Alt in H. apply orb_true_iff in H as [H|H]; auto. }
      * apply IH in H1 as (s1 & s2 & -> & H1 & H2).
        by exists (String c s1), s2.
      * by exists "", (String c s).
    + intros (s1 & s2 & E & H1 & H2). destruct s1 as [|c1 s1].
      * change ("" +:+ s2) with s2 in E. subst s2.
        cbn [fullmatch] in H1, H2. rewrite H1, fullmatch_Alt, H2.
        apply orb_true_r.
      * rewrite app_String in E. injection E as <- ->.
        cbn [fullmatch] in H1.
        assert (fullmatch (Cat (deriv c r1) r2) (s1 +:+ s2) = true) as H.
        { apply IH. by exists s1, s2. }
        destruct (nullable r1); [|done]. by rewrite fullmatch_Alt, H.
Qed.

Lemma fullmatch_Chr p s :
  fullmatch (Chr p) s = true ↔ ∃ c, s = String c "" ∧ p c = true.
Proof.
  destruct s as [|c s]; cbn [fullmatch deriv nullable].
  - split; [done|]. by intros (c & ? & _).
  - destruct (p c) eqn:E.
    + rewrite fullmatch_Eps, bool_decide_eq_true. split.
      * intros ->. by exists c.
      * by intros (c' & [= -> ->] & _).
    + rewrite fullmatch_Void. split; [done|].
      intros (c' & [= -> ->] & Hp). by rewrite Hp in E.
Qed.

Lemma fullmatch_lit t s : fullmatch (lit t) s = true ↔ s = t.
Proof.
  revert s. induction t as [|c t IH]; intros s; cbn [lit].
  - by rewrite fullmatch_Eps, bool_decide_eq_true.
  - rewrite fullmatch_Cat. split.
    + intros (s1 & s2 & -> & H1 & H2).
      apply fullmatch_Chr in H1 as (c' & -> & Hc).
      apply Ascii.eqb_eq in Hc as <-. apply IH in H2 as ->. done.
    + intros ->. exists (String c ""), t. split_and!; [done| |by apply IH].
      apply fullmatch_Chr. exists c. by rewrite Ascii.eqb_refl.
Qed.

Lemma fullmatch_Star_Chr p s :
  fullmatch (Star (Chr p)) s = PyStr.all_chars p s.
Proof.
  induction s as [|c s IH]; [done|].
  cbn [fullmatch deriv PyStr.all_chars]. destruct (p c); cbn [andb].
  - destruct s as [|c' s']; [done|].
    cbn [fullmatch deriv nullable] in IH |- *.
    rewrite fullmatch_Alt.
    change (deriv c' Eps) with Void.
    assert (fullmatch (Cat Void (Star (Chr p))) s' = false) as ->; [|done].
    apply not_true_iff_false. rewrite fullmatch_Cat.
    intros (? & ? & _ & H & _). by rewrite fullmatch_Void in H.
  - apply not_true_iff_false. rewrite fullmatch_Cat.
    intros (? & ? & _ & H & _). by rewrite fullmatch_Void in H.
Qed.

(** One or more characters of a class. *)
Lemma fullmatch_plus_Chr p s :
  fullmatch (plus (Chr p)) s = PyStr.truthy s && PyStr.all_chars p s.
Proof.
  destruct s as [|c s]; [done|].
  unfold plus. cbn [fullmatch deriv nullable PyStr.truthy PyStr.all_chars andb].
  destruct (p c).
  - destruct (fullmatch (Cat Eps (Star (Chr p))) s) eqn:E.
    + apply fullmatch_Cat in E as (s1 & s2 & -> & H1 & H2).
      rewrite fullmatch_Eps, bool_decide_eq_true in H1. subst s1.
      by rewrite fullmatch_Star_Chr in H2.
    + symmetry. apply not_true_iff_false. intros H.
      apply not_true_iff_false in E. apply E, fullmatch_Cat.
      exists "", s. by rewrite fullmatch_Star_Chr.
  - apply not_true_iff_false. rewrite fullmatch_Cat.
    intros (? & ? & _ & H & _). by rewrite fullmatch_Void in H.
Qed.

Lemma digits_no_slash t :
  PyStr.all_chars PyStr.is_digit t = true → no_slash t = true.
Proof.
  unfold no_slash. induction t as [|c t IH]; [done|].
  cbn [PyStr.all_chars]. intros H. apply andb_true_iff in H as [Hc Ht].
  rewrite (IH Ht), andb_true_r.
  destruct (Ascii.eqb_spec c "/") as [->|]; [done|done].
Qed.

(** A name splits at its last slash in one way only. *)
Lemma split_last_slash a b a' b' :
  no_slash b = true → no_slash b' = true →
  a +:+ String "/" b = a' +:+ String "/" b' → a = a' ∧ b = b'.
Proof.
  intros Hb Hb'. revert a'. induction a as [|c a IH]; intros [|c' a'].
  - by intros [= ->].
  - change ("" +:+ ?x) with x. rewrite app_String. intros [= <- ->].
    rewrite no_slash_app in Hb. by rewrite andb_false_r in Hb.
  - change ("" +:+ ?x) with x. rewrite app_String. intros [= -> <-].
    rewrite no_slash_app in Hb'. by rewrite andb_false_r in Hb'.
  - rewrite !app_String. intros [= -> E]. by destruct (IH _ E) as [-> ->].
Qed.

(** The names the pattern [^update-mirrors/([^/]+)/(\d+)$] matches. *)
Lemma branch_regex_language s :
  fullmatch branch_regex s = true
  ↔ ∃ b t, s = "update-mirrors/" +:+ b +:+ "/" +:+ t
           ∧ b ≠ "" ∧ no_slash b = true
           ∧ t ≠ "" ∧ PyStr.all_chars PyStr.is_digit t = true.
Proof.
  unfold branch_regex. rewrite fullmatch_Cat. split.
  - intros (s0 & s1 & -> & H0 & H1). apply fullmatch_lit in H0 as ->.
    apply fullmatch_Cat in H1 as (b & s2 & -> & Hb & H2).
    apply fullmatch_Cat in H2 as (sl & t & -> & Hsl & Ht).
    apply fullmatch_Chr in Hsl as (c & -> & Hc).
    apply Ascii.eqb_eq in Hc as <-.
    rewrite fullmatch_plus_Chr in Hb, Ht.
    apply andb_true_iff in Hb as [Hb1 Hb2].
    apply andb_true_iff in Ht as [Ht1 Ht2].
    exists b, t. split_and!; [done|by destruct b|done|by destruct t|done].
  - intros (b & t & -> & Hb1 & Hb2 & Ht1 & Ht2).
    exists "update-mirrors/", (b +:+ "/" +:+ t).
    split_and!; [done|by apply fullmatch_lit|].
    apply fullmatch_Cat. exists b, ("/" +:+ t). split_and!; [done| |].
    + rewrite fullmatch_plus_Chr. fold (no_slash b). rewrite Hb2.
      by destruct b.
    + apply fullmatch_Cat. exists "/", t. split_and!; [done| |].
      * apply fullmatch_Chr. by exists "/"%char.
      * rewrite fullmatch_plus_Chr, Ht2. by destruct t.
Qed.

(** X3.  The pattern [^update-mirrors/([^/]+)/(\d+)$] by which
    [cleanup_branches] selects branches matches exactly the names
    [update-mirrors/<b>/<t>] in which [<b>] is not empty and holds no slash
    and [<t>] is a non-empty run of decimal digits: a base branch with a
    slash in its name, an empty one or a suffix that is not a number keeps a
    branch out of the clean-up. *)
Theorem cleanup_pattern_language s :
  fullmatch branch_regex s = true
  ↔ ∃ b t, s = "update-mirrors/" +:+ b +:+ "/" +:+ t
           ∧ b ≠ "" ∧ no_slash b = true
           ∧ t ≠ "" ∧ PyStr.all_chars PyStr.is_digit t = true.
Proof. apply branch_regex_language. Qed.

Lemma str_app_inv_head a x y : a +:+ x = a +:+ y → x = y.
Proof.
  induction a as [|c a IH]; [done|]. rewrite !app_String.
  intros [= E]. by apply IH.
Qed.

Lemma new_branch_name_matches env base_branch h :
  fullmatch branch_regex (new_branch_name env base_branch h)
  = negb (String.eqb base_branch "") && no_slash base_branch.
Proof.
  unfold new_branch_name, branch_name_of.
  destruct (strftime_YmdHMS_digits (utcnow env h)) as [Hlen Hdig].
  set (ts := strftime_YmdHMS (utcnow env h)) in *.
  apply Bool.eq_iff_eq_true.
  rewrite branch_regex_language, andb_true_iff, negb_true_iff.
  split.
  - intros (b & t & E & Hb1 & Hb2 & Ht1 & Ht2).
    apply str_app_inv_head in E.
    change ("/" +:+ ?x) with (String "/" x) in E.
    apply split_last_slash in E as [-> ->];
      [|by apply digits_no_slash..].
    split; [|done]. by apply String.eqb_neq.
  - intros [Hb1 Hb2]. exists base_branch, ts.
    split_and!; [done|by apply String.eqb_neq|done| |done].
    by destruct ts.
Qed.

(** X4.  The name [create_branch] gives the branch it creates matches the
    pattern of [cleanup_branches] exactly when the base branch is not empty
    and holds no slash.  For any other base branch (such as
    [release/24.08]) the clean-up never deletes the created branch by
    name. *)
Theorem created_branch_and_cleanup_pattern env base_branch st :
  let name := new_branch_name env base_branch (trace st) in
  let create :=
    git_command (getcwd env) ["checkout"; "-b"; name; base_branch] in
  (∃ l,
     create_branch env base_branch st
     = (Ok (if exit_ok env (trace st) create None then Some name else None),
        ext st [run_event env (trace st) create None] l))
  ∧ fullmatch branch_regex name
    = negb (String.eqb base_branch "") && no_slash base_branch
  ∧ ∀ project,
      negb (String.eqb base_branch "") && no_slash base_branch = false →
      DeleteBranch name ∉ (cleanup_branches project).2.
Proof.
  intros name create. split_and!.
  - apply create_branch_eq.
  - apply new_branch_name_matches.
  - intros project Hbase Hdel.
    apply delete_call_iff in Hdel as (_ & Hm & _).
    unfold name in Hm. rewrite new_branch_name_matches in Hm. congruence.
Qed.

End Pattern.

(** ** The shell executor and the queries *)

Lemma stderr_text_eq command code o (capture : bool) e :
  stderr_text (mkCalled command code o (if capture then Some e else None))
  = if capture then PyStr.strip e else "".
Proof.
  unfold stderr_text. destruct capture; [|done]. cbn [e_stderr].
  by destruct e.
Qed.

(** X5.  [run_command] spawns the command once.  With [check] a non-zero
    exit status is logged in one record and raised again, never swallowed:
    the record is a warning when a message is given together with [warn],
    and an error otherwise; without a message (or with an empty one) it is
    the generic record naming the command line.  The error text of the
    record is the child's stripped stderr when the output is captured, and
    empty when it is not.  Without [check] nothing is raised or logged. *)
Theorem run_command_logs_and_reraises env command (capture : bool) cwd
    message warn st :
  let r := spawn env (trace st) command cwd in
  let o := if capture then Some (out r) else None in
  let e := if capture then Some (err r) else None in
  let record :=
    mkLog (if PyStr.truthy_opt message && warn then WARNING else ERROR)
      (if PyStr.truthy_opt message then "%s: %s"
       else "Command failed: %s" +:+ nl +:+ "Error: %s")
      [AStr (if PyStr.truthy_opt message then default "" message
             else PyStr.join " " command);
       AStr (if capture then PyStr.strip (err r) else "")] in
  run_command env command true capture cwd message warn st
  = (if (exit_code r =? 0)%Z
     then (Ok (mkCompleted command (exit_code r) o e),
           ext st [Spawn command cwd r] [])
     else (Raised (mkCalled command (exit_code r) o e),
           ext st [Spawn command cwd r] [record]))
  ∧ run_command env command false capture cwd message warn st
    = (Ok (mkCompleted command (exit_code r) o e),
       ext st [Spawn command cwd r] []).
Proof.
  intros r o e record.
  unfold run_command, try_except, subprocess_run. fold r. fold o. fold e.
  cbn [andb]. rewrite emit_ext. split; [|done].
  destruct (exit_code r =? 0)%Z; cbn [negb]; [done|].
  unfold record, e.
  rewrite <- (stderr_text_eq command (exit_code r) o capture (err r)).
  set (exc := mkCalled command (exit_code r) o _).
  destruct (PyStr.truthy_opt message), warn; cbn [andb negb];
    unfold bind, log, raise, ext; cbn [trace logs];
    by rewrite ?app_nil_r.
Qed.

(** X6.  [is_dirty] never raises.  It asks [git status --porcelain] once,
    restricted to the sub-directory when one is given and not empty, and
    answers [True] when the query fails (a repository it cannot inspect
    counts as dirty) and otherwise exactly when the output holds a
    character that is not white space. *)
Theorem is_dirty_fails_safe env repo_path subdir st :
  let args :=
    ["status"; "--porcelain"]
    ++ match subdir with
       | Some (String c s) => ["--"; String c s]
       | _ => []
       end in
  let command :=
    ["git"; "-c"; "credential.interactive=false"; "-C";
     default (getcwd env) repo_path] ++ args in
  let r := spawn env (trace st) command None in
  ∃ l,
    is_dirty env repo_path subdir st
    = (Ok (negb (exit_code r =? 0)%Z
           || negb (PyStr.all_chars PyStr.is_space (out r))),
       ext st [Spawn command None r] l).
Proof.
  intros args command r.
  destruct (is_dirty_eq env repo_path subdir st) as (l & E).
  exists l. rewrite E. unfold dirty_report, exit_ok, run_event.
  assert (git_command (default (getcwd env) repo_path) (status_args subdir)
          = command) as ->.
  { unfold command, args, git_command, status_args.
    by destruct subdir as [[|c s]|]. }
  fold r. rewrite truthy_strip. by destruct (exit_code r =? 0)%Z.
Qed.

(** X7.  [element_exists] never raises.  It runs [bst --no-interactive show
    --deps none -f %{name} <element>] once, inside the checkout, and
    answers whether it exited 0; a failure is logged as one warning (not an
    error) that names the element and carries no error text. *)
Theorem element_exists_warns env element path st :
  let command :=
    ["bst"; "--no-interactive"; "show"; "--deps"; "none"; "-f"; "%{name}";
     element] in
  let r := spawn env (trace st) command (Some path) in
  element_exists env element path st
  = (Ok (exit_code r =? 0)%Z,
     ext st [Spawn command (Some path) r]
       (if (exit_code r =? 0)%Z then []
        else [mkLog WARNING "%s: %s"
                [AStr ("Did not find element: " +:+ element); AStr ""]])).
Proof.
  intros command r.
  unfold element_exists, try_except, bind, run_command, try_except,
    subprocess_run, bst_show_command.
  fold command. fold r. cbn [andb]. rewrite emit_ext.
  destruct (exit_code r =? 0)%Z; cbn [negb]; [done|].
  unfold bind, log, raise, ret, ext. cbn [trace logs andb PyStr.truthy_opt].
  by rewrite app_nil_r.
Qed.

(** ** What the run adds to the history *)

(** Loops whose body keeps an invariant of the events added. *)
Lemma spec_for_each_inv {A} P (I : list Event → Prop) (xs : list A) f :
  I [] → (∀ d1 d2, I d1 → I d2 → I (d1 ++ d2)) →
  (∀ x, spec P (λ r d, (∃ b, r = Ok b) ∧ I d) (f x)) →
  spec P (λ r d, (∃ b, r = Ok b) ∧ I d) (for_each xs f).
Proof.
  intros H0 Happ Hf. induction xs as [|x xs IH]; cbn [for_each].
  - apply spec_ret. eauto.
  - eapply spec_bind; [apply Hf| |].
    + intros b d1 [_ H1]. destruct b.
      * eapply spec_weaken; [apply IH|]. intros r d2 [Hr H2]. auto.
      * apply spec_ret. rewrite app_nil_r. eauto.
    + by intros e d1 [[b ?] _].
Qed.

Lemma spec_filter_not_inv {A} P (I : list Event → Prop) (xs : list A) p :
  I [] → (∀ d1 d2, I d1 → I d2 → I (d1 ++ d2)) →
  (∀ x, spec P (λ r d, (∃ b, r = Ok b) ∧ I d) (p x)) →
  spec P (λ r d, (∃ l, r = Ok l) ∧ I d) (filter_not xs p).
Proof.
  intros H0 Happ Hp. induction xs as [|x xs IH]; cbn [filter_not].
  - apply spec_ret. eauto.
  - eapply spec_bind; [apply Hp| |].
    + intros b d1 [_ H1]. eapply spec_bind; [apply IH| |].
      * intros keep d2 [_ H2]. apply spec_ret. rewrite app_nil_r. eauto.
      * by intros e d2 [[l ?] _].
    + by intros e d1 [[b ?] _].
Qed.

Lemma known_git env h p args :
  git_kind args ≠ KOther →
  known_call (run_event env h (git_command p args) None) = true.
Proof.
  intros Hk. unfold known_call, run_event, tool_call, event_kind, kind_of.
  rewrite git_args_git_command. rewrite bool_decide_eq_true_2 by eauto.
  rewrite bool_decide_eq_false_2; [done|]. by intros [= ?].
Qed.

Lemma known_call_spawn e :
  known_call e = true → ∀ live, tempdir_step live e = live.
Proof. by destruct e. Qed.

Lemma known_call_mirroring e : known_call e = true → mirroring_event e = true.
Proof. by destruct e. Qed.

Lemma remove_one_head d live : remove_one d (d :: live) = live.
Proof. cbn [remove_one]. by rewrite String.eqb_refl. Qed.

(** The calls of a run, for a property [P] that the three kinds of command
    have as the program builds them, the generator with the directories,
    the aliases and the format of the run. *)
Section Calls.

Variable env : Env.
Variables git_dir raw_files_dir : string.
Variable exclude_aliases : list string.
Variable lorry2 : bool.
Variable P : Event → Prop.

Hypothesis P_git : ∀ h p args,
  git_kind args ≠ KOther → P (run_event env h (git_command p args) None).
Hypothesis P_show : ∀ h element dest,
  P (run_event env h (bst_show_command element) (Some dest)).
Hypothesis P_generate : ∀ h elements dest,
  P (run_event env h
       (bst_to_lorry_command elements git_dir raw_files_dir exclude_aliases
          lorry2) (Some dest)).

Local Abbreviation K := (λ e : Event, known_call e = true ∧ P e).
Local Abbreviation value :=
  (λ (A : Type) (r : Result A) (_ : list Event), ∃ a : A, r = Ok a).

(** What a run keeps: it adds only events it may add, its commands have
    the property, and the same temporary directories exist after as
    before. *)
Local Abbreviation kept :=
  (λ d : list Event,
     Forall (λ e, mirroring_event e = true ∧ (known_call e = true → P e)) d
     ∧ ∀ live, fold_left tempdir_step d live = live).

Lemma K_git h p args :
  git_kind args ≠ KOther → K (run_event env h (git_command p args) None).
Proof. intros Hk. split; [by apply known_git|by apply P_git]. Qed.

Lemma calls_checkout_branch branch repo_path :
  spec K (value _) (checkout_branch env branch repo_path).
Proof.
  intros st. destruct (checkout_branch_eq env branch repo_path st) as (l & E).
  eexists _, _, l. split_and!; [exact E| |eauto].
  constructor; [|constructor]. by apply K_git.
Qed.

Lemma calls_element_exists element dest :
  spec K (value _) (element_exists env element dest).
Proof.
  intros st. destruct (element_exists_eq env element dest st) as (l & E & _).
  eexists _, _, l. split_and!; [exact E| |eauto].
  constructor; [|constructor]. split; [reflexivity|apply P_show].
Qed.

Lemma calls_run_bst_to_lorry elements cwd :
  spec K (value _)
    (run_bst_to_lorry env elements git_dir raw_files_dir exclude_aliases
       cwd lorry2).
Proof.
  intros st.
  destruct (run_bst_to_lorry_eq env elements git_dir raw_files_dir
              exclude_aliases cwd lorry2 st) as (l & E).
  eexists _, _, l. split_and!; [exact E| |eauto].
  constructor; [|constructor]. split; [reflexivity|apply P_generate].
Qed.

Lemma calls_process_branch repo_url branch elements clone_dest :
  spec K (value _)
    (process_branch env repo_url branch elements clone_dest git_dir
       raw_files_dir exclude_aliases lorry2).
Proof.
  unfold process_branch. apply spec_after_log.
  eapply spec_bind; [apply calls_checkout_branch| |].
  2: { by intros e d [a ?]. }
  intros b d1 _. destruct b; cbn [negb]; [|apply spec_ret; eauto].
  eapply spec_bind.
  { apply (spec_filter_not_inv K (λ _, True)); [done|done|].
    intros x. eapply spec_weaken; [apply calls_element_exists|]. eauto. }
  2: { by intros e d [[a ?] _]. }
  intros missing d2 _. destruct missing as [|m ms].
  - apply spec_after_log.
    eapply spec_bind; [apply calls_run_bst_to_lorry| |].
    2: { by intros e d [a ?]. }
    intros g d3 _. destruct g; cbn [negb]; [apply spec_ret; eauto|].
    apply spec_after_log, spec_ret. eauto.
  - apply spec_after_log, spec_ret. eauto.
Qed.

Lemma calls_process_repo_body repo_url repo_config base_branch status dest :
  spec K (value _)
    (process_repo_body env repo_url repo_config git_dir raw_files_dir
       exclude_aliases base_branch lorry2 status dest).
Proof.
  unfold process_repo_body.
  destruct status, dest as [clone_dest|]; try (apply spec_ret; eauto).
  eapply spec_bind; [apply calls_checkout_branch| |].
  2: { by intros e d [a ?]. }
  intros b d1 _. destruct b; cbn [negb]; [|apply spec_ret; eauto].
  eapply spec_weaken.
  - apply (spec_for_each_inv K (λ _, True)); [done|done|].
    intros item. eapply spec_weaken; [apply calls_process_branch|]. eauto.
  - by intros r d [Hr _].
Qed.

(** The events of [process_repo]: the temporary directory is created, the
    clone and the commands of the block run, the directory is removed. *)
Lemma process_repo_bracket repo_url repo_config base_branch st :
  let tmpdir := mkdtemp env (trace st) in
  let dest := path_join tmpdir (repo_name repo_url) in
  let clone :=
    run_event env (trace st ++ [TempDirCreated tmpdir])
      (git_command (getcwd env) ["clone"; repo_url; dest]) None in
  ∃ ok d l,
    process_repo env repo_url repo_config git_dir raw_files_dir
      exclude_aliases base_branch lorry2 st
    = (Ok ok,
       ext st (TempDirCreated tmpdir :: clone :: d ++ [TempDirRemoved tmpdir])
         l)
    ∧ Forall K (clone :: d)
    ∧ (if succeeded clone then True else ok = false ∧ d = []).
Proof.
  intros tmpdir dest clone.
  destruct (clone_repo_yields env repo_url
              (process_repo_body env repo_url repo_config git_dir
                 raw_files_dir exclude_aliases base_branch lorry2) st)
    as (l0 & E0).
  cbv zeta in E0. fold tmpdir dest clone in E0.
  unfold process_repo. rewrite E0. clear E0.
  assert (K clone) as Hclone by by apply K_git.
  destruct (succeeded clone).
  - destruct (calls_process_repo_body repo_url repo_config base_branch true
                (Some dest) (ext st [TempDirCreated tmpdir; clone] l0))
      as (r & d & l & E & Hd & (ok & ->)).
    rewrite E. exists ok, d, (l0 ++ l).
    split; [|split; [by constructor|done]].
    by rewrite emit_ext, !ext_ext, app_nil_r.
  - unfold process_repo_body, ret. exists false, [], l0.
    split; [|split; [by constructor|done]].
    by rewrite emit_ext, !ext_ext, app_nil_r.
Qed.

Lemma fold_calls d :
  Forall K d → ∀ live, fold_left tempdir_step d live = live.
Proof.
  induction 1 as [|e d [He _] _ IH]; intros live; [done|].
  cbn [fold_left]. by rewrite (known_call_spawn e He), IH.
Qed.

Lemma kept_nil : kept [].
Proof. by split. Qed.

Lemma kept_app d1 d2 : kept d1 → kept d2 → kept (d1 ++ d2).
Proof.
  intros [H1 F1] [H2 F2]. split; [by apply Forall_app|].
  intros live. by rewrite fold_left_app, F1, F2.
Qed.

Lemma kept_calls d : Forall K d → kept d.
Proof.
  intros Hd. split; [|by apply fold_calls].
  eapply Forall_impl; [exact Hd|]. intros e [He Hp].
  split; [by apply known_call_mirroring|done].
Qed.

Lemma kept_process_repos mirror_config base_branch :
  spec (λ _, True) (λ r d, (∃ b, r = Ok b) ∧ kept d)
    (process_repos env mirror_config git_dir raw_files_dir exclude_aliases
       base_branch lorry2).
Proof.
  unfold process_repos.
  apply spec_for_each_inv; [apply kept_nil|apply kept_app|].
  intros item st.
  destruct (process_repo_bracket (fst item) (snd item) base_branch st)
    as (ok & d & l & E & Hd & _).
  rewrite E.
  eexists _, _, l. split; [reflexivity|].
  split; [by apply Forall_forall|]. split; [eauto|].
  pose proof (kept_calls _ Hd) as [Hall Hfold]. split.
  - apply Forall_cons_2; [done|]. rewrite app_comm_cons.
    apply Forall_app. split; [exact Hall|by repeat constructor].
  - intros live. cbn [fold_left tempdir_step]. rewrite fold_left_app.
    specialize (Hfold (mkdtemp env (trace st) :: live)).
    cbn [fold_left] in Hfold. rewrite Hfold.
    cbn [fold_left tempdir_step]. apply remove_one_head.
Qed.

Lemma calls_tracked_dirty :
  spec K (value _) (tracked_dirty env git_dir raw_files_dir).
Proof.
  intros st. destruct (tracked_dirty_eq env git_dir raw_files_dir st)
    as (l & E). cbv zeta in E.
  destruct (dirty_report env (trace st) None (Some raw_files_dir));
    eexists _, _, l; (split_and!; [exact E| |eauto]);
    repeat (constructor; [by apply K_git|]); constructor.
Qed.

Lemma calls_commit_changes base_branch :
  spec K (value _) (commit_changes env git_dir raw_files_dir base_branch).
Proof.
  intros st.
  destruct (commit_changes_run env git_dir raw_files_dir base_branch st)
    as (l & E).
  eexists _, _, l. split_and!; [exact E| |eauto].
  unfold gate_events. cbv zeta.
  destruct (succeeded (gate_create env base_branch (trace st)));
    [destruct (succeeded
                 (gate_add env git_dir raw_files_dir base_branch (trace st)))|];
    repeat (constructor; [by apply K_git|]); constructor.
Qed.

Lemma kept_process_mirroring mirror_config base_branch :
  spec (λ _, True) (λ r d, (∃ b, r = Ok b) ∧ kept d)
    (process_mirroring env mirror_config git_dir raw_files_dir
       exclude_aliases base_branch lorry2).
Proof.
  assert (∀ A (m : M A),
    spec K (value _) m →
    spec (λ _, True) (λ r d, (∃ b, r = Ok b) ∧ kept d) m) as Hlift.
  { intros A m Hm st. destruct (Hm st) as (r & d & l & E & Hd & Hr).
    exists r, d, l. split; [done|]. split; [by apply Forall_forall|].
    split; [done|]. by apply kept_calls. }
  unfold process_mirroring.
  eapply spec_bind; [apply kept_process_repos| |].
  2: { by intros e d [[b ?] _]. }
  intros ok d1 [_ H1]. destruct ok; cbn [negb].
  2: { apply spec_ret. rewrite app_nil_r. eauto. }
  eapply spec_bind; [apply Hlift, calls_tracked_dirty| |].
  2: { by intros e d [[b ?] _]. }
  intros dirty d2 [_ H2]. destruct dirty.
  - eapply spec_weaken; [apply Hlift, calls_commit_changes|].
    intros r d3 [Hr H3]. split; [done|].
    by repeat apply kept_app.
  - apply spec_after_log, spec_ret. rewrite app_nil_r.
    split; [eauto|by apply kept_app].
Qed.

End Calls.

Lemma generates_into_git env git_dir raw_files_dir exclude_aliases lorry2 h p
    args :
  generates_into git_dir raw_files_dir exclude_aliases lorry2
    (run_event env h (git_command p args) None).
Proof.
  cbn [generates_into run_event]. unfold kind_of.
  rewrite git_args_git_command. intros Hg.
  destruct args as [|sub rest]; [done|]. cbn [git_kind] in Hg.
  repeat match type of Hg with
         | (if ?c then _ else _) = _ => destruct c; try done
         | match ?x with _ => _ end = _ => destruct x; try done
         end.
Qed.

(** X8.  [process_repo] never raises.  It creates one temporary directory,
    clones into it, and removes the directory as the last thing it does,
    whether the repository was processed, a command failed or the clone
    itself failed; in between it only runs git, the element check and the
    generator, while the directory exists.  When the clone fails nothing
    else is run. *)
Theorem process_repo_removes_tempdir env repo_url repo_config git_dir
    raw_files_dir exclude_aliases base_branch lorry2 st :
  let tmpdir := mkdtemp env (trace st) in
  let dest := path_join tmpdir (repo_name repo_url) in
  let clone :=
    run_event env (trace st ++ [TempDirCreated tmpdir])
      (git_command (getcwd env) ["clone"; repo_url; dest]) None in
  ∃ ok d st',
    process_repo env repo_url repo_config git_dir raw_files_dir
      exclude_aliases base_branch lorry2 st = (Ok ok, st')
    ∧ trace st'
      = trace st
        ++ TempDirCreated tmpdir :: clone :: d ++ [TempDirRemoved tmpdir]
    ∧ Forall (λ e, known_call e = true) (clone :: d)
    ∧ live_tempdirs (trace st ++ TempDirCreated tmpdir :: clone :: d)
      = tmpdir :: live_tempdirs (trace st)
    ∧ live_tempdirs (trace st') = live_tempdirs (trace st)
    ∧ (if succeeded clone then True else ok = false ∧ d = []).
Proof.
  intros tmpdir dest clone.
  destruct (process_repo_bracket env git_dir raw_files_dir exclude_aliases
              lorry2 (λ _, True) (λ _ _ _ _, I) (λ _ _ _, I) (λ _ _ _, I)
              repo_url repo_config base_branch st)
    as (ok & d & l & E & Hd & Hfail).
  fold tmpdir dest clone in E, Hd, Hfail.
  exists ok, d, (ext st (TempDirCreated tmpdir :: clone :: d
                         ++ [TempDirRemoved tmpdir]) l).
  assert (Forall (λ e, known_call e = true) (clone :: d)) as Hknown.
  { eapply Forall_impl; [exact Hd|]. by intros e [He _]. }
  assert (∀ live, fold_left tempdir_step (clone :: d) live = live) as Hfold.
  { intros live. clear -Hknown.
    revert live. induction Hknown as [|e k He _ IH]; intros live; [done|].
    cbn [fold_left]. by rewrite (known_call_spawn e He), IH. }
  assert (live_tempdirs (trace st ++ TempDirCreated tmpdir :: clone :: d)
          = tmpdir :: live_tempdirs (trace st)) as Hlive.
  { unfold live_tempdirs. rewrite fold_left_app.
    change (TempDirCreated tmpdir :: clone :: d)
      with ([TempDirCreated tmpdir] ++ clone :: d).
    by rewrite fold_left_app, Hfold. }
  split; [exact E|]. split; [done|]. split; [done|]. split; [done|].
  split; [|exact Hfail].
  cbn [trace ext].
  change (TempDirCreated tmpdir :: clone :: d ++ [TempDirRemoved tmpdir])
    with ((TempDirCreated tmpdir :: clone :: d) ++ [TempDirRemoved tmpdir]).
  rewrite app_assoc. unfold live_tempdirs in *. rewrite fold_left_app, Hlive.
  cbn [fold_left tempdir_step]. apply remove_one_head.
Qed.

(** X9.  [process_mirroring] never raises.  Every process it starts is git
    run through [run_git] (credential prompts off, the repository given
    with [-C]) with one of the sub-commands clone, checkout, add, commit or
    status, or the non-interactive element check or the generator run
    inside a clone, the generator always with the two directories, the
    excluded aliases and the format of the run; it starts nothing else.
    When it returns, however it ends, the temporary directories that exist
    are those that existed before. *)
Theorem mirroring_run_history env mirror_config git_dir raw_files_dir
    exclude_aliases base_branch lorry2 st :
  ∃ result d st',
    process_mirroring env mirror_config git_dir raw_files_dir
      exclude_aliases base_branch lorry2 st = (Ok result, st')
    ∧ trace st' = trace st ++ d
    ∧ Forall (λ e, mirroring_event e = true) d
    ∧ Forall (generates_into git_dir raw_files_dir exclude_aliases lorry2) d
    ∧ live_tempdirs (trace st') = live_tempdirs (trace st).
Proof.
  destruct (kept_process_mirroring env git_dir raw_files_dir exclude_aliases
              lorry2
              (generates_into git_dir raw_files_dir exclude_aliases lorry2))
    with (mirror_config := mirror_config) (base_branch := base_branch)
         (st := st)
    as (r & d & l & E & _ & (result & ->) & Hd & Hlive).
  { intros h p args _. apply generates_into_git. }
  { intros h element dest. cbn. done. }
  { intros h elements dest. cbn [generates_into run_event]. eauto. }
  exists result, d, (ext st d l). split; [done|]. split; [done|].
  split; [eapply Forall_impl; [exact Hd|]; by intros e [He _]|].
  split.
  - eapply Forall_impl; [exact Hd|]. intros e [He Hp].
    destruct e as [command cwd res| |]; [|done..]. apply Hp.
    exact He.
  - cbn [trace ext]. unfold live_tempdirs. by rewrite fold_left_app, Hlive.
Qed.

(** ** What the run reports *)

Lemma tracked_dirty_total env git_dir raw_files_dir st :
  ∃ dirty ds l,
    tracked_dirty env git_dir raw_files_dir st = (Ok dirty, ext st ds l)
    ∧ Forall (of_kinds [KStatus]) ds.
Proof.
  destruct (tracked_dirty_eq env git_dir raw_files_dir st) as (l & E).
  cbv zeta in E.
  destruct (dirty_report env (trace st) None (Some raw_files_dir));
    eexists _, _, l; (split; [exact E|]);
    repeat (apply Forall_cons_2; [apply status_of_kinds|]); done.
Qed.

(** X10.  The report of [process_mirroring] is sound.  It never raises, and
    it returns a branch name only together with the status [True]; when it
    returns one, the repository the tool runs in has exactly one commit
    more than before, made on that branch, which was created from the base
    branch, over the two tracked directories.  When it returns none,
    whatever the status, no commit was made; and with the status [True]
    (nothing to commit) no branch was created and nothing was staged
    either. *)
Theorem mirroring_report_is_sound env mirror_config git_dir raw_files_dir
    exclude_aliases base_branch lorry2 st :
  let before := repo_view (getcwd env) (trace st) in
  ∃ status branch st',
    process_mirroring env mirror_config git_dir raw_files_dir
      exclude_aliases base_branch lorry2 st = (Ok (status, branch), st')
    ∧ let after := repo_view (getcwd env) (trace st') in
      match branch with
      | Some name =>
          status = true
          ∧ head after = Some name
          ∧ new_branches after = new_branches before ++ [(name, base_branch)]
          ∧ commits after
            = commits before
              ++ [mkCommit (Some name)
                    (index before ++ [git_dir; raw_files_dir])
                    default_commit_message]
      | None =>
          commits after = commits before
          ∧ (status = true →
             new_branches after = new_branches before
             ∧ index after = index before)
      end.
Proof.
  intros before.
  destruct (process_repos_total env mirror_config git_dir raw_files_dir
              exclude_aliases base_branch lorry2 st)
    as (ok & d0 & l0 & E0 & Hd0 & _).
  pose proof (not_mutating_repo_level _ Hd0) as Hq0.
  unfold process_mirroring, bind at 1. rewrite E0.
  destruct ok; cbn [negb].
  2: { unfold ret. eexists false, None, _. split; [reflexivity|].
       cbv zeta. cbn [trace ext]. rewrite repo_view_app. fold before.
       destruct (fold_observe_quiet (getcwd env) d0 before Hq0)
         as (_ & _ & ->). done. }
  destruct (tracked_dirty_total env git_dir raw_files_dir (ext st d0 l0))
    as (dirty & ds & l1 & E1 & Hds).
  unfold bind at 1. rewrite E1, ext_ext.
  assert (Forall (λ e, ¬ mutating e) (d0 ++ ds)) as Hq.
  { apply Forall_app. split; [done|by apply not_mutating_status]. }
  destruct (fold_observe_quiet (getcwd env) (d0 ++ ds) before Hq)
    as (Hnb & Hidx & Hcm).
  set (st2 := ext st (d0 ++ ds) (l0 ++ l1)).
  assert (repo_view (getcwd env) (trace st2)
          = fold_left (observe (getcwd env)) (d0 ++ ds) before) as Hv2.
  { unfold st2. cbn [trace ext]. apply repo_view_app. }
  destruct dirty.
  2: { unfold bind, log, ret. eexists true, None, _.
       split; [reflexivity|]. cbv zeta. cbn [trace]. rewrite Hv2.
       by rewrite Hnb, Hidx, Hcm. }
  destruct (commit_changes_run env git_dir raw_files_dir base_branch st2)
    as (l2 & E2).
  rewrite E2.
  pose proof (gate_view env git_dir raw_files_dir base_branch (trace st2))
    as Hg. cbv zeta in Hg. rewrite Hv2 in Hg.
  unfold gate_passes.
  destruct (succeeded (gate_create env base_branch (trace st2))) eqn:S1;
    cbn [andb].
  2: { eexists false, None, _. split; [reflexivity|]. cbv zeta.
       cbn [trace ext]. rewrite Hg, Hcm. done. }
  destruct (succeeded (gate_add env git_dir raw_files_dir base_branch
                         (trace st2))) eqn:S2; cbn [andb] in Hg |- *.
  2: { eexists false, None, _. split; [reflexivity|]. cbv zeta.
       cbn [trace ext]. rewrite Hg. cbn [commits]. by rewrite Hcm. }
  destruct (succeeded (gate_commit env git_dir raw_files_dir base_branch
                         (trace st2))) eqn:S3.
  2: { eexists false, None, _. split; [reflexivity|]. cbv zeta.
       cbn [trace ext]. rewrite Hg. cbn [commits]. by rewrite Hcm. }
  eexists true, (Some _), _. split; [reflexivity|]. cbv zeta.
  cbn [trace ext]. rewrite Hg.
  cbn [head new_branches commits]. rewrite Hnb, Hidx, Hcm. done.
Qed.

(** ** The front end *)

Section FrontendFacts.

Variable env : Env.
Variable host : Host.

Lemma is_git_dir_eq path st :
  let command := git_command (default (getcwd env) path) ["rev-parse"] in
  ∃ l,
    is_git_dir env path st
    = (Ok (exit_ok env (trace st) command None),
       ext st [run_event env (trace st) command None] l).
Proof. apply guarded_git_eq. intros st'. apply after_ret. Qed.

Lemma get_toplevel_eq path st :
  let command :=
    git_command (default (getcwd env) path) ["rev-parse"; "--show-toplevel"] in
  let r := spawn env (trace st) command None in
  ∃ l,
    get_toplevel env path st
    = (Ok (if exit_ok env (trace st) command None
           then Some (PyStr.strip (out r)) else None),
       ext st [run_event env (trace st) command None] l).
Proof.
  intros command r.
  destruct (run_git_eq env ["rev-parse"; "--show-toplevel"] path true
              (Some "Failed to determine git toplevel") false st) as (l & E).
  fold command in E. unfold get_toplevel, try_except, bind at 1. rewrite E.
  destruct (exit_ok env (trace st) command None).
  - unfold bind, log, ret. cbn [stdout default]. fold r.
    eexists (l ++ [_]). unfold ext. cbn [trace logs].
    by rewrite app_assoc.
  - unfold ret. eauto.
Qed.

Lemma push_branch_to_remote_eq branch remote st :
  let checkout :=
    run_event env (trace st) (git_command (getcwd env) ["checkout"; branch])
      None in
  let push :=
    run_event env (trace st ++ [checkout])
      (git_command (getcwd env)
         ["push"; "--set-upstream"; "-f"; remote; branch]) None in
  ∃ l,
    push_branch_to_remote env branch remote st
    = (Ok (succeeded checkout && succeeded push),
       ext st (if succeeded checkout then [checkout; push] else [checkout])
         l).
Proof.
  intros checkout push.
  destruct (checkout_branch_eq env branch None st) as (l1 & E1).
  change (default (getcwd env) None) with (getcwd env) in E1.
  fold checkout in E1.
  change (exit_ok env (trace st)
            (git_command (getcwd env) ["checkout"; branch]) None)
    with (succeeded checkout) in E1.
  unfold push_branch_to_remote, bind at 1. rewrite E1.
  destruct (succeeded checkout); cbn [negb andb]; [|unfold ret; eauto].
  destruct (guarded_git_eq env
              ["push"; "--set-upstream"; "-f"; remote; branch] None
              (Some ("Failed to push branch " +:+ branch +:+ " to "
                     +:+ remote))
              (let* _ := log INFO "Pushed %s to %s"
                           [AStr branch; AStr remote] in ret true)
              (ext st [checkout] l1)) as (l2 & E2).
  { intros st'. apply after_log. }
  cbv zeta in E2. change (default (getcwd env) None) with (getcwd env) in E2.
  change (trace (ext st [checkout] l1)) with (trace st ++ [checkout]) in E2.
  fold push in E2. rewrite E2, ext_ext. eauto.
Qed.

End FrontendFacts.

(** X11.  [push_branch_to_remote] never raises.  It first checks the branch
    out in the repository the tool runs in, and only when that succeeds
    does it push: a forced push ([-f]) of the branch to the remote, setting
    the upstream.  It returns [True] exactly when both commands exit 0. *)
Theorem push_only_after_checkout env branch remote st :
  let checkout :=
    Spawn ["git"; "-c"; "credential.interactive=false"; "-C"; getcwd env;
           "checkout"; branch] None
      (spawn env (trace st)
         ["git"; "-c"; "credential.interactive=false"; "-C"; getcwd env;
          "checkout"; branch] None) in
  let push :=
    Spawn ["git"; "-c"; "credential.interactive=false"; "-C"; getcwd env;
           "push"; "--set-upstream"; "-f"; remote; branch] None
      (spawn env (trace st ++ [checkout])
         ["git"; "-c"; "credential.interactive=false"; "-C"; getcwd env;
          "push"; "--set-upstream"; "-f"; remote; branch] None) in
  ∃ st',
    push_branch_to_remote env branch remote st
    = (Ok (succeeded checkout && succeeded push), st')
    ∧ trace st'
      = trace st ++ (if succeeded checkout then [checkout; push]
                     else [checkout]).
Proof.
  intros checkout push.
  destruct (push_branch_to_remote_eq env branch remote st) as (l & E).
  eexists. split; [exact E|done].
Qed.

(** X12.  [get_toplevel] never raises.  It asks [git rev-parse
    --show-toplevel] once and returns the stripped output when the command
    exits 0 and [None] when it fails; the value it returns is usable (not
    [None] and not empty) exactly when the command succeeded and printed
    something other than white space. *)
Theorem get_toplevel_usable env path st :
  let command :=
    ["git"; "-c"; "credential.interactive=false"; "-C";
     default (getcwd env) path; "rev-parse"; "--show-toplevel"] in
  let r := spawn env (trace st) command None in
  ∃ toplevel st',
    get_toplevel env path st = (Ok toplevel, st')
    ∧ trace st' = trace st ++ [Spawn command None r]
    ∧ toplevel = (if (exit_code r =? 0)%Z then Some (PyStr.strip (out r))
                  else None)
    ∧ PyStr.truthy_opt toplevel
      = (exit_code r =? 0)%Z
        && negb (PyStr.all_chars PyStr.is_space (out r)).
Proof.
  intros command r.
  destruct (get_toplevel_eq env path st) as (l & E).
  rewrite E. unfold exit_ok, run_event.
  change (git_command (default (getcwd env) path)
            ["rev-parse"; "--show-toplevel"]) with command.
  fold r.
  exists (if (exit_code r =? 0)%Z then Some (PyStr.strip (out r)) else None),
    (ext st [Spawn command None r] l).
  split; [done|]. split; [done|]. split; [done|].
  destruct (exit_code r =? 0)%Z; [|done].
  cbn [PyStr.truthy_opt andb]. apply truthy_strip.
Qed.

Lemma first_invalid_eq (validations : list (bool * string)) st :
  first_invalid validations st
  = match List.find (λ c, negb (fst c)) validations with
    | Some (_, msg) => (Ok false, ext st [] [mkLog ERROR msg []])
    | None => (Ok true, st)
    end.
Proof.
  induction validations as [|[valid msg] rest IH]; [done|].
  cbn [first_invalid List.find fst]. destruct valid; cbn [negb]; [done|].
  unfold bind, log, ret, ext. by rewrite app_nil_r.
Qed.

Lemma validated_eq (validations : list (bool * string)) st :
  (let* valid := first_invalid validations in
   ret (inr valid : Uncaught + bool)) st
  = match List.find (λ c, negb (fst c)) validations with
    | Some (_, msg) => (Ok (inr false), ext st [] [mkLog ERROR msg []])
    | None => (Ok (inr true), st)
    end.
Proof.
  unfold bind. rewrite first_invalid_eq.
  by destruct (List.find _ _) as [[valid msg]|].
Qed.

(** X13.  With git found in PATH (without it the queries could not be
    started), [validate_environment] always runs its two queries of the
    current directory, [git rev-parse] and [git status --porcelain], also
    when another tool is missing: the validations are all evaluated before
    the first is read.  It returns [True] exactly when
    [bst] and [bst-to-lorry] are found, the first query exits 0 and the
    second exits 0 printing nothing but white space; otherwise the last
    record it logs is the error of the first validation that failed, in
    that order. *)
Theorem validate_environment_checks env host st :
  let rev_parse_command :=
    ["git"; "-c"; "credential.interactive=false"; "-C"; getcwd env;
     "rev-parse"] in
  let rev_parse :=
    Spawn rev_parse_command None
      (spawn env (trace st) rev_parse_command None) in
  let status_command :=
    ["git"; "-c"; "credential.interactive=false"; "-C"; getcwd env;
     "status"; "--porcelain"] in
  let answer := spawn env (trace st ++ [rev_parse]) status_command None in
  let status := Spawn status_command None answer in
  let checks :=
    [(is_cmd_present host "bst", "Unable to find bst-to-lorry in PATH");
     (is_cmd_present host "bst-to-lorry",
      "Unable to find auto_updater in PATH");
     (succeeded rev_parse, "Current directory is not a git repository");
     (succeeded status && PyStr.all_chars PyStr.is_space (out answer),
      "Current repository checkout is dirty")] in
  which host "git" ≠ None →
  ∃ st',
    validate_environment env host st = (Ok (inr (forallb fst checks)), st')
    ∧ trace st' = trace st ++ [rev_parse; status]
    ∧ match List.find (λ c, negb (fst c)) checks with
      | Some (_, msg) => last (logs st') = Some (mkLog ERROR msg [])
      | None => True
      end.
Proof.
  intros rev_parse_command rev_parse status_command answer status checks Hgit.
  destruct (is_git_dir_eq env None st) as (l1 & E1).
  change (git_command (default (getcwd env) None) ["rev-parse"])
    with rev_parse_command in E1.
  change (run_event env (trace st) rev_parse_command None)
    with rev_parse in E1.
  change (exit_ok env (trace st) rev_parse_command None)
    with (succeeded rev_parse) in E1.
  destruct (is_dirty_eq env None None (ext st [rev_parse] l1)) as (l2 & E2).
  change (git_command (default (getcwd env) None) (status_args None))
    with status_command in E2.
  change (trace (ext st [rev_parse] l1)) with (trace st ++ [rev_parse]) in E2.
  change (run_event env (trace st ++ [rev_parse]) status_command None)
    with status in E2.
  assert (negb (dirty_report env (trace st ++ [rev_parse]) None None)
          = succeeded status
            && PyStr.all_chars PyStr.is_space (out answer)) as Hclean.
  { unfold dirty_report.
    change (git_command (default (getcwd env) None) (status_args None))
      with status_command.
    change (exit_ok env (trace st ++ [rev_parse]) status_command None)
      with (succeeded status).
    fold answer. destruct (succeeded status); [|done].
    by rewrite truthy_strip, negb_involutive. }
  unfold validate_environment.
  assert (is_cmd_present host "git" = true) as ->
    by by apply bool_decide_eq_true_2.
  cbv zeta. cbn [negb]. unfold bind at 1. rewrite E1.
  unfold bind at 1. rewrite E2, ext_ext, validated_eq, Hclean.
  unfold checks. cbn [List.find forallb fst negb].
  destruct (is_cmd_present host "bst"); cbn [negb andb].
  2: { eexists. split; [reflexivity|]. split.
       - cbn [trace ext]. by rewrite app_nil_r.
       - cbn [logs ext]. apply last_snoc. }
  destruct (is_cmd_present host "bst-to-lorry"); cbn [negb andb].
  2: { eexists. split; [reflexivity|]. split.
       - cbn [trace ext]. by rewrite app_nil_r.
       - cbn [logs ext]. apply last_snoc. }
  destruct (succeeded rev_parse); cbn [negb andb].
  2: { eexists. split; [reflexivity|]. split.
       - cbn [trace ext]. by rewrite app_nil_r.
       - cbn [logs ext]. apply last_snoc. }
  destruct (succeeded status && _); cbn [negb andb].
  2: { eexists. split; [reflexivity|]. split.
       - cbn [trace ext]. by rewrite app_nil_r.
       - cbn [logs ext]. apply last_snoc. }
  eexists. split; [reflexivity|]. done.
Qed.

(** ** [main] *)

Lemma validate_environment_checks_witness :
  let env := Script.world [] "" in
  let host := ScriptHost.host ["git"; "bst"] [] NoSuchFile false [] in
  which host "git" ≠ None
  ∧ ∃ st',
      validate_environment env host initial = (Ok (inr false), st')
      ∧ length (trace st') = 2
      ∧ last (logs st')
        = Some (mkLog ERROR "Unable to find auto_updater in PATH" []).
Proof.
  intros env host.
  assert (which host "git" ≠ None) as Hgit by done.
  split; [exact Hgit|].
  destruct (validate_environment_checks env host initial Hgit)
    as (st' & E & Htr & Hlog).
  exists st'. split; [exact E|]. split; [by rewrite Htr|exact Hlog].
Defined.

(** X14.  The two errors in the options are found before anything is done:
    with [--create-mr] but without [--push], or with [--create-mr] when
    python-gitlab could not be imported, [main] logs the one error and
    returns 1; it has started no process and read no file. *)
Theorem option_errors_stop_main env host args st :
  Cli.create_mr args = true →
  Cli.push args && GITLAB_IMPORTED host = false →
  main env host args st
  = (Ok (inr 1%Z),
     ext st []
       [mkLog ERROR
          (if Cli.push args
           then "--create-mr used but python-gitlab not imported"
           else "--create-mr requires --push") []]).
Proof.
  intros Hmr Hbad. unfold main. rewrite Hmr. cbn [andb].
  destruct (Cli.push args); cbn [negb andb] in Hbad |- *.
  - rewrite Hbad. cbn [negb]. unfold bind, log, ret, ext.
    by rewrite app_nil_r.
  - unfold bind, log, ret, ext. by rewrite app_nil_r.
Qed.

Lemma option_errors_stop_main_witness :
  let args :=
    Cli.mkArgs "mirrors.json" "main" "gits" "files" [] false true false in
  let host :=
    ScriptHost.host ScriptHost.tools ScriptHost.ci_vars (Parsed []) true [] in
  Cli.create_mr args = true
  ∧ Cli.push args && GITLAB_IMPORTED host = false
  ∧ main (Script.world [] "") host args initial
    = (Ok (inr 1%Z),
       ext initial [] [mkLog ERROR "--create-mr requires --push" []]).
Proof.
  intros args host. split; [reflexivity|]. split; [reflexivity|].
  apply (option_errors_stop_main (Script.world [] "") host args initial);
    reflexivity.
Defined.

(** ** The merge request *)

Section Session.

Import Regex Gitlab Remote.

Variable server : Server.

Lemma any_refused_app sent a b :
  any_refused server sent (a ++ b)
  = any_refused server sent a || any_refused server (sent ++ a) b.
Proof.
  revert sent. induction a as [|q a IH]; intros sent.
  - by rewrite app_nil_r.
  - cbn [app any_refused]. rewrite IH, <- app_assoc. cbn [app].
    by rewrite orb_assoc.
Qed.

(** A computation that sends its requests in order and stops at the first
    one refused, raising its reason. *)
Local Abbreviation stops_at_refusal :=
  (λ (A : Type) (m : G A),
     ∀ s, ∃ new,
       requests (m s).2 = requests s ++ new
       ∧ match (m s).1 with
         | Answered _ => any_refused server (requests s) new = false
         | GitlabError reason =>
             ∃ pre q,
               new = pre ++ [q]
               ∧ any_refused server (requests s) pre = false
               ∧ refuses server (requests s ++ pre) q = Some reason
         end).

(** A computation that leaves the merge requests of the project alone. *)
Local Abbreviation keeps_reviews :=
  (λ (A : Type) (m : G A),
     ∀ s, mergerequests (remote (m s).2) = mergerequests (remote s)).

Lemma stops_gret {A} (a : A) : stops_at_refusal _ (gret a).
Proof. intros s. exists []. by rewrite app_nil_r. Qed.

Lemma stops_glog l m a : stops_at_refusal _ (glog l m a).
Proof. intros s. exists []. by rewrite app_nil_r. Qed.

Lemma stops_send {A} q (answer : Project → A) effect :
  stops_at_refusal _ (send server q answer effect).
Proof.
  intros s. exists [q]. unfold send.
  destruct (refuses server (requests s) q) as [reason|] eqn:E; cbn.
  - split; [done|]. exists [], q. by rewrite app_nil_r.
  - split; [done|]. rewrite E. by rewrite bool_decide_eq_false_2
      by (intros [? ?]; done).
Qed.

Lemma stops_gbind {A B} (m : G A) (k : A → G B) :
  stops_at_refusal _ m → (∀ a, stops_at_refusal _ (k a)) →
  stops_at_refusal _ (gbind m k).
Proof.
  intros Hm Hk s. destruct (Hm s) as (n1 & E1 & H1). unfold gbind.
  destruct (m s) as [[a|reason] s1]; cbn [fst snd] in *.
  - destruct (Hk a s1) as (n2 & E2 & H2).
    exists (n1 ++ n2). rewrite E2, E1, <- app_assoc. split; [done|].
    rewrite E1 in H2.
    destruct (k a s1).1 as [b|reason].
    + by rewrite any_refused_app, H1, H2.
    + destruct H2 as (pre & q & -> & Hpre & Hq).
      exists (n1 ++ pre), q. rewrite <- !app_assoc. split; [done|].
      rewrite any_refused_app, H1, Hpre. split; [done|].
      by rewrite app_assoc.
  - exists n1. done.
Qed.

Lemma stops_delete_each names : stops_at_refusal _ (delete_each server names).
Proof.
  induction names as [|b names IH]; cbn [delete_each].
  - apply stops_gret.
  - apply stops_gbind; [apply stops_glog|]. intros _.
    apply stops_gbind; [apply stops_send|]. intros _. apply IH.
Qed.

Lemma stops_cleanup_branches : stops_at_refusal _ (cleanup_branches server).
Proof.
  unfold cleanup_branches.
  apply stops_gbind; [apply stops_send|]. intros branches.
  apply stops_gbind; [apply stops_send|]. intros open_mrs.
  apply stops_gbind; [apply stops_send|]. intros _.
  apply stops_delete_each.
Qed.

Lemma stops_merge_request_block source base mr_title clear_br :
  stops_at_refusal _
    (merge_request_block server source base mr_title clear_br).
Proof.
  unfold merge_request_block.
  apply stops_gbind; [apply stops_send|]. intros url.
  apply stops_gbind; [apply stops_glog|]. intros _.
  apply stops_gbind; [|intros _; apply stops_gret].
  destruct clear_br; [apply stops_cleanup_branches|apply stops_gret].
Qed.

Lemma keeps_gret {A} (a : A) : keeps_reviews _ (gret a).
Proof. done. Qed.

Lemma keeps_glog l m a : keeps_reviews _ (glog l m a).
Proof. done. Qed.

Lemma keeps_send {A} q (answer : Project → A) effect :
  (∀ p, mergerequests (effect p) = mergerequests p) →
  keeps_reviews _ (send server q answer effect).
Proof.
  intros He s. unfold send.
  destruct (refuses server (requests s) q); cbn; [done|apply He].
Qed.

Lemma keeps_gbind {A B} (m : G A) (k : A → G B) :
  keeps_reviews _ m → (∀ a, keeps_reviews _ (k a)) →
  keeps_reviews _ (gbind m k).
Proof.
  intros Hm Hk s. specialize (Hm s). unfold gbind.
  destruct (m s) as [[a|reason] s1]; cbn [fst snd] in *; [|done].
  by rewrite Hk.
Qed.

Lemma keeps_delete_each names : keeps_reviews _ (delete_each server names).
Proof.
  induction names as [|b names IH]; cbn [delete_each]; [done|].
  apply keeps_gbind; [apply keeps_glog|]. intros _.
  apply keeps_gbind; [by apply keeps_send|]. intros _. apply IH.
Qed.

Lemma keeps_cleanup_branches : keeps_reviews _ (cleanup_branches server).
Proof.
  unfold cleanup_branches.
  apply keeps_gbind; [by apply keeps_send|]. intros branches.
  apply keeps_gbind; [by apply keeps_send|]. intros open_mrs.
  apply keeps_gbind; [by apply keeps_send|]. intros _.
  apply keeps_delete_each.
Qed.

(** A request that is not refused is answered and applied. *)
Lemma send_accepted {A} q (answer : Project → A) effect s :
  refuses server (requests s) q = None →
  send server q answer effect s
  = (Answered (answer (remote s)),
     mkSession (effect (remote s)) (requests s ++ [q]) (records s)).
Proof. intros E. unfold send. by rewrite E. Qed.

Lemma any_refused_cons sent q rest :
  any_refused server sent (q :: rest) = false →
  refuses server sent q = None
  ∧ any_refused server (sent ++ [q]) rest = false.
Proof.
  cbn [any_refused]. intros H. apply orb_false_iff in H as [H1 H2].
  split; [|done]. apply bool_decide_eq_false in H1.
  destruct (refuses server sent q); [|done]. by destruct H1.
Qed.

Lemma delete_each_accepted names : ∀ s,
  any_refused server (requests s) (map (λ b, Call (DeleteBranch b)) names)
  = false →
  delete_each server names s
  = (Answered tt,
     mkSession (foldl Gitlab.branches_delete (remote s) names)
       (requests s ++ map (λ b, Call (DeleteBranch b)) names)
       (records s
        ++ map (λ b, mkLog INFO "Deleting branch: %s" [AStr b]) names)).
Proof.
  induction names as [|b names IH]; intros s Hs.
  - cbn. unfold gret. destruct s. cbn. by rewrite !app_nil_r.
  - cbn [map] in Hs. apply any_refused_cons in Hs as [H1 H2].
    cbn [delete_each]. unfold gbind at 1, glog.
    unfold gbind at 1, branches_delete. rewrite send_accepted by done.
    rewrite IH by done. cbn [remote requests records foldl map].
    by rewrite <- !app_assoc.
Qed.

(** With no request refused, the clean-up sends the calls of
    [Gitlab.cleanup_branches], in its order, and leaves its project. *)
Lemma cleanup_branches_accepted s :
  let run := Gitlab.cleanup_branches (remote s) in
  any_refused server (requests s) (map Call run.2) = false →
  cleanup_branches server s
  = (Answered tt,
     mkSession run.1 (requests s ++ map Call run.2)
       (records s
        ++ omap (λ c, match c with
                      | DeleteBranch b =>
                          Some (mkLog INFO "Deleting branch: %s" [AStr b])
                      | _ => None
                      end) run.2)).
Proof.
  intros run. unfold run, Gitlab.cleanup_branches. cbn [fst snd].
  set (to_delete := elements _).
  rewrite map_app. cbn [map app]. intros H.
  apply any_refused_cons in H as [H1 H].
  apply any_refused_cons in H as [H2 H].
  apply any_refused_cons in H as [H3 H].
  unfold cleanup_branches, gbind at 1, branches_list.
  rewrite send_accepted by done.
  unfold gbind at 1, mergerequests_list. rewrite send_accepted by done.
  cbn [remote requests records id]. fold to_delete.
  unfold gbind at 1, delete_merged_branches. rewrite send_accepted by done.
  rewrite delete_each_accepted
    by (cbn [requests]; by rewrite map_map in H).
  cbn [remote requests records]. rewrite map_map.
  match goal with
  | |- (_, mkSession _ ?b ?c) = (_, mkSession _ ?b' ?c') =>
      replace b' with b; [replace c' with c; [reflexivity|]|]
  end.
  - f_equal. cbn [omap]. clear.
    induction to_delete as [|b l IH]; [done|]. cbn [map omap]. by rewrite IH.
  - by rewrite <- !app_assoc.
Qed.

(** The rest of the [try] block once the merge request is created. *)
Lemma block_after_create source base mr_title clear_br s :
  let mr := mkMR source base mr_title "opened" in
  refuses server (requests s) (CreateMergeRequest mr) = None →
  merge_request_block server source base mr_title clear_br s
  = gbind (glog INFO "Merge request created: %s" [AStr (web_url server mr)])
      (λ _, gbind (if clear_br then cleanup_branches server else gret tt)
              (λ _, gret true))
      (mkSession
         (mkProject (branches (remote s)) (mergerequests (remote s) ++ [mr])
            (merged (remote s)))
         (requests s ++ [CreateMergeRequest mr]) (records s)).
Proof.
  intros mr H. unfold merge_request_block, gbind at 1, mergerequests_create.
  fold mr. by rewrite send_accepted.
Qed.

Lemma block_answer source base mr_title clear_br s created :
  (merge_request_block server source base mr_title clear_br s).1
  = Answered created → created = true.
Proof.
  unfold merge_request_block, gbind, glog, gret.
  destruct (mergerequests_create _ _ _ _ s) as [[url|?] s1]; [|done].
  destruct clear_br.
  - destruct (cleanup_branches server _) as [[[]|?] s2]; [|done].
    by intros [= <-].
  - by intros [= <-].
Qed.

Lemma block_keeps_review source base mr_title clear_br s :
  let mr := mkMR source base mr_title "opened" in
  refuses server (requests s) (CreateMergeRequest mr) = None →
  mergerequests
    (remote (merge_request_block server source base mr_title clear_br s).2)
  = mergerequests (remote s) ++ [mr].
Proof.
  intros mr H. rewrite block_after_create by done. fold mr.
  match goal with
  | |- context [gbind ?first ?next ?s1] =>
      assert (keeps_reviews _ (gbind first next)) as Hk
  end.
  { apply keeps_gbind; [apply keeps_glog|]. intros _.
    apply keeps_gbind; [|intros _; apply keeps_gret].
    destruct clear_br; [apply keeps_cleanup_branches|apply keeps_gret]. }
  by rewrite Hk.
Qed.

End Session.

Section MergeRequest.

Import Gitlab Remote.

Variable host : Host.

(** [create_merge_request] never raises and starts no process. *)
Lemma create_merge_request_eq source base mr_title clear_br st :
  ∃ created l,
    create_merge_request host source base mr_title clear_br st
    = (Ok created, ext st [] l).
Proof.
  unfold create_merge_request.
  destruct (PyStr.truthy_opt (gitlab_token host)); cbn [negb].
  2: { unfold bind, log, ret, ext. rewrite app_nil_r. eauto. }
  destruct (PyStr.truthy_opt (environ host "CI_PROJECT_ID")
            && PyStr.truthy_opt (environ host "CI_SERVER_URL")); cbn [negb].
  2: { unfold bind, log, ret, ext. rewrite app_nil_r. eauto. }
  destruct (merge_request_session host source base mr_title clear_br)
    as [[created|reason] session].
  - unfold ext. rewrite app_nil_r. eauto.
  - unfold bind, log, ret, ext. cbn [trace logs].
    rewrite app_nil_r, <- app_assoc. eauto.
Qed.

Lemma guards_pass_eq source base mr_title clear_br st :
  PyStr.truthy_opt (gitlab_token host) = true →
  PyStr.truthy_opt (environ host "CI_PROJECT_ID") = true →
  PyStr.truthy_opt (environ host "CI_SERVER_URL") = true →
  create_merge_request host source base mr_title clear_br st
  = let run := merge_request_session host source base mr_title clear_br in
    match run.1 with
    | Answered created => (Ok created, ext st [] (records run.2))
    | GitlabError reason =>
        (Ok false,
         ext st []
           (records run.2
            ++ [mkLog ERROR "Failed to create merge request: %s"
                  [AStr reason]]))
    end.
Proof.
  intros H1 H2 H3. unfold create_merge_request. rewrite H1, H2, H3.
  cbn [negb andb]. cbv zeta.
  destruct (merge_request_session host source base mr_title clear_br)
    as [[created|reason] session]; cbn [fst snd].
  - unfold ext. by rewrite app_nil_r.
  - unfold bind, log, ret, ext. cbn [trace logs].
    by rewrite app_nil_r, <- app_assoc.
Qed.

End MergeRequest.

(** X15.  Without a token or outside a pipeline [create_merge_request] gives
    up at once: when neither [GITLAB_API_KEY] nor, failing that,
    [FREEDESKTOP_API_TOKEN] is set to a non-empty value, or when
    [CI_PROJECT_ID] or [CI_SERVER_URL] is unset or empty, it logs one error
    and returns [False]; what it returns and logs does not depend on the
    server.  A missing token is reported first, and always as
    [GITLAB_API_KEY]. *)
Theorem merge_request_needs_token_and_pipeline host source base mr_title
    clear_br st :
  let token :=
    if PyStr.truthy_opt (environ host "GITLAB_API_KEY")
    then environ host "GITLAB_API_KEY"
    else environ host "FREEDESKTOP_API_TOKEN" in
  PyStr.truthy_opt token
  && PyStr.truthy_opt (environ host "CI_PROJECT_ID")
  && PyStr.truthy_opt (environ host "CI_SERVER_URL") = false →
  create_merge_request host source base mr_title clear_br st
  = (Ok false,
     ext st []
       [mkLog ERROR
          (if PyStr.truthy_opt token
           then "CI_PROJECT_ID or CI_SERVER_URL is not defined. "
                +:+ "Likely running outside of GitLab pipeline"
           else "GITLAB_API_KEY is not defined") []]).
Proof.
  intros token Hmissing. unfold create_merge_request.
  change (gitlab_token host) with token.
  destruct (PyStr.truthy_opt token); cbn [negb andb] in Hmissing |- *.
  - rewrite Hmissing. cbn [negb]. unfold bind, log, ret, ext.
    by rewrite app_nil_r.
  - unfold bind, log, ret, ext. by rewrite app_nil_r.
Qed.

Lemma merge_request_needs_token_and_pipeline_witness :
  let host :=
    ScriptHost.host ScriptHost.tools
      [("GITLAB_API_KEY", ""); ("FREEDESKTOP_API_TOKEN", "secret");
       ("CI_PROJECT_ID", "42")] (Parsed []) true [] in
  let token :=
    if PyStr.truthy_opt (environ host "GITLAB_API_KEY")
    then environ host "GITLAB_API_KEY"
    else environ host "FREEDESKTOP_API_TOKEN" in
  token = Some "secret"
  ∧ PyStr.truthy_opt token
    && PyStr.truthy_opt (environ host "CI_PROJECT_ID")
    && PyStr.truthy_opt (environ host "CI_SERVER_URL") = false
  ∧ create_merge_request host "update-mirrors/main/20240102030405" "main"
      default_mr_title true initial
    = (Ok false,
       ext initial []
         [mkLog ERROR
            ("CI_PROJECT_ID or CI_SERVER_URL is not defined. "
             +:+ "Likely running outside of GitLab pipeline") []]).
Proof.
  intros host token. split; [reflexivity|]. split; [reflexivity|].
  apply (merge_request_needs_token_and_pipeline host
           "update-mirrors/main/20240102030405" "main" default_mr_title true
           initial).
  reflexivity.
Defined.

Section MergeRequestRun.

Import Regex Gitlab Remote.

Variable host : Host.

(** X16.  Once the token, the project id and the address are there and the
    server refuses nothing, [create_merge_request] returns [True] after it
    has opened the merge request and, when asked to clear branches, sent
    the requests of [cleanup_branches] for the project as it is with the
    new merge request.  The branch the request was opened for is never
    among the branches deleted by name. *)
Theorem merge_request_then_cleanup source base mr_title (clear_br : bool)
    st :
  let server :=
    gitlab host (default "" (environ host "CI_SERVER_URL"))
      (default "" (gitlab_token host))
      (default "" (environ host "CI_PROJECT_ID")) in
  let mr := mkMR source base mr_title "opened" in
  let project1 :=
    mkProject (branches (project server))
      (mergerequests (project server) ++ [mr]) (merged (project server)) in
  let calls := if clear_br then (Gitlab.cleanup_branches project1).2 else [] in
  let run := merge_request_session host source base mr_title clear_br in
  PyStr.truthy_opt (gitlab_token host) = true →
  PyStr.truthy_opt (environ host "CI_PROJECT_ID") = true →
  PyStr.truthy_opt (environ host "CI_SERVER_URL") = true →
  any_refused server [] (CreateMergeRequest mr :: map Call calls) = false →
  create_merge_request host source base mr_title clear_br st
  = (Ok true,
     ext st []
       (mkLog INFO "Merge request created: %s" [AStr (web_url server mr)]
        :: omap (λ c, match c with
                      | DeleteBranch b =>
                          Some (mkLog INFO "Deleting branch: %s" [AStr b])
                      | _ => None
                      end) calls))
  ∧ requests run.2 = CreateMergeRequest mr :: map Call calls
  ∧ remote run.2
    = (if clear_br then (Gitlab.cleanup_branches project1).1 else project1)
  ∧ DeleteBranch source ∉ calls.
Proof.
  intros server mr project1 calls run H1 H2 H3 Hacc.
  apply any_refused_cons in Hacc as [Hc Hrest].
  assert (run
          = (Answered true,
             mkSession
               (if clear_br then (Gitlab.cleanup_branches project1).1
                else project1)
               (CreateMergeRequest mr :: map Call calls)
               (mkLog INFO "Merge request created: %s"
                  [AStr (web_url server mr)]
                :: omap (λ c, match c with
                              | DeleteBranch b =>
                                  Some (mkLog INFO "Deleting branch: %s"
                                          [AStr b])
                              | _ => None
                              end) calls))) as Hrun.
  { unfold run, merge_request_session. fold server.
    rewrite block_after_create by done. fold mr. cbn [remote requests records].
    fold project1. unfold gbind at 1, glog. cbn [remote requests records app].
    unfold calls in *. destruct clear_br.
    - unfold gbind at 1. rewrite cleanup_branches_accepted by done.
      cbn [remote requests records app]. done.
    - unfold gbind, gret. done. }
  split_and!.
  - rewrite (guards_pass_eq host) by done. fold run. by rewrite Hrun.
  - by rewrite Hrun.
  - by rewrite Hrun.
  - unfold calls. destruct clear_br; [|apply not_elem_of_nil].
    intros Hdel. apply delete_call_iff in Hdel as (_ & Hm & Hno).
    apply Hno. exists mr. split_and!; [|done|by apply fullmatch_py_match|done].
    cbn [mergerequests project1]. apply elem_of_app. right. by left.
Qed.

(** X17.  Nothing in [create_merge_request] tells a refused clean-up from a
    refused merge request.  With the token, the project id and the address
    there, it returns [True] exactly when the server refused none of the
    requests sent; when one is refused it is the last one sent, its reason
    is logged as the failure to create the merge request and [False] is
    returned, although, if the refused request was not the first, the merge
    request is open on the server.  No process is started either way. *)
Theorem refused_request_fails_merge_request source base mr_title
    (clear_br : bool) st :
  let server :=
    gitlab host (default "" (environ host "CI_SERVER_URL"))
      (default "" (gitlab_token host))
      (default "" (environ host "CI_PROJECT_ID")) in
  let mr := mkMR source base mr_title "opened" in
  let run := merge_request_session host source base mr_title clear_br in
  let sent := requests run.2 in
  PyStr.truthy_opt (gitlab_token host) = true →
  PyStr.truthy_opt (environ host "CI_PROJECT_ID") = true →
  PyStr.truthy_opt (environ host "CI_SERVER_URL") = true →
  ∃ created st',
    create_merge_request host source base mr_title clear_br st
    = (Ok created, st')
    ∧ trace st' = trace st
    ∧ created = negb (any_refused server [] sent)
    ∧ (created = false →
       ∃ reason pre q,
         sent = pre ++ [q]
         ∧ any_refused server [] pre = false
         ∧ refuses server pre q = Some reason
         ∧ last (logs st')
           = Some (mkLog ERROR "Failed to create merge request: %s"
                     [AStr reason]))
    ∧ (refuses server [] (CreateMergeRequest mr) = None →
       mr ∈ mergerequests (remote run.2)).
Proof.
  intros server mr run sent H1 H2 H3.
  rewrite (guards_pass_eq host) by done. fold run. cbv zeta.
  pose proof (stops_merge_request_block server source base mr_title clear_br
                (mkSession (project server) [] [])) as (new & Enew & Hnew).
  change (merge_request_block server source base mr_title clear_br
            (mkSession (project server) [] [])) with run in Enew, Hnew.
  cbn [requests app] in Enew, Hnew. fold sent in Enew. subst new.
  assert (refuses server [] (CreateMergeRequest mr) = None →
          mr ∈ mergerequests (remote run.2)) as Hopen.
  { intros Hc. unfold run, merge_request_session. fold server.
    rewrite block_keeps_review by done. apply elem_of_app. right. by left. }
  pose proof (block_answer server source base mr_title clear_br
                (mkSession (project server) [] [])) as Hans.
  change (merge_request_block server source base mr_title clear_br
            (mkSession (project server) [] [])) with run in Hans.
  destruct run.1 as [created|reason].
  - rewrite (Hans created eq_refl). eexists true, _.
    split; [reflexivity|].
    split; [cbn [trace ext]; apply app_nil_r|]. split; [by rewrite Hnew|].
    split; [done|exact Hopen].
  - destruct Hnew as (pre & q & Esent & Hpre & Hq).
    eexists false, _. split; [reflexivity|].
    split; [cbn [trace ext]; apply app_nil_r|].
    split.
    { rewrite Esent, any_refused_app, Hpre. cbn [any_refused orb].
      rewrite app_nil_l, Hq. by rewrite bool_decide_eq_true_2 by eauto. }
    split; [|exact Hopen].
    intros _. exists reason, pre, q.
    split_and!; [done|done|done|]. cbn [logs ext]. rewrite app_assoc.
    apply last_snoc.
Qed.

End MergeRequestRun.

(** ** What [main] pushes *)




Lemma validate_environment_eq env host st :
  let rev_parse :=
    run_event env (trace st) (git_command (getcwd env) ["rev-parse"]) None in
  let status :=
    run_event env (trace st ++ [rev_parse])
      (git_command (getcwd env) (status_args None)) None in
  (which host "git" = None
   ∧ ∃ l,
       validate_environment env host st
       = (Ok (inl (ProgramNotFound "git")), ext st [] l))
  ∨ (which host "git" ≠ None
     ∧ ∃ valid l,
         validate_environment env host st
         = (Ok (inr valid), ext st [rev_parse; status] l)).
Proof.
  intros rev_parse status. unfold validate_environment, is_cmd_present.
  destruct (decide (which host "git" = None)) as [Hgit|Hgit].
  { left. split; [done|].
    rewrite (bool_decide_eq_false_2 (which host "git" ≠ None)) by tauto.
    cbv zeta. cbn [negb]. unfold bind, log, ret, ext.
    rewrite app_nil_r. eauto. }
  right. split; [done|].
  rewrite (bool_decide_eq_true_2 (which host "git" ≠ None)) by done.
  cbv zeta. cbn [negb].
  destruct (is_git_dir_eq env None st) as (l1 & E1).
  change (run_event env (trace st)
            (git_command (default (getcwd env) None) ["rev-parse"]) None)
    with rev_parse in E1.
  destruct (is_dirty_eq env None None (ext st [rev_parse] l1)) as (l2 & E2).
  change (run_event env (trace (ext st [rev_parse] l1))
            (git_command (default (getcwd env) None) (status_args None)) None)
    with status in E2.
  unfold bind at 1. rewrite E1.
  unfold bind at 1. rewrite E2, ext_ext, validated_eq.
  destruct (List.find _ _) as [[valid msg]|].
  - rewrite ext_ext, app_nil_r. eauto.
  - eauto.
Qed.

Lemma load_mirror_config_eq host file st :
  ∃ l,
    load_mirror_config host file st
    = (Ok (match read_json host file with
           | Parsed config => inr config
           | NoSuchFile => inl FileNotFoundError
           | InvalidJson reason => inl (JSONDecodeError reason)
           end), ext st [] l).
Proof.
  unfold load_mirror_config.
  destruct (read_json host file); unfold bind, log, ret, ext;
    rewrite app_nil_r; eauto.
Qed.

(** [main], stage by stage.  On a host without git it ends with the
    exception of the first git command.  Otherwise the events before the
    mirroring run are queries; when the run is reached it is
    [process_mirroring] on the configuration read, in the state the
    validation, the reading of the file and [get_toplevel] have left, with
    the directories under the top level that [git rev-parse
    --show-toplevel] printed; after it comes nothing, or the checkout of the
    branch it returned and, when that succeeds, the push. *)
Lemma main_run env host args st :
  ∃ code st',
    main env host args st = (Ok code, st')
    ∧ match code with
      | inl e =>
          e = ProgramNotFound "git" ∧ which host "git" = None
          ∧ trace st' = trace st
      | inr c => (c = 0 ∨ c = 1)%Z
      end
    ∧ ((∃ d0,
          trace st' = trace st ++ d0
          ∧ Forall (λ e, is_push e = false
                         ∧ event_kind e ≠ Some KGenerate) d0)
       ∨ ∃ st_v mirror_config st_c answer st1 status branch st2 d0 tail,
           validate_environment env host st = (Ok (inr true), st_v)
           ∧ load_mirror_config host (Cli.mirror_config args) st_v
             = (Ok (inr mirror_config), st_c)
           ∧ get_toplevel env None st_c
             = (Ok (Some (PyStr.strip (out answer))), st1)
           ∧ trace st1 = trace st ++ d0
           ∧ Forall (λ e, is_push e = false
                          ∧ event_kind e ≠ Some KGenerate) d0
           ∧ Spawn (git_command (getcwd env) ["rev-parse"; "--show-toplevel"])
               None answer ∈ d0
           ∧ process_mirroring env mirror_config
               (Pathlib.div (PyStr.strip (out answer)) "gits")
               (Pathlib.div (PyStr.strip (out answer)) "files")
               (Cli.exclude_alias args) (Cli.base_branch args)
               (Cli.lorry2 args) st1
             = (Ok (status, branch), st2)
           ∧ trace st' = trace st2 ++ tail
           ∧ (tail = []
              ∨ Cli.push args = true ∧ status = true
                ∧ ∃ name,
                    branch = Some name
                    ∧ let checkout :=
                        run_event env (trace st2)
                          (git_command (getcwd env) ["checkout"; name])
                          None in
                      let push :=
                        run_event env (trace st2 ++ [checkout])
                          (git_command (getcwd env)
                             ["push"; "--set-upstream"; "-f"; "origin";
                              name]) None in
                      tail = [checkout] ∧ succeeded checkout = false
                      ∨ tail = [checkout; push]
                        ∧ succeeded checkout = true
                        ∧ (code = inr 0%Z → succeeded push = true))).
Proof.
  unfold main.
  destruct (Cli.create_mr args && negb (Cli.push args)).
  { exists (inr 1%Z),
      (ext st [] [mkLog ERROR "--create-mr requires --push" []]).
    unfold bind, log, ret, ext. rewrite !app_nil_r.
    split; [done|]. split; [auto|]. left. exists []. by rewrite app_nil_r. }
  destruct (Cli.create_mr args && negb (GITLAB_IMPORTED host)).
  { exists (inr 1%Z),
      (ext st []
         [mkLog ERROR "--create-mr used but python-gitlab not imported" []]).
    unfold bind, log, ret, ext. rewrite !app_nil_r.
    split; [done|]. split; [auto|]. left. exists []. by rewrite app_nil_r. }
  destruct (validate_environment_eq env host st)
    as [(Hgit & l0 & E0)|(Hgit & valid & l1 & E1)].
  { unfold bind at 1. rewrite E0.
    exists (inl (ProgramNotFound "git")), (ext st [] l0). unfold ret.
    split; [done|]. split.
    - split_and!; [done|done|]. cbn [trace ext]. by rewrite app_nil_r.
    - left. exists []. split; [done|constructor]. }
  cbv zeta in E1.
  set (d1 := [run_event env (trace st)
                (git_command (getcwd env) ["rev-parse"]) None;
              run_event env
                (trace st
                 ++ [run_event env (trace st)
                       (git_command (getcwd env) ["rev-parse"]) None])
                (git_command (getcwd env) (status_args None)) None]) in E1.
  assert (Forall (λ e, is_push e = false ∧ event_kind e ≠ Some KGenerate) d1)
    as F1 by (repeat constructor; done).
  clearbody d1.
  unfold bind at 1. rewrite E1. destruct valid; cbn [negb].
  2: { exists (inr 1%Z), (ext st d1 l1). unfold ret. split; [done|].
       split; [auto|]. left. by exists d1. }
  set (st_v := ext st d1 l1) in *.
  assert (trace st_v = trace st ++ d1) as Htrv by done.
  clearbody st_v.
  destruct (load_mirror_config_eq host (Cli.mirror_config args) st_v)
    as (l2 & E2).
  unfold bind at 1. rewrite E2.
  destruct (read_json host (Cli.mirror_config args))
    as [|reason|mirror_config] eqn:Hfile.
  1,2: exists (inr 1%Z), (ext st_v [] l2); unfold ret; (split; [done|]);
    (split; [auto|]); left; exists d1;
    (split; [cbn [trace ext]; by rewrite app_nil_r|done]).
  set (st_c := ext st_v [] l2) in *.
  assert (trace st_c = trace st ++ d1) as Htrc.
  { unfold st_c. cbn [trace ext]. by rewrite app_nil_r. }
  clearbody st_c.
  destruct (get_toplevel_eq env None st_c) as (l3 & E3).
  cbv zeta in E3.
  change (default (getcwd env) None) with (getcwd env) in E3.
  set (answer := spawn env (trace st_c)
                   (git_command (getcwd env)
                      ["rev-parse"; "--show-toplevel"]) None) in E3.
  change (run_event env (trace st_c)
            (git_command (getcwd env) ["rev-parse"; "--show-toplevel"]) None)
    with (Spawn (git_command (getcwd env) ["rev-parse"; "--show-toplevel"])
            None answer) in E3.
  set (e3 := Spawn (git_command (getcwd env)
                      ["rev-parse"; "--show-toplevel"]) None answer) in E3.
  assert (is_push e3 = false ∧ event_kind e3 ≠ Some KGenerate) as F3
    by done.
  assert (Forall (λ e, is_push e = false ∧ event_kind e ≠ Some KGenerate)
            (d1 ++ [e3])) as F13.
  { apply Forall_app. split; [done|]. by repeat constructor. }
  assert (e3 ∈ d1 ++ [e3]) as Hin3.
  { apply elem_of_app. right. by left. }
  set (st1 := ext st_c [e3] l3) in *.
  assert (trace st1 = trace st ++ d1 ++ [e3]) as Htr1.
  { unfold st1. cbn [trace ext]. by rewrite Htrc, app_assoc. }
  clearbody st1.
  unfold bind at 1. rewrite E3.
  destruct (exit_ok env (trace st_c)
              (git_command (getcwd env) ["rev-parse"; "--show-toplevel"])
              None); cbn [PyStr.truthy_opt negb].
  2: { eexists (inr 1%Z), _. unfold bind, log, ret.
       split; [reflexivity|]. split; [auto|]. left. by exists (d1 ++ [e3]). }
  unfold e3 in Hin3. clearbody answer.
  destruct (PyStr.truthy (PyStr.strip (out answer))); cbn [negb].
  2: { eexists (inr 1%Z), _. unfold bind, log, ret.
       split; [reflexivity|]. split; [auto|]. left. by exists (d1 ++ [e3]). }
  cbn [Cli.git_directory Cli.raw_files_directory Cli.exclude_alias
         Cli.base_branch Cli.lorry2 Cli.push Cli.create_mr].
  change (default "" (Some (PyStr.strip (out answer))))
    with (PyStr.strip (out answer)).
  set (toplevel := PyStr.strip (out answer)) in *.
  destruct (kept_process_mirroring env (Pathlib.div toplevel "gits")
              (Pathlib.div toplevel "files") (Cli.exclude_alias args)
              (Cli.lorry2 args) (λ _, True) (λ _ _ _ _, I) (λ _ _ _, I)
              (λ _ _ _, I) mirror_config (Cli.base_branch args) st1)
    as (r & d4 & l4 & E4 & _ & ([status branch] & ->) & _).
  unfold bind at 1. rewrite E4. cbn [fst snd].
  set (st2 := ext st1 d4 l4) in *. clearbody st2.
  match goal with
  | |- ∃ code st', ?run = _ ∧ _ =>
      enough (∃ code st' tail,
        run = (Ok (inr code), st')
        ∧ (code = 0 ∨ code = 1)%Z
        ∧ trace st' = trace st2 ++ tail
        ∧ (tail = []
           ∨ Cli.push args = true ∧ status = true
             ∧ ∃ name,
                 branch = Some name
                 ∧ let checkout :=
                     run_event env (trace st2)
                       (git_command (getcwd env) ["checkout"; name]) None in
                   let push :=
                     run_event env (trace st2 ++ [checkout])
                       (git_command (getcwd env)
                          ["push"; "--set-upstream"; "-f"; "origin"; name])
                       None in
                   tail = [checkout] ∧ succeeded checkout = false
                   ∨ tail = [checkout; push]
                     ∧ succeeded checkout = true
                     ∧ (code = 0%Z → succeeded push = true)))
        as (code & st' & tail & E & Hcode & Htr & Htail)
  end.
  { exists (inr code), st'. split; [exact E|]. split; [exact Hcode|]. right.
    exists st_v, mirror_config, st_c, answer, st1, status, branch, st2,
      (d1 ++ [e3]), tail.
    split; [done|]. split; [exact E2|]. split; [exact E3|].
    split; [exact Htr1|]. split; [exact F13|]. split; [exact Hin3|].
    split; [exact E4|]. split; [exact Htr|].
    destruct Htail as [->|(Hp & Hs & name & Hb & Htail)]; [by left|].
    right. split; [exact Hp|]. split; [exact Hs|]. exists name.
    split; [exact Hb|]. cbv zeta in Htail |- *.
    destruct Htail as [Htail|(Ht & Hc & Hok)]; [by left|].
    right. split; [exact Ht|]. split; [exact Hc|].
    intros [= ->]. by apply Hok. }
  clear E1 E2 E3 E4.
  destruct (negb status && negb (bool_decide (is_Some branch))).
  { exists 1%Z, st2, []. unfold ret. rewrite app_nil_r. auto. }
  destruct (status && PyStr.truthy_opt branch && Cli.push args) eqn:Hpush.
  2: { exists 0%Z, st2, []. unfold ret. rewrite app_nil_r. auto. }
  apply andb_true_iff in Hpush as [Hpush Hp].
  apply andb_true_iff in Hpush as [-> Hb].
  destruct branch as [name|]; [|done].
  change (default "" (Some name)) with name.
  destruct (push_branch_to_remote_eq env name "origin" st2) as (l5 & E5).
  cbv zeta in E5.
  set (checkout := run_event env (trace st2)
                     (git_command (getcwd env) ["checkout"; name]) None)
    in E5.
  set (push := run_event env (trace st2 ++ [checkout])
                 (git_command (getcwd env)
                    ["push"; "--set-upstream"; "-f"; "origin"; name]) None)
    in E5.
  unfold bind at 1. rewrite E5.
  destruct (succeeded checkout) eqn:Sc; cbn [andb].
  2: { cbn [negb]. exists 1%Z, (ext st2 [checkout] l5), [checkout].
       unfold ret. split; [done|]. split; [auto|]. split; [done|]. right.
       split; [done|]. split; [done|]. exists name. split; [done|].
       cbv zeta. fold checkout. left. by rewrite Sc. }
  assert (∀ code (st' : State),
    trace st' = trace st2 ++ [checkout; push] →
    (code = 0 ∨ code = 1)%Z →
    (code = 0%Z → succeeded push = true) →
    (code = 0 ∨ code = 1)%Z
    ∧ trace st' = trace st2 ++ [checkout; push]
    ∧ ([checkout; push] = []
       ∨ Cli.push args = true ∧ true = true
         ∧ ∃ name0,
             Some name = Some name0
             ∧ let checkout0 :=
                 run_event env (trace st2)
                   (git_command (getcwd env) ["checkout"; name0]) None in
               let push0 :=
                 run_event env (trace st2 ++ [checkout0])
                   (git_command (getcwd env)
                      ["push"; "--set-upstream"; "-f"; "origin"; name0])
                   None in
               [checkout; push] = [checkout0] ∧ succeeded checkout0 = false
               ∨ [checkout; push] = [checkout0; push0]
                 ∧ succeeded checkout0 = true
                 ∧ (code = 0%Z → succeeded push0 = true))) as Hpushed.
  { intros code st' Htr Hcode Hok. split; [done|]. split; [done|]. right.
    split; [done|]. split; [done|]. exists name. split; [done|].
    cbv zeta. fold checkout. fold push. right. by rewrite Sc. }
  destruct (succeeded push) eqn:Spush; cbn [negb].
  2: { exists 1%Z, (ext st2 [checkout; push] l5), [checkout; push].
       unfold ret. split; [done|]. apply Hpushed; [done|auto|done]. }
  destruct (GITLAB_IMPORTED host && Cli.create_mr args && true).
  2: { exists 0%Z, (ext st2 [checkout; push] l5), [checkout; push].
       unfold ret. split; [done|]. apply Hpushed; [done|auto|done]. }
  destruct (create_merge_request_eq host name (Cli.base_branch args)
              default_mr_title true (ext st2 [checkout; push] l5))
    as (created & l6 & E6).
  unfold bind at 1. rewrite E6.
  destruct created; cbn [negb]; unfold ret.
  - eexists 0%Z, _, [checkout; push]. split; [reflexivity|].
    apply Hpushed; [cbn [trace ext]; by rewrite app_nil_r|auto|done].
  - eexists 1%Z, _, [checkout; push]. split; [reflexivity|].
    apply Hpushed; [cbn [trace ext]; by rewrite app_nil_r|auto|done].
Qed.

(** The events of a mirroring run that returned. *)
Lemma process_mirroring_events env mirror_config git_dir raw_files_dir
    exclude_aliases base_branch lorry2 st result st2 :
  process_mirroring env mirror_config git_dir raw_files_dir exclude_aliases
    base_branch lorry2 st = (Ok result, st2) →
  ∃ d,
    trace st2 = trace st ++ d
    ∧ Forall (λ e, mirroring_event e = true) d
    ∧ Forall (generates_into git_dir raw_files_dir exclude_aliases lorry2) d.
Proof.
  intros Hrun.
  destruct (kept_process_mirroring env git_dir raw_files_dir exclude_aliases
              lorry2
              (generates_into git_dir raw_files_dir exclude_aliases lorry2))
    with (mirror_config := mirror_config) (base_branch := base_branch)
         (st := st)
    as (r & d & l & E & _ & _ & Hd & _).
  { intros h p args _. apply generates_into_git. }
  { intros h element dest. cbn. done. }
  { intros h elements dest. cbn [generates_into run_event]. eauto. }
  rewrite E in Hrun. injection Hrun as _ <-.
  exists d. split; [done|]. split.
  - eapply Forall_impl; [exact Hd|]. by intros e [He _].
  - eapply Forall_impl; [exact Hd|]. intros e [He Hp].
    destruct e as [command cwd res| |]; [|done..]. by apply Hp.
Qed.



(** X19.  The options [--git-directory] and [--raw-files-directory] have no
    effect: [main] replaces both before it uses them, so its run is the
    same whatever their values, and every run of the generator that it
    starts is given the directories [gits] and [files] under the top level
    that [git rev-parse --show-toplevel] printed in the same run, together
    with the excluded aliases and the format of the command line. *)
Theorem main_ignores_directory_options env host args git_directory
    raw_files_directory st :
  main env host
    (Cli.mkArgs (Cli.mirror_config args) (Cli.base_branch args)
       git_directory raw_files_directory (Cli.exclude_alias args)
       (Cli.push args) (Cli.create_mr args) (Cli.lorry2 args)) st
  = main env host args st
  ∧ ∃ code st' d,
      main env host args st = (Ok code, st')
      ∧ trace st' = trace st ++ d
      ∧ ∀ command cwd res,
          Spawn command cwd res ∈ d → kind_of command = KGenerate →
          ∃ answer elements,
            Spawn (git_command (getcwd env) ["rev-parse"; "--show-toplevel"])
              None answer ∈ d
            ∧ command
              = bst_to_lorry_command elements
                  (Pathlib.div (PyStr.strip (out answer)) "gits")
                  (Pathlib.div (PyStr.strip (out answer)) "files")
                  (Cli.exclude_alias args) (Cli.lorry2 args).
Proof.
  split; [by destruct args|].
  destruct (main_run env host args st) as (code & st' & E & _ & Hrun).
  assert (∀ d command cwd res,
    Forall (λ e, is_push e = false ∧ event_kind e ≠ Some KGenerate) d →
    Spawn command cwd res ∈ d → kind_of command ≠ KGenerate) as Hquiet.
  { intros d command cwd res Hd Hin Hk.
    apply (proj1 (Forall_forall _ _) Hd) in Hin as [_ Hg]. apply Hg.
    cbn [event_kind]. by rewrite Hk. }
  destruct Hrun as [(d0 & Htr & Hd0)|Hrun].
  { exists code, st', d0. split; [done|]. split; [done|].
    intros command cwd res Hin Hk. by destruct (Hquiet _ _ _ _ Hd0 Hin). }
  destruct Hrun as (st_v & mirror_config & st_c & answer & st1 & status
                    & branch & st2 & d0 & tail & _ & _ & _ & Htr1 & Hd0
                    & Hans & Hm & Htr & Htail).
  destruct (process_mirroring_events _ _ _ _ _ _ _ _ _ _ Hm)
    as (d4 & Htr2 & _ & Hd4).
  exists code, st', ((d0 ++ d4) ++ tail).
  split; [done|]. split; [by rewrite Htr, Htr2, Htr1, <- !app_assoc|].
  intros command cwd res Hin Hk.
  apply elem_of_app in Hin as [Hin|Hin].
  - apply elem_of_app in Hin as [Hin|Hin].
    { by destruct (Hquiet _ _ _ _ Hd0 Hin). }
    apply (proj1 (Forall_forall _ _) Hd4) in Hin.
    destruct (Hin Hk) as (elements & ->).
    exists answer, elements. split; [|done].
    apply elem_of_app. left. apply elem_of_app. by left.
  - exfalso.
    destruct Htail as [->|(_ & _ & name & _ & Htail)].
    { by apply elem_of_nil in Hin. }
    cbv zeta in Htail. destruct Htail as [[-> _]|(-> & _ & _)].
    + apply list_elem_of_singleton in Hin. injection Hin as -> _ _.
      rewrite kind_checkout in Hk. discriminate Hk.
    + apply elem_of_cons in Hin as [Hin|Hin].
      { injection Hin as -> _ _. rewrite kind_checkout in Hk.
        discriminate Hk. }
      apply list_elem_of_singleton in Hin. injection Hin as -> _ _.
      discriminate Hk.
Qed.

(** ** The clean-up, request by request *)

Section CleanupRequests.

Import Regex Gitlab Remote.

Variable server : Server.

Lemma gbind_glog {B} l m a (k : unit → G B) s :
  gbind (glog l m a) k s
  = k tt (mkSession (remote s) (requests s) (records s ++ [mkLog l m a])).
Proof. reflexivity. Qed.

Lemma gbind_send {A B} q (answer : Project → A) effect (k : A → G B) s :
  gbind (send server q answer effect) k s
  = match refuses server (requests s) q with
    | Some reason =>
        (GitlabError reason,
         mkSession (remote s) (requests s ++ [q]) (records s))
    | None =>
        k (answer (remote s))
          (mkSession (effect (remote s)) (requests s ++ [q]) (records s))
    end.
Proof. unfold gbind, send. by destruct (refuses server (requests s) q). Qed.

Lemma delete_each_run names : ∀ s,
  let run := delete_each server names s in
  ∃ new,
    requests run.2 = requests s ++ new
    ∧ match run.1 with
      | Answered _ =>
          new = map (λ b, Call (DeleteBranch b)) names
          ∧ remote run.2 = foldl Gitlab.branches_delete (remote s) names
      | GitlabError _ =>
          ∃ rest, map (λ b, Call (DeleteBranch b)) names = new ++ rest
      end.
Proof.
  induction names as [|b names IH]; intros s run.
  - exists []. cbn. by rewrite app_nil_r.
  - unfold run. cbn [delete_each]. rewrite gbind_glog.
    unfold branches_delete. rewrite gbind_send. cbn [requests remote records].
    destruct (refuses server (requests s) (Call (DeleteBranch b))).
    + exists [Call (DeleteBranch b)]. cbn [fst snd requests map].
      split; [done|]. by eexists.
    + match goal with
      | |- context [delete_each server names ?s1] =>
          destruct (IH s1) as (new & E & H); cbn [requests remote] in E, H;
          destruct (delete_each server names s1) as [[a|reason] s2]
      end; cbn [fst snd] in *.
      * exists (Call (DeleteBranch b) :: new). rewrite E, <- app_assoc.
        split; [done|]. destruct H as [-> ->]. done.
      * exists (Call (DeleteBranch b) :: new). rewrite E, <- app_assoc.
        split; [done|]. destruct H as (rest & H). exists rest.
        cbn [map app]. by rewrite H.
Qed.

Lemma cleanup_branches_run s :
  let pure := Gitlab.cleanup_branches (remote s) in
  let run := cleanup_branches server s in
  ∃ new,
    requests run.2 = requests s ++ new
    ∧ match run.1 with
      | Answered _ => new = map Call pure.2 ∧ remote run.2 = pure.1
      | GitlabError _ => ∃ rest, map Call pure.2 = new ++ rest
      end.
Proof.
  intros pure run. unfold pure, run, Gitlab.cleanup_branches. cbn [fst snd].
  set (to_delete := elements _). rewrite map_app, map_map. cbn [map app].
  unfold cleanup_branches, branches_list. rewrite gbind_send.
  destruct (refuses server (requests s) _).
  { eexists [_]. cbn [fst snd requests]. split; [done|]. by eexists. }
  unfold mergerequests_list. rewrite gbind_send.
  cbn [requests remote records id].
  destruct (refuses server _ _).
  { eexists [_; _]. cbn [fst snd requests]. rewrite <- app_assoc.
    split; [done|]. by eexists. }
  fold to_delete. unfold delete_merged_branches. rewrite gbind_send.
  cbn [requests remote records].
  destruct (refuses server _ _).
  { eexists [_; _; _]. cbn [fst snd requests]. rewrite <- !app_assoc.
    split; [done|]. by eexists. }
  match goal with
  | |- context [delete_each server to_delete ?s1] =>
      destruct (delete_each_run to_delete s1) as (new & E & H);
      cbn [requests remote] in E, H;
      destruct (delete_each server to_delete s1) as [[a|reason] s2]
  end; cbn [fst snd] in *.
  - exists (Call (ListBranches branch_regex_source)
            :: Call (ListMergeRequests "opened")
            :: Call DeleteMergedBranches :: new).
    rewrite E, <- !app_assoc. split; [done|]. destruct H as [-> ->]. done.
  - exists (Call (ListBranches branch_regex_source)
            :: Call (ListMergeRequests "opened")
            :: Call DeleteMergedBranches :: new).
    rewrite E, <- !app_assoc. split; [done|].
    destruct H as (rest & H). exists rest. cbn [app]. by rewrite H.
Qed.

End CleanupRequests.

(** X20.  [cleanup_branches] handles no refusal.  When the server answers
    every request, it sends the two listings, the deletion of the merged
    branches and one deletion for each matching branch without an open
    merge request, and ends.  When a request is refused, that request is
    the last one it sends: the [GitlabError] leaves the function with the
    requests before it done and the deletions after it never sent. *)
Theorem cleanup_stops_at_first_refusal (server : Remote.Server)
    (s : Remote.Session) :
  let pure := Gitlab.cleanup_branches (Remote.remote s) in
  let calls := map Remote.Call pure.2 in
  let run := Remote.cleanup_branches server s in
  ∃ new,
    Remote.requests run.2 = Remote.requests s ++ new
    ∧ match run.1 with
      | Remote.Answered _ =>
          new = calls
          ∧ any_refused server (Remote.requests s) calls = false
          ∧ Remote.remote run.2 = pure.1
      | Remote.GitlabError reason =>
          ∃ pre q rest,
            calls = pre ++ q :: rest
            ∧ new = pre ++ [q]
            ∧ any_refused server (Remote.requests s) pre = false
            ∧ Remote.refuses server (Remote.requests s ++ pre) q
              = Some reason
      end.
Proof.
  intros pure calls run.
  destruct (cleanup_branches_run server s) as (new & E & H).
  destruct (stops_cleanup_branches server s) as (new' & E' & H').
  fold run in E, H, E', H'. fold pure in H.
  rewrite E in E'. apply app_inv_head in E'. subst new'.
  exists new. split; [exact E|].
  destruct run.1 as [a|reason].
  - destruct H as [-> Hr]. done.
  - destruct H as (rest & Hc). destruct H' as (pre & q & -> & Hpre & Hq).
    exists pre, q, rest. split_and!; [|done..].
    unfold calls. by rewrite Hc, <- app_assoc.
Qed.

Section Witnesses.

Import Regex Gitlab Remote.

Lemma merge_request_then_cleanup_witness :
  let host :=
    ScriptHost.host ScriptHost.tools ScriptHost.ci_vars (Parsed []) true [] in
  let source := "update-mirrors/main/20240102030405" in
  let server :=
    gitlab host (default "" (environ host "CI_SERVER_URL"))
      (default "" (gitlab_token host))
      (default "" (environ host "CI_PROJECT_ID")) in
  let mr := mkMR source "main" default_mr_title "opened" in
  let project1 :=
    mkProject (branches (project server))
      (mergerequests (project server) ++ [mr]) (merged (project server)) in
  let calls := (Gitlab.cleanup_branches project1).2 in
  let run := merge_request_session host source "main" default_mr_title true in
  PyStr.truthy_opt (gitlab_token host) = true
  ∧ PyStr.truthy_opt (environ host "CI_PROJECT_ID") = true
  ∧ PyStr.truthy_opt (environ host "CI_SERVER_URL") = true
  ∧ any_refused server [] (CreateMergeRequest mr :: map Call calls) = false
  ∧ calls
    = [ListBranches branch_regex_source; ListMergeRequests "opened";
       DeleteMergedBranches;
       DeleteBranch "update-mirrors/main/20230101000000"]
  ∧ create_merge_request host source "main" default_mr_title true initial
    = (Ok true,
       ext initial []
         (mkLog INFO "Merge request created: %s" [AStr (web_url server mr)]
          :: omap (λ c, match c with
                        | DeleteBranch b =>
                            Some (mkLog INFO "Deleting branch: %s" [AStr b])
                        | _ => None
                        end) calls))
  ∧ requests run.2 = CreateMergeRequest mr :: map Call calls
  ∧ remote run.2 = (Gitlab.cleanup_branches project1).1
  ∧ DeleteBranch source ∉ calls.
Proof.
  intros host source server mr project1 calls run.
  split; [reflexivity|]. split; [reflexivity|]. split; [reflexivity|].
  split; [vm_compute; reflexivity|]. split; [vm_compute; reflexivity|].
  apply (merge_request_then_cleanup host source "main" default_mr_title true
           initial); [reflexivity..|vm_compute; reflexivity].
Defined.

Lemma refused_request_fails_merge_request_witness :
  let host :=
    ScriptHost.host ScriptHost.tools ScriptHost.ci_vars (Parsed []) true [2] in
  let source := "update-mirrors/main/20240102030405" in
  let server :=
    gitlab host (default "" (environ host "CI_SERVER_URL"))
      (default "" (gitlab_token host))
      (default "" (environ host "CI_PROJECT_ID")) in
  let mr := mkMR source "main" default_mr_title "opened" in
  let run := merge_request_session host source "main" default_mr_title true in
  let sent := requests run.2 in
  PyStr.truthy_opt (gitlab_token host) = true
  ∧ PyStr.truthy_opt (environ host "CI_PROJECT_ID") = true
  ∧ PyStr.truthy_opt (environ host "CI_SERVER_URL") = true
  ∧ sent = [CreateMergeRequest mr; Call (ListBranches branch_regex_source);
            Call (ListMergeRequests "opened")]
  ∧ ∃ created st',
      create_merge_request host source "main" default_mr_title true initial
      = (Ok created, st')
      ∧ trace st' = trace initial
      ∧ created = negb (any_refused server [] sent)
      ∧ (created = false →
         ∃ reason pre q,
           sent = pre ++ [q]
           ∧ any_refused server [] pre = false
           ∧ refuses server pre q = Some reason
           ∧ last (logs st')
             = Some (mkLog ERROR "Failed to create merge request: %s"
                       [AStr reason]))
      ∧ (refuses server [] (CreateMergeRequest mr) = None →
         mr ∈ mergerequests (remote run.2)).
Proof.
  intros host source server mr run sent.
  split; [reflexivity|]. split; [reflexivity|]. split; [reflexivity|].
  split; [vm_compute; reflexivity|].
  apply (refused_request_fails_merge_request host source "main"
           default_mr_title true initial); reflexivity.
Defined.

End Witnesses.
